(** * CarbonFitter: grids, production-function selection and likelihoods

    A shallow embedding of [src/fitting_tinygp.py] (class [CarbonFitter]).

    Numbers are exact rationals ([Q]): every array of the program is a
    [list Q], the boolean alignment mask a [list bool].  The only non-finite
    value the program builds on purpose, [-np.inf] in [log_prior], gets its
    own constructor ([xnum]).

    The program computes in binary floating point, and the model agrees
    with it where that arithmetic is exact or only compared:
    - where numpy would produce [nan] or [inf] by a division by zero, [Q]
      division yields [0]; the theorems on values of the likelihoods assume
      that no such division occurs (no zero uncertainty, a non-empty slice
      to average, a non-empty curve to count);
    - the number of points of [arange] is a ceiling of a quotient, which
      rounding can push over the next integer; the theorems that count grid
      points are stated for calendar years ([calendar_years]: whole numbers
      below 2^24 in magnitude), on which every operation of the grid is
      exact in single and in double precision;
    - statements that an interpolated value equals a control value are made
      only where the code adds a zero to it.

    Python exceptions are the [Raise] results of the [result] monad.  The
    box-model simulator ([ticktack]), the Gaussian process ([tinygp]) and
    the optimiser ([scipy]) are external collaborators and enter as section
    variables.  The burst production functions use [exp] and [sin] and are
    written over the real numbers, in a module of their own. *)

From Stdlib Require Import QArith Qround ZArith List Bool String Lia Lqa Permutation Sorted.
From Stdlib Require Reals Lra.
From stdpp Require Import gmap strings.
Import ListNotations.

Open Scope Q_scope.

(** ** Exceptions and the [result] monad *)

(** The causes for which the modelled code raises. *)
Inductive exn : Type :=
  | EmptyReduction    (* np.nanmin / np.nanmax of a zero-size array *)
  | NegativeSamples   (* jnp.linspace with num < 0 *)
  | ZeroStep          (* jnp.arange with step = 0 *)
  | ShapeMismatch     (* operands could not be broadcast / mask of wrong size *)
  | IndexOutOfRange   (* x[-1] on an empty axis *)
  | BadOperand        (* arithmetic on a value that is not a number *)
  | MissingAttribute. (* attribute read before it was ever assigned *)

Inductive result (A : Type) : Type :=
  | Ok (a : A)
  | Raise (e : exn).
Arguments Ok {A} a.
Arguments Raise {A} e.

#[global] Instance result_ret : MRet result := fun A a => Ok a.
#[global] Instance result_bind : MBind result :=
  fun A B f m => match m with Ok a => f a | Raise e => Raise e end.
#[global] Instance result_fmap : FMap result :=
  fun A B f m => match m with Ok a => Ok (f a) | Raise e => Raise e end.

Definition is_ok {A} (r : result A) : bool :=
  match r with Ok _ => true | Raise _ => false end.

(** ** Array primitives (numpy / jax.numpy) *)

Module Np.

(** [x[:k]] for a Python integer [k] (negative [k] counts from the end). *)
Definition slice_to {A} (k : Z) (l : list A) : list A :=
  if (0 <=? k)%Z then firstn (Z.to_nat k) l
  else firstn (length l - Z.to_nat (- k)) l.

(** [x[-1]]. *)
Definition last_item {A} (l : list A) : result A :=
  match l with
  | [] => Raise IndexOutOfRange
  | x :: r => Ok (List.last r x)
  end.

Definition qmin (a b : Q) : Q := if Qle_bool a b then a else b.
Definition qmax (a b : Q) : Q := if Qle_bool a b then b else a.

Definition nanmin (l : list Q) : result Q :=
  match l with
  | [] => Raise EmptyReduction
  | x :: r => Ok (fold_left qmin r x)
  end.

Definition nanmax (l : list Q) : result Q :=
  match l with
  | [] => Raise EmptyReduction
  | x :: r => Ok (fold_left qmax r x)
  end.

Definition of_nat (n : nat) : Q := inject_Z (Z.of_nat n).

(** [linspace(start, stop, num)], endpoint included. *)
Definition linspace (start stop : Q) (num : Z) : result (list Q) :=
  if (num <? 0)%Z then Raise NegativeSamples
  else if (num =? 1)%Z then Ok [start]
  else Ok (map (fun i => start + of_nat i * ((stop - start) / inject_Z (num - 1)))
               (seq 0 (Z.to_nat num))).

(** [arange(start, stop, step)]: [ceil((stop - start) / step)] points
    [start + i * step], here in exact arithmetic.  numpy evaluates the same
    expressions in floating point, so the two agree where these operations
    are exact (whole-number bounds and a unit step); elsewhere numpy can
    return one point more. *)
Definition arange (start stop step : Q) : result (list Q) :=
  if Qeq_bool step 0 then Raise ZeroStep
  else Ok (map (fun i => start + of_nat i * step)
               (seq 0 (Z.to_nat (Qceiling ((stop - start) / step))))).

(** [in1d(ar1, ar2)]: for each entry of [ar1], whether it occurs in [ar2]. *)
Definition in1d (ar1 ar2 : list Q) : list bool :=
  map (fun a => existsb (Qeq_bool a) ar2) ar1.

Definition sum (l : list Q) : Q := fold_left Qplus l 0.

(** [mean(l)]; of an empty array numpy returns [nan], the model [0]. *)
Definition mean (l : list Q) : Q := sum l / of_nat (length l).

Definition count_true (m : list bool) : nat :=
  length (List.filter (fun b : bool => b) m).

(** [x[m]] for a boolean array [m]: the sizes must agree. *)
Definition bool_index {A} (x : list A) (m : list bool) : result (list A) :=
  if Nat.eqb (length x) (length m)
  then Ok (map fst (List.filter snd (combine x m)))
  else Raise ShapeMismatch.

Fixpoint zip_with {A B C} (f : A -> B -> C) (x : list A) (y : list B) : list C :=
  match x, y with
  | a :: x', b :: y' => f a b :: zip_with f x' y'
  | _, _ => []
  end.

(** Element-wise binary operation on 1-d arrays with numpy broadcasting:
    equal sizes, or one operand of size one which is then stretched. *)
Definition broadcast2 (f : Q -> Q -> Q) (x y : list Q) : result (list Q) :=
  if Nat.eqb (length x) (length y) then Ok (zip_with f x y)
  else match x, y with
       | [a], _ => Ok (map (f a) y)
       | _, [b] => Ok (map (fun a => f a b) x)
       | _, _ => Raise ShapeMismatch
       end.

Definition sub := broadcast2 Qminus.
(** By a zero divisor numpy returns [inf] or [nan], the model [0]. *)
Definition div := broadcast2 Qdiv.

End Np.

(** ** The fitter object *)

(** A Python value as it can appear among the keyword arguments. *)
Inductive pyval : Type :=
  | PyNone
  | PyBool (b : bool)
  | PyNum (q : Q)
  | PyStr (s : string)
  | PyFun (f : Q -> list Q -> Q).

(** What [self.production] can be bound to. *)
Inductive production_fn : Type :=
  | miyake_event_fixed_solar
  | miyake_event_flexible_solar
  | interp_linear
  | interp_gp
  | custom (f : pyval).

(** One row of the table read from the data file. *)
Record row : Type := { year : Q; d14c : Q; sig_d14c : Q }.

(** The attributes of a [CarbonFitter] once [load_data] has run.
    [production] and [control_points_time] are [None] while unassigned. *)
Record CarbonFitter : Type := {
  time_data : list Q;
  d14c_data : list Q;
  d14c_data_error : list Q;
  start : Q;
  end_ : Q;
  resolution : Z;
  burn_in_time : list Q;
  time_grid_fine : list Q;
  time_oversample : Z;
  offset : Q;
  annual : list Q;
  mask : list bool;
  production : option production_fn;
  control_points_time : option (list Q)
}.

(** [load_data], with the table already read from [file_name]. *)
Definition load_data (data : list row) (resolution : Z) (fine_grid : Q)
    (time_oversample : Z) (num_offset : Z) : result CarbonFitter :=
  let time_data := map year data in
  let d14c_data := map d14c data in
  let d14c_data_error := map sig_d14c data in
  start ← Np.nanmin time_data;
  end_ ← Np.nanmax time_data;
  burn_in_time ← Np.linspace (start - 1000) start resolution;
  time_grid_fine ← Np.arange start end_ fine_grid;
  let offset := Np.mean (Np.slice_to num_offset d14c_data) in
  annual ← Np.arange start (end_ + 1) 1;
  let mask := Np.slice_to (-1) (Np.in1d annual time_data) in
  Ok {| time_data := time_data; d14c_data := d14c_data;
        d14c_data_error := d14c_data_error;
        start := start; end_ := end_; resolution := resolution;
        burn_in_time := burn_in_time; time_grid_fine := time_grid_fine;
        time_oversample := time_oversample; offset := offset;
        annual := annual; mask := mask;
        production := None; control_points_time := None |}.

(** ** Production-function selection *)

Definition is_True (v : pyval) : bool :=
  match v with PyBool true => true | _ => false end.

Definition is_not_None (v : pyval) : bool :=
  match v with PyNone => false | _ => true end.

(** [v == s] for a string literal [s]. *)
Definition eq_str (v : pyval) (s : string) : bool :=
  match v with PyStr s' => String.eqb s' s | _ => false end.

(** The operand of [float + v]; [bool] is a subclass of [int]. *)
Definition as_number (v : pyval) : result Q :=
  match v with
  | PyNum q => Ok q
  | PyBool b => Ok (if b then 1 else 0)
  | _ => Raise BadOperand
  end.

(** [for x in l: s = body(s, x)]. *)
Fixpoint for_each {A S} (body : S -> A -> result S) (s : S) (l : list A) : result S :=
  match l with
  | [] => Ok s
  | a :: l' => s' ← body s a; for_each body s' l'
  end.

(** The body of the loop over [range(n)] that grows [control_points_time]. *)
Definition control_points_body (time_data : list Q) (dense_years gap_years : pyval)
    (control_points_time : list Q) (i : nat) : result (list Q) :=
  let t := nth i time_data 0 in
  last ← Np.last_item control_points_time;
  if Qle_bool (t - last) 2 && negb (Qle_bool (t - last) 0) then
    d ← as_number dense_years;
    Ok (control_points_time ++ [t + d])
  else
    g ← as_number gap_years;
    if Qle_bool (last + g) t then Ok (control_points_time ++ [t])
    else Ok control_points_time.

Definition with_production (self : CarbonFitter) (p : option production_fn)
    (cpt : option (list Q)) : CarbonFitter :=
  {| time_data := time_data self; d14c_data := d14c_data self;
     d14c_data_error := d14c_data_error self;
     start := start self; end_ := end_ self; resolution := resolution self;
     burn_in_time := burn_in_time self; time_grid_fine := time_grid_fine self;
     time_oversample := time_oversample self; offset := offset self;
     annual := annual self; mask := mask self;
     production := p; control_points_time := cpt |}.

(** The first [try] block: both keys are read together, so if either is
    missing both fall back. *)
Definition custom_function_and_f (kwargs : gmap string pyval) : pyval * pyval :=
  match kwargs !! "custom_function"%string, kwargs !! "f"%string with
  | Some c, Some f => (c, f)
  | _, _ => (PyBool false, PyNone)
  end.

(** The control-point times of the linear variant. *)
Definition linear_control_points (self : CarbonFitter)
    (dense_years gap_years : pyval) : result (list Q) :=
  let control_points_time := [start self - 1; start self] in
  let n := length (Np.slice_to (-1) (time_data self)) in
  control_points_time ←
    for_each (control_points_body (time_data self) dense_years gap_years)
             control_points_time (seq 0 n);
  Ok (List.filter (fun c => Qle_bool c (end_ self)) control_points_time).

(** [prepare_function] on its keyword arguments.  The message printed when
    the default is taken is not part of the state and is left out. *)
Definition prepare_function (self : CarbonFitter) (kwargs : gmap string pyval)
    : result CarbonFitter :=
  let production : option production_fn := None in
  let custom_function := fst (custom_function_and_f kwargs) in
  let f := snd (custom_function_and_f kwargs) in
  let use_control_points := default (PyBool false) (kwargs !! "use_control_points"%string) in
  let interp := default (PyStr "linear") (kwargs !! "interp"%string) in
  let dense_years := default (PyNum 3) (kwargs !! "dense_years"%string) in
  let gap_years := default (PyNum 5) (kwargs !! "gap_years"%string) in
  let production_kw := default PyNone (kwargs !! "production"%string) in
  let fit_solar_params := default (PyBool false) (kwargs !! "fit_solar"%string) in
  let production :=
    if eq_str production_kw "miyake" then
      if is_True fit_solar_params then Some miyake_event_flexible_solar
      else Some miyake_event_fixed_solar
    else production in
  let production :=
    if is_True custom_function && is_not_None f then Some (custom f)
    else production in
  selected ←
    (if is_True use_control_points then
       if eq_str interp "linear" then
         control_points_time ← linear_control_points self dense_years gap_years;
         Ok (Some interp_linear, Some control_points_time)
       else if eq_str interp "gp" then
         Ok (Some interp_gp, Some (annual self))
       else Ok (production, control_points_time self)
     else Ok (production, control_points_time self));
  let production :=
    match fst selected with
    | None => Some miyake_event_fixed_solar
    | Some p => Some p
    end in
  Ok (with_production self production (snd selected)).

(** ** Forward simulation and likelihoods *)

(** A finite number or [-np.inf]. *)
Inductive xnum : Type :=
  | Fin (q : Q)
  | NegInf.

Definition xadd (a b : xnum) : xnum :=
  match a, b with
  | Fin x, Fin y => Fin (x + y)
  | _, _ => NegInf
  end.

Definition attribute {A} (a : option A) : result A :=
  match a with Some x => Ok x | None => Raise MissingAttribute end.

Section Fitter.

(** The compiled box model [self.cbm] and its steady state. *)
Variable state : Type.
Variable steady_state_y0 : state.
(** [cbm.run(time_values, production, args, y0)], first component.  The
    production function is a method bound to the fitter (or the callable
    stored in it), so the simulator is given the fitter it reads from. *)
Variable cbm_run : list Q -> CarbonFitter -> list Q -> state -> list state.
(** [cbm.run_D_14_C_values(time_out, time_oversample, production, args,
    y0, steady_state_solutions)]. *)
Variable cbm_run_D_14_C_values :
  list Q -> Z -> CarbonFitter -> list Q -> state -> state -> list Q.
(** [GaussianProcess(ExpSquared(scale), X, mean).condition(y)]. *)
Variable gp_condition : Q -> list Q -> Q -> list Q -> Q.

Definition run (self : CarbonFitter) (time_values : list Q) (y0 : state)
    (params : list Q) : result (list state) :=
  _ ← attribute (production self);
  Ok (cbm_run time_values self params y0).

Definition run_D_14_C_values (self : CarbonFitter) (time_out : list Q)
    (time_oversample : Z) (y0 : state) (params : list Q) : result (list Q) :=
  _ ← attribute (production self);
  Ok (cbm_run_D_14_C_values time_out time_oversample self params y0 steady_state_y0).

Definition dc14 (self : CarbonFitter) (params : list Q) : result (list Q) :=
  burn_in ← run self (burn_in_time self) steady_state_y0 params;
  y0 ← Np.last_item burn_in;
  d_14_c ← run_D_14_C_values self (annual self) (time_oversample self) y0 params;
  d_14_c ← Np.bool_index d_14_c (mask self);
  Ok (map (fun v => v + offset self) d_14_c).

Definition log_like (self : CarbonFitter) (params : list Q) : result Q :=
  d_14_c ← dc14 self params;
  x ← Np.sub (Np.slice_to (-1) (d14c_data self)) d_14_c;
  y ← Np.div x (Np.slice_to (-1) (d14c_data_error self));
  let chi2 := Np.sum (map (fun v => v ^ 2) y) in
  let like := - (1 # 2) * chi2 in
  Ok like.

Definition log_prior (params : list Q) : xnum :=
  fold_left xadd
    (map (fun p => if Qle_bool p 0 then NegInf else Fin 0) params) (Fin 0).

Definition log_prob (self : CarbonFitter) (params : list Q) : result xnum :=
  let lp := log_prior params in
  pos ← log_like self params;
  Ok (xadd lp (Fin pos)).

Definition loss_chi2 (self : CarbonFitter) (params : list Q) : result Q :=
  d_14_c ← dc14 self params;
  x ← Np.sub (Np.slice_to (-1) (d14c_data self)) d_14_c;
  y ← Np.div x (Np.slice_to (-1) (d14c_data_error self));
  let chi2 := Np.sum (map (fun v => v ^ 2) y) in
  Ok ((1 # 2) * chi2).

Definition loss_chi2_avg (self : CarbonFitter) (params : list Q) (k : Q)
    : result Q :=
  d_14_c ← dc14 self params;
  x ← Np.sub (Np.slice_to (-1) (d14c_data self)) d_14_c;
  y ← Np.div x (Np.slice_to (-1) (d14c_data_error self));
  let chi2 := Np.sum (map (fun v => v ^ 2) y) in
  Ok ((1 # 2) * chi2 / (k * Np.of_nat (length d_14_c))).

Definition gp_neg_log_likelihood (self : CarbonFitter) (params : list Q)
    : result Q :=
  let control_points := Np.slice_to (-1) params in
  mean ← Np.last_item params;
  X ← attribute (control_points_time self);
  Ok (- gp_condition 1 X mean control_points).

Definition gp_likelihood (self : CarbonFitter) (params : list Q) : result Q :=
  chi2 ← loss_chi2 self params;
  nll ← gp_neg_log_likelihood self params;
  Ok (chi2 + nll).

Definition gp_likelihood_avg (self : CarbonFitter) (params : list Q) (k : Q)
    : result Q :=
  chi2 ← loss_chi2 self params;
  nll ← gp_neg_log_likelihood self params;
  Ok ((chi2 + nll) / k).

End Fitter.

(** ** The spec's formulas, written from its words *)

(** Sum over all observation points except the last of
    ((observed - simulated) / uncertainty) squared. *)
Definition chi2_sum (observed uncertainty simulated : list Q) : Q :=
  Np.sum (map (fun i => ((nth i observed 0 - nth i simulated 0)
                           / nth i uncertainty 0) ^ 2)
              (seq 0 (length observed - 1))).

(** The spacing rule: [last] is the last accepted control point.  A gap in
    (0, 2] puts a point [dense_years] after the observation; otherwise a gap
    of at least [gap_years] puts a point at the observation. *)
Fixpoint spaced (dense_years gap_years last : Q) (times : list Q) : list Q :=
  match times with
  | [] => []
  | t :: rest =>
      let gap := t - last in
      if negb (Qle_bool gap 0) && Qle_bool gap 2 then
        (t + dense_years) :: spaced dense_years gap_years (t + dense_years) rest
      else if Qle_bool gap_years gap then
        t :: spaced dense_years gap_years t rest
      else spaced dense_years gap_years last rest
  end.

(** Start from [start - 1, start], walk the given observation times, then
    drop the points beyond the window end. *)
Definition control_points_rule (dense_years gap_years start_time end_time : Q)
    (walked : list Q) : list Q :=
  List.filter (fun c => Qle_bool c end_time)
    ([start_time - 1; start_time]
       ++ spaced dense_years gap_years start_time walked).

(** The observation times are pairwise different numbers. *)
Fixpoint distinct (times : list Q) : bool :=
  match times with
  | [] => true
  | t :: rest => negb (existsb (Qeq_bool t) rest) && distinct rest
  end.

(** Every observation time lies a whole number of years after [t0]. *)
Definition whole_years (t0 : Q) (times : list Q) : bool :=
  forallb (fun t => Qeq_bool (t - t0) (inject_Z (Qfloor (t - t0)))) times.

(** The observation times are calendar years: whole numbers, and below 2^24
    in magnitude, so that floating point of either precision holds them,
    their sums with one and their differences exactly. *)
Definition calendar_years (times : list Q) : bool :=
  forallb (fun t => Qeq_bool t (inject_Z (Qfloor t))
                    && (Z.abs (Qfloor t) <? 2 ^ 24)%Z) times.

(** The numbers the likelihoods divide by are not zero: the offset averages
    at least one value and no uncertainty is zero. *)
Definition no_zero_division (data : list row) (num_offset : Z) : Prop :=
  Np.slice_to num_offset (map d14c data) <> [] /\
  Forall (fun r => ~ sig_d14c r == 0) data.

(** The data model of the spec: times in weakly increasing order and
    positive uncertainties. *)
Fixpoint weakly_increasing (times : list Q) : bool :=
  match times with
  | t :: ((u :: _) as rest) => Qle_bool t u && weakly_increasing rest
  | _ => true
  end.

Definition valid_series (data : list row) : bool :=
  weakly_increasing (map year data)
  && forallb (fun r => negb (Qle_bool (sig_d14c r) 0)) data.

(** The annual grid in closed form: [start], [start + 1], ... *)
Definition annual_grid (s e : Q) : list Q :=
  map (fun i => s + Np.of_nat i * 1)
      (seq 0 (Z.to_nat (Qceiling ((e + 1 - s) / 1)))).

(** The whole number of years between [t0] and [t]. *)
Definition years_after (t0 t : Q) : nat := Z.to_nat (Qfloor (t - t0)).

(** A keyword that, when given, holds a number. *)
Definition numeric_option (kwargs : gmap string pyval) (key : string) : Prop :=
  match kwargs !! key with
  | Some v => is_ok (as_number v) = true
  | None => True
  end.

(** ** A stand-in box model, used to run the fitter on concrete data *)

Module Toy.

Definition state : Type := Q.
Definition steady_state_y0 : state := 0.

(** One state per time value. *)
Definition run (time_values : list Q) (self : CarbonFitter) (params : list Q)
    (y0 : state) : list state :=
  map (fun _ => y0 + Np.sum params) time_values.

(** One value per interval of [time_out]. *)
Definition run_D_14_C_values (time_out : list Q) (time_oversample : Z)
    (self : CarbonFitter) (params : list Q) (y0 ss : state) : list Q :=
  map (fun t => y0 - ss) (Np.slice_to (-1) time_out).

Definition gp_condition (scale : Q) (X : list Q) (mean : Q) (y : list Q) : Q :=
  - Np.sum (map (fun v => (v - mean) ^ 2) y).

Definition table (rows : list (Z * Z * Z)) : list row :=
  map (fun '(y, v, s) => {| year := inject_Z y; d14c := inject_Z v;
                            sig_d14c := inject_Z s |}) rows.

Definition dc14 := dc14 state steady_state_y0 run run_D_14_C_values.
Definition loss_chi2 := loss_chi2 state steady_state_y0 run run_D_14_C_values.
Definition loss_chi2_avg :=
  loss_chi2_avg state steady_state_y0 run run_D_14_C_values.
Definition log_like := log_like state steady_state_y0 run run_D_14_C_values.
Definition log_prob := log_prob state steady_state_y0 run run_D_14_C_values.
Definition gp_neg_log_likelihood := gp_neg_log_likelihood gp_condition.
Definition gp_likelihood :=
  gp_likelihood state steady_state_y0 run run_D_14_C_values gp_condition.
Definition gp_likelihood_avg :=
  gp_likelihood_avg state steady_state_y0 run run_D_14_C_values gp_condition.

(** The observation times of the spacing example. *)
Definition spacing_rows : list row :=
  table [(100, 1, 1); (101, 3, 1); (110, 2, 1); (200, 5, 2)]%Z.

(** Every recognized option at once. *)
Definition all_options : gmap string pyval :=
  <["use_control_points"%string := PyBool true]>
    (<["custom_function"%string := PyBool true]>
       (<["f"%string := PyFun (fun t args => t)]>
          (<["production"%string := PyStr "miyake"]>
             (<["fit_solar"%string := PyBool true]>
                (<["dense_years"%string := PyNum 3]>
                   (<["gap_years"%string := PyNum 5]> ∅)))))).

(** A caller-supplied function together with the burst model. *)
Definition custom_and_miyake : gmap string pyval :=
  <["custom_function"%string := PyBool true]>
    (<["f"%string := PyFun (fun t args => t)]>
       (<["production"%string := PyStr "miyake"]> ∅)).

(** Gaussian-process interpolation over the annual grid. *)
Definition gp_options : gmap string pyval :=
  <["use_control_points"%string := PyBool true]>
    (<["interp"%string := PyStr "gp"]> ∅).

(** A measurement taken half a year after the first one. *)
Definition half_year_rows : list row :=
  [ {| year := 100; d14c := 1; sig_d14c := 1 |};
    {| year := 201 # 2; d14c := 3; sig_d14c := 1 |};
    {| year := 101; d14c := 2; sig_d14c := 1 |} ].

(** Two measurements of the same year. *)
Definition repeated_year_rows : list row :=
  table [(100, 1, 1); (100, 3, 1); (101, 2, 1)]%Z.

(** Four annual measurements. *)
Definition annual_rows : list row :=
  table [(100, 1, 1); (101, 3, 1); (102, 2, 1); (103, 5, 2)]%Z.

End Toy.

(** Keywords that select linear control points with spacing [d] and [g]. *)
Definition linear_options (kwargs : gmap string pyval) (d g : Q) : Prop :=
  kwargs !! "use_control_points"%string = Some (PyBool true) /\
  eq_str (default (PyStr "linear") (kwargs !! "interp"%string)) "linear" = true /\
  as_number (default (PyNum 3) (kwargs !! "dense_years"%string)) = Ok d /\
  as_number (default (PyNum 5) (kwargs !! "gap_years"%string)) = Ok g.

(** ** Linear interpolation of the control points *)

(** [searchsorted(xp, x, side='right')] on an increasing [xp]: the number of
    entries that are at most [x]. *)
Definition searchsorted_right (xp : list Q) (x : Q) : nat :=
  length (List.filter (fun a => Qle_bool a x) xp).

(** [clip(k, lo, hi)], that is [minimum(maximum(k, lo), hi)]. *)
Definition clip (k lo hi : nat) : nat := Nat.min (Nat.max k lo) hi.

(** [jnp.interp(x, xp, fp)] for a scalar [x] and increasing sample points
    [xp]: the segment is found by [searchsorted], the value is held at the
    first and last sample outside of them.  The chord is evaluated from the
    near end of the segment, [fp[i-1] + (delta / dx) * df]; over the
    rationals it meets the sample value at the far end too, in floating
    point only up to rounding. *)
Definition interp (x : Q) (xp fp : list Q) : result Q :=
  if negb (Nat.eqb (length xp) (length fp)) then Raise ShapeMismatch
  else match xp with
       | [] => Raise IndexOutOfRange
       | x_first :: _ =>
           let i := clip (searchsorted_right xp x) 1 (length xp - 1) in
           let df := nth i fp 0 - nth (i - 1) fp 0 in
           let dx := nth i xp 0 - nth (i - 1) xp 0 in
           let delta := x - nth (i - 1) xp 0 in
           let f := if Qeq_bool dx 0 then nth i fp 0
                    else nth (i - 1) fp 0 + (delta / dx) * df in
           let f := if negb (Qle_bool x_first x) then nth 0 fp 0 else f in
           let f := if negb (Qle_bool x (List.last xp 0))
                    then List.last fp 0 else f in
           Ok f
       end.

(** One of the positional arguments collected by [*args]: a number, as the
    box model passes the parameters, or a one-dimensional array. *)
Inductive arg : Type :=
  | Scalar (q : Q)
  | Vector (v : list Q).

(** An array of rank zero, one or two; the rows of a matrix have one common
    size. *)
Inductive ndarray : Type :=
  | Rank0 (q : Q)
  | Rank1 (v : list Q)
  | Rank2 (rows : list (list Q)).

(** The arguments if all of them are numbers. *)
Fixpoint scalars (args : list arg) : option (list Q) :=
  match args with
  | [] => Some []
  | Scalar q :: rest => cons q <$> scalars rest
  | Vector _ :: _ => None
  end.

(** The arguments if all of them are arrays of [n] entries. *)
Fixpoint vectors (n : nat) (args : list arg) : option (list (list Q)) :=
  match args with
  | [] => Some []
  | Vector v :: rest =>
      if Nat.eqb (length v) n then cons v <$> vectors n rest else None
  | Scalar _ :: _ => None
  end.

(** [jnp.array(list(args))]: numbers stack to a one-dimensional array,
    arrays of one common size to a matrix with one row per argument; a
    mixture of shapes is refused. *)
Definition array (args : list arg) : result ndarray :=
  match args with
  | Vector v :: _ =>
      match vectors (length v) args with
      | Some rows => Ok (Rank2 rows)
      | None => Raise ShapeMismatch
      end
  | _ =>
      match scalars args with
      | Some values => Ok (Rank1 values)
      | None => Raise ShapeMismatch
      end
  end.

(** [jnp.squeeze]: every axis of size one is dropped.  ([array] builds no
    matrix without rows.) *)
Definition squeeze (a : ndarray) : ndarray :=
  match a with
  | Rank0 q => Rank0 q
  | Rank1 [q] => Rank0 q
  | Rank1 v => Rank1 v
  | Rank2 [] => Rank2 []
  | Rank2 [[q]] => Rank0 q
  | Rank2 [v] => Rank1 v
  | Rank2 rows =>
      if forallb (fun r => Nat.eqb (length r) 1) rows
      then Rank1 (concat rows) else Rank2 rows
  end.

(** [jnp.interp] takes one-dimensional sample values only. *)
Definition one_dimensional (a : ndarray) : result (list Q) :=
  match a with
  | Rank1 v => Ok v
  | _ => Raise ShapeMismatch
  end.

(** [interp_linear(tval, *args)] at a scalar time. *)
Definition interp_linear_at (self : CarbonFitter) (tval : Q) (args : list arg)
    : result Q :=
  stacked ← array args;
  let control_points := squeeze stacked in
  xp ← attribute (control_points_time self);
  fp ← one_dimensional control_points;
  interp tval xp fp.

(** The calls that hand over the control values [fp]: every value as an
    argument of its own, a number or an array of that one number, or all
    values in a single array. *)
Definition control_values (args : list arg) (fp : list Q) : Prop :=
  args = map Scalar fp \/
  args = [Vector fp] \/
  args = map (fun q => Vector [q]) fp.

(** ** Walker initialisation of [sampling] *)

(** An array operation applied to every row of a matrix. *)
Fixpoint each_row {A B} (f : A -> result B) (m : list A) : result (list B) :=
  match m with
  | [] => Ok []
  | r :: m' => r' ← f r; rest ← each_row f m'; Ok (r' :: rest)
  end.

(** [initial + 1e-5 * np.random.rand(nwalkers, ndim)], the random matrix
    being given row by row. *)
Definition initial_walkers (initial : list Q) (rand : list (list Q))
    : result (list (list Q)) :=
  let jitter := map (map (Qmult (1 # 100000))) rand in
  each_row (fun row => Np.broadcast2 Qplus initial row) jitter.

(** The shape [sampling] asks of the random matrix: [5 * ndim] walkers of
    [ndim] numbers in the half-open unit interval. *)
Definition rand_shape (initial : list Q) (rand : list (list Q)) : Prop :=
  length rand = (5 * length initial)%nat /\
  Forall (fun row => length row = length initial /\
                     Forall (fun r => 0 <= r /\ r < 1) row) rand.

(** ** Point estimation of the control points *)

(** What [fit_cp] hands to [scipy.optimize.minimize]; the tolerance and
    the iteration limits, which are constants, are left out. *)
Record minimize_call : Type := {
  objective : list Q -> result Q;
  x0 : list Q;
  bounds : list (Q * option Q);
  method : option string
}.

Section Optimisation.

Variable state : Type.
Variable steady_state_y0 : state.
Variable cbm_run : list Q -> CarbonFitter -> list Q -> state -> list state.
Variable cbm_run_D_14_C_values :
  list Q -> Z -> CarbonFitter -> list Q -> state -> state -> list Q.
Variable gp_condition : Q -> list Q -> Q -> list Q -> Q.
(** [self.steady_state_production]. *)
Variable steady_state_production : Q.
(** [scipy.optimize.minimize] and its result record. *)
Variable soln : Type.
Variable minimize : minimize_call -> soln.

Definition fit_cp (self : CarbonFitter) (low_bound : Q) (gp avg : bool) (k : Q)
    : result soln :=
  cpt ← attribute (control_points_time self);
  let steady_state :=
    if gp then map (Qmult steady_state_production) (repeat 1 (length cpt + 1))
    else map (Qmult steady_state_production) (repeat 1 (length cpt)) in
  let params := steady_state in
  let bounds := repeat (low_bound, @None Q) (length steady_state) in
  if gp then
    if avg then
      Ok (minimize {| objective := fun p =>
                        gp_likelihood_avg state steady_state_y0 cbm_run
                          cbm_run_D_14_C_values gp_condition self p k;
                      x0 := params; bounds := bounds; method := None |})
    else
      Ok (minimize {| objective :=
                        gp_likelihood state steady_state_y0 cbm_run
                          cbm_run_D_14_C_values gp_condition self;
                      x0 := params; bounds := bounds; method := None |})
  else
    if avg then
      Ok (minimize {| objective := fun p =>
                        loss_chi2_avg state steady_state_y0 cbm_run
                          cbm_run_D_14_C_values self p k;
                      x0 := params; bounds := bounds;
                      method := Some "L-BFGS-B"%string |})
    else
      Ok (minimize {| objective :=
                        loss_chi2 state steady_state_y0 cbm_run
                          cbm_run_D_14_C_values self;
                      x0 := params; bounds := bounds;
                      method := Some "L-BFGS-B"%string |}).

End Optimisation.

(** ** Construction *)

Section Construction.

(** A carbon box model object, and the [ticktack] calls made on it. *)
Variable model : Type.
Variable state : Type.
(** [ticktack.load_presaved_model(name, production_rate_units)]; [None]
    when it raises. *)
Variable load_presaved_model : string -> string -> option model.
(** [cbm.equilibrate(target_C_14=...)] and
    [cbm.equilibrate(production_rate=...)]. *)
Variable equilibrate_target : model -> Q -> Q.
Variable equilibrate_production : model -> Q -> state.

(** The argument [cbm]: a model name or a model object. *)
Inductive cbm_arg : Type :=
  | CbmName (name : string)
  | CbmModel (m : model).

(** What the constructor stores. *)
Record fitter_core : Type := {
  cbm : model;
  core_steady_state_production : Q;
  core_steady_state_y0 : state
}.

(** The only exception of the constructor:
    [ValueError('Must be a valid CBM model')]. *)
Inductive init_error : Type := InvalidCBM.

Definition presaved_models : list string :=
  ["Guttler14"; "Brehm21"; "Miyake17"; "Buntgen18"]%string.

(** [__init__].  The name [load_model] is bound nowhere in the module, so
    the branch that calls it raises [NameError], which the bare [except]
    turns into the [ValueError]. *)
Definition init (arg : cbm_arg) (production_rate_units : string)
    (target_C_14 : Q) : init_error + fitter_core :=
  let loaded : init_error + model :=
    match arg with
    | CbmName name =>
        if existsb (String.eqb name) presaved_models then
          match load_presaved_model name production_rate_units with
          | Some m => inr m
          | None => inl InvalidCBM
          end
        else inl InvalidCBM
    | CbmModel m => inr m
    end in
  match loaded with
  | inl e => inl e
  | inr m =>
      let steady_state_production := equilibrate_target m target_C_14 in
      inr {| cbm := m;
             core_steady_state_production := steady_state_production;
             core_steady_state_y0 :=
               equilibrate_production m steady_state_production |}
  end.

End Construction.

(** ** The burst production functions *)

(** [exp] and [sin] leave the rationals, so these three functions are
    written over the real numbers. *)
Module Production.
Import Reals.
Local Open Scope R_scope.

Definition super_gaussian (t start_time duration area : R) : R :=
  let middle := start_time + duration / 2 in
  let height := area / duration in
  height * exp (- ((t - middle) / (1 / (193516 / 100000) * duration)) ^ 16).

Definition miyake_event_fixed_solar (steady_state_production : R)
    (t start_time duration phase area : R) : R :=
  let height := super_gaussian t start_time duration area in
  let prod := steady_state_production
              + (18 / 100) * steady_state_production
                * sin (2 * PI / 11 * t + phase)
              + height in
  prod.

Definition miyake_event_flexible_solar (steady_state_production : R)
    (t start_time duration phase area omega amplitude : R) : R :=
  let height := super_gaussian t start_time duration area in
  let prod := steady_state_production
              + amplitude * steady_state_production * sin (omega * t + phase)
              + height in
  prod.

End Production.

(** What the code expects of the box model: one state per time value and
    one observable per interval of the output grid. *)
Definition box_model_contract (state : Type)
    (cbm_run : list Q -> CarbonFitter -> list Q -> state -> list state)
    (cbm_run_D_14_C_values :
       list Q -> Z -> CarbonFitter -> list Q -> state -> state -> list Q)
    : Prop :=
  (forall times f args y0, length (cbm_run times f args y0) = length times) /\
  (forall times k f args y0 ss,
     length (cbm_run_D_14_C_values times k f args y0 ss)
     = (length times - 1)%nat).

(** ** Loaded fitters used in the examples *)

Module Demo.

(** The attributes of an object on which [load_data] never ran. *)
Definition unloaded : CarbonFitter :=
  {| time_data := []; d14c_data := []; d14c_data_error := [];
     start := 0; end_ := 0; resolution := 0; burn_in_time := [];
     time_grid_fine := []; time_oversample := 0; offset := 0;
     annual := []; mask := []; production := None;
     control_points_time := None |}.

Definition get (r : result CarbonFitter) : CarbonFitter :=
  match r with Ok self => self | Raise _ => unloaded end.

(** The four annual measurements, loaded. *)
Definition annual_fitter : CarbonFitter :=
  Eval vm_compute in get (load_data Toy.annual_rows 10 (1 # 2) 5 2).

(** The same, configured for linear control points. *)
Definition linear_fitter : CarbonFitter :=
  Eval vm_compute in
    get (prepare_function annual_fitter
           (<["use_control_points"%string := PyBool true]> ∅)).

(** The same, configured for Gaussian-process control points. *)
Definition gp_fitter : CarbonFitter :=
  Eval vm_compute in get (prepare_function annual_fitter Toy.gp_options).

(** The same, with the default burst model. *)
Definition burst_fitter : CarbonFitter :=
  Eval vm_compute in get (prepare_function annual_fitter ∅).

(** Three measurements of the same value. *)
Definition flat_rows : list row :=
  Toy.table [(100, 5, 1); (101, 5, 1); (102, 5, 2)]%Z.

Definition flat_fitter : CarbonFitter :=
  Eval vm_compute in
    get (self ← load_data flat_rows 10 (1 # 2) 5 2; prepare_function self ∅).

(** The half-year series, with the default burst model. *)
Definition half_year_fitter : CarbonFitter :=
  Eval vm_compute in
    get (self ← load_data Toy.half_year_rows 10 (1 # 2) 5 2;
         prepare_function self ∅).

(** Two measurements of the same year, loaded, and with the default burst
    model. *)
Definition repeated_fitter : CarbonFitter :=
  Eval vm_compute in get (load_data Toy.repeated_year_rows 10 (1 # 2) 5 2).

Definition repeated_burst_fitter : CarbonFitter :=
  Eval vm_compute in get (prepare_function repeated_fitter ∅).

(** Five measurements of which two fall between whole years. *)
Definition gappy_rows : list row :=
  [ {| year := 100; d14c := 1; sig_d14c := 1 |};
    {| year := 101; d14c := 3; sig_d14c := 1 |};
    {| year := 203 # 2; d14c := 2; sig_d14c := 1 |};
    {| year := 205 # 2; d14c := 4; sig_d14c := 1 |};
    {| year := 103; d14c := 2; sig_d14c := 1 |} ].

Definition gappy_fitter : CarbonFitter :=
  Eval vm_compute in
    get (self ← load_data gappy_rows 10 (1 # 2) 5 2; prepare_function self ∅).

(** The optimiser replaced by the record of its arguments. *)
Definition fit_cp :=
  fit_cp Toy.state Toy.steady_state_y0 Toy.run Toy.run_D_14_C_values
         Toy.gp_condition (707 # 100) minimize_call (fun call => call).

End Demo.

(** ** Basic facts about the array primitives *)

Lemma slice_to_m1_length {A} (l : list A) :
  length (Np.slice_to (-1) l) = (length l - 1)%nat.
Proof.
  unfold Np.slice_to; simpl. rewrite length_firstn. lia.
Qed.

Lemma zip_with_nth (f : Q -> Q -> Q) (x y : list Q) (i : nat) :
  (i < length x)%nat -> length x = length y ->
  nth i (Np.zip_with f x y) 0 = f (nth i x 0) (nth i y 0).
Proof.
  revert y i. induction x as [|a x IH]; intros [|b y] i Hi Hlen; simpl in *;
    try lia.
  destruct i as [|i]; [reflexivity|]. apply IH; lia.
Qed.

Lemma zip_with_length {A B C} (f : A -> B -> C) (x : list A) (y : list B) :
  length x = length y -> length (Np.zip_with f x y) = length x.
Proof.
  revert y. induction x as [|a x IH]; intros [|b y] Hlen; simpl in *;
    try lia.
  rewrite IH; lia.
Qed.

Lemma broadcast2_same_length f x y :
  length x = length y -> Np.broadcast2 f x y = Ok (Np.zip_with f x y).
Proof.
  intros Hlen. unfold Np.broadcast2. rewrite Hlen, Nat.eqb_refl. reflexivity.
Qed.

Lemma slice_to_m1_nth (l : list Q) (i : nat) :
  (i < length l - 1)%nat -> nth i (Np.slice_to (-1) l) 0 = nth i l 0.
Proof.
  intros Hi. unfold Np.slice_to; simpl.
  change (Z.to_nat (- (-1))) with 1%nat.
  rewrite nth_firstn. apply Nat.ltb_lt in Hi. rewrite Hi. reflexivity.
Qed.

Lemma map_nth_seq (f : Q -> Q) (l : list Q) :
  map f l = map (fun i => f (nth i l 0)) (seq 0 (length l)).
Proof.
  induction l as [|a l IH]; [reflexivity|].
  simpl. f_equal. rewrite IH at 1. rewrite <- seq_shift, map_map. reflexivity.
Qed.

(** ** Facts about [load_data] and [prepare_function] *)

Lemma arange_unit_step s e : Np.arange s (e + 1) 1 = Ok (annual_grid s e).
Proof. reflexivity. Qed.

Lemma load_data_inv data res fg os no self :
  load_data data res fg os no = Ok self ->
  exists s e b tf,
    Np.nanmin (map year data) = Ok s /\
    Np.nanmax (map year data) = Ok e /\
    Np.linspace (s - 1000) s res = Ok b /\
    Np.arange s e fg = Ok tf /\
    self = {| time_data := map year data; d14c_data := map d14c data;
              d14c_data_error := map sig_d14c data;
              start := s; end_ := e; resolution := res;
              burn_in_time := b; time_grid_fine := tf;
              time_oversample := os;
              offset := Np.mean (Np.slice_to no (map d14c data));
              annual := annual_grid s e;
              mask := Np.slice_to (-1) (Np.in1d (annual_grid s e) (map year data));
              production := None; control_points_time := None |}.
Proof.
  unfold load_data. intros H.
  destruct (Np.nanmin _) as [s|]; [|discriminate].
  destruct (Np.nanmax _) as [e|]; [|discriminate].
  cbn [mbind result_bind] in H.
  destruct (Np.linspace _ _ _) as [b|] eqn:Hb; [|discriminate].
  destruct (Np.arange s e fg) as [tf|] eqn:Htf; [|discriminate].
  rewrite arange_unit_step in H. cbn [mbind result_bind] in H.
  injection H as <-. exists s, e, b, tf. repeat split; assumption.
Qed.

Lemma load_data_columns data res fg os no self :
  load_data data res fg os no = Ok self ->
  time_data self = map year data /\
  d14c_data self = map d14c data /\
  d14c_data_error self = map sig_d14c data.
Proof.
  intros H. apply load_data_inv in H as (s & e & b & tf & _ & _ & _ & _ & ->).
  auto.
Qed.

Lemma prepare_function_inv self kwargs self' :
  prepare_function self kwargs = Ok self' ->
  exists p cpt, self' = with_production self (Some p) cpt.
Proof.
  unfold prepare_function. intros H.
  match type of H with mbind _ ?m = _ => destruct m as [[p cpt]|e] end;
    cbn [mbind result_bind fst snd] in H; [|discriminate].
  injection H as <-. destruct p as [p|]; eauto.
Qed.

Lemma loaded_columns_length data res fg os no kwargs self0 self :
  load_data data res fg os no = Ok self0 ->
  prepare_function self0 kwargs = Ok self ->
  length (d14c_data self) = length (time_data self) /\
  length (d14c_data_error self) = length (time_data self).
Proof.
  intros Hl Hp. apply load_data_columns in Hl as (Ht & Hd & He).
  apply prepare_function_inv in Hp as (p & cpt & ->). simpl.
  rewrite Ht, Hd, He. rewrite !length_map. auto.
Qed.

(** ** The prior *)

Lemma fold_xadd_NegInf (l : list xnum) : fold_left xadd l NegInf = NegInf.
Proof. induction l as [|a l IH]; [reflexivity|]. simpl. exact IH. Qed.

Lemma xadd_NegInf_r (a : xnum) : xadd a NegInf = NegInf.
Proof. destruct a; reflexivity. Qed.

Lemma fold_prior_nonpositive (params : list Q) (acc : xnum) :
  Exists (fun p => p <= 0) params ->
  fold_left xadd
    (map (fun p => if Qle_bool p 0 then NegInf else Fin 0) params) acc = NegInf.
Proof.
  intros Hex. revert acc.
  induction Hex as [p l Hp | p l _ IH]; intros acc; simpl.
  - apply Qle_bool_iff in Hp. rewrite Hp, xadd_NegInf_r.
    apply fold_xadd_NegInf.
  - apply IH.
Qed.

Lemma fold_prior_positive (params : list Q) :
  Forall (fun p => 0 < p) params ->
  fold_left xadd
    (map (fun p => if Qle_bool p 0 then NegInf else Fin 0) params) (Fin 0) = Fin 0.
Proof.
  induction 1 as [|p l Hp _ IH]; [reflexivity|]. simpl.
  destruct (Qle_bool p 0) eqn:E.
  - apply Qle_bool_iff in E. exfalso. exact (Qlt_not_le _ _ Hp E).
  - exact IH.
Qed.

(** C4: [log_prior] is exactly 0 when every parameter is strictly positive
    and minus infinity when some parameter is at most 0, for a parameter
    vector of any length. *)
Theorem log_prior_spec (params : list Q) :
  (Forall (fun p => 0 < p) params -> log_prior params = Fin 0) /\
  (Exists (fun p => p <= 0) params -> log_prior params = NegInf).
Proof.
  split; intros H.
  - apply fold_prior_positive, H.
  - apply fold_prior_nonpositive, H.
Qed.

Lemma log_prior_spec_witness :
  log_prior [3; 1 # 2; 707] = Fin 0 /\ log_prior [3; 0; 707] = NegInf /\
  log_prior [-2 # 3] = NegInf.
Proof.
  split; [|split].
  - apply (proj1 (log_prior_spec [3; 1 # 2; 707])).
    repeat constructor.
  - apply (proj2 (log_prior_spec [3; 0; 707])).
    apply Exists_cons_tl, Exists_cons_hd. discriminate.
  - apply (proj2 (log_prior_spec [-2 # 3])).
    apply Exists_cons_hd. discriminate.
Defined.

(** ** Likelihoods *)

Section Likelihood.

Context (state : Type) (steady_state_y0 : state)
        (cbm_run : list Q -> CarbonFitter -> list Q -> state -> list state)
        (cbm_run_D_14_C_values :
           list Q -> Z -> CarbonFitter -> list Q -> state -> state -> list Q)
        (gp_condition : Q -> list Q -> Q -> list Q -> Q).

Local Abbreviation dc14 := (dc14 state steady_state_y0 cbm_run cbm_run_D_14_C_values).
Local Abbreviation loss_chi2 :=
  (loss_chi2 state steady_state_y0 cbm_run cbm_run_D_14_C_values).
Local Abbreviation loss_chi2_avg :=
  (loss_chi2_avg state steady_state_y0 cbm_run cbm_run_D_14_C_values).
Local Abbreviation log_like :=
  (log_like state steady_state_y0 cbm_run cbm_run_D_14_C_values).
Local Abbreviation log_prob :=
  (log_prob state steady_state_y0 cbm_run cbm_run_D_14_C_values).
Local Abbreviation gp_neg_log_likelihood := (gp_neg_log_likelihood gp_condition).
Local Abbreviation gp_likelihood :=
  (gp_likelihood state steady_state_y0 cbm_run cbm_run_D_14_C_values gp_condition).
Local Abbreviation gp_likelihood_avg :=
  (gp_likelihood_avg state steady_state_y0 cbm_run cbm_run_D_14_C_values
                     gp_condition).

(** The residual array of an aligned simulation, entry by entry. *)
Lemma chi2_aligned (self : CarbonFitter) (sim : list Q) :
  length (d14c_data_error self) = length (d14c_data self) ->
  length sim = (length (d14c_data self) - 1)%nat ->
  exists x y,
    Np.sub (Np.slice_to (-1) (d14c_data self)) sim = Ok x /\
    Np.div x (Np.slice_to (-1) (d14c_data_error self)) = Ok y /\
    Np.sum (map (fun v => v ^ 2) y)
    = chi2_sum (d14c_data self) (d14c_data_error self) sim.
Proof.
  intros Herr Hsim.
  set (obs := Np.slice_to (-1) (d14c_data self)).
  set (unc := Np.slice_to (-1) (d14c_data_error self)).
  assert (Hobs : length obs = length sim)
    by (unfold obs; rewrite slice_to_m1_length; lia).
  assert (Hunc : length unc = length sim)
    by (unfold unc; rewrite slice_to_m1_length; lia).
  exists (Np.zip_with Qminus obs sim),
         (Np.zip_with Qdiv (Np.zip_with Qminus obs sim) unc).
  assert (Hx : length (Np.zip_with Qminus obs sim) = length sim)
    by (rewrite zip_with_length; lia).
  split; [apply broadcast2_same_length; exact Hobs|].
  split; [apply broadcast2_same_length; lia|].
  unfold chi2_sum. f_equal.
  rewrite (map_nth_seq (fun v => v ^ 2)).
  rewrite zip_with_length by lia. rewrite Hx, <- Hsim.
  apply map_ext_in. intros i Hi. apply in_seq in Hi.
  rewrite zip_with_nth by lia. rewrite zip_with_nth by lia.
  unfold obs, unc. rewrite !slice_to_m1_nth by lia. reflexivity.
Qed.

Lemma half_neg (c : Q) : - (1 # 2) * c = - ((1 # 2) * c).
Proof. destruct c as [n d]. unfold Qmult, Qopp; simpl. destruct n; reflexivity. Qed.

(** C5: [loss_chi2] is one half of the sum, over all observation points but
    the last, of ((observed - simulated) / uncertainty) squared; observed
    values and uncertainties lose their last entry. *)
Theorem loss_chi2_spec data res fg os no kwargs self0 self params sim :
  load_data data res fg os no = Ok self0 ->
  prepare_function self0 kwargs = Ok self ->
  dc14 self params = Ok sim ->
  length sim = (length (d14c_data self) - 1)%nat ->
  loss_chi2 self params
  = Ok ((1 # 2) * chi2_sum (d14c_data self) (d14c_data_error self) sim).
Proof.
  intros Hl Hp Hsim Hlen.
  destruct (loaded_columns_length _ _ _ _ _ _ _ _ Hl Hp) as [Hd He].
  destruct (chi2_aligned self sim) as (x & y & Hx & Hy & Hsum);
    [congruence | exact Hlen |].
  unfold loss_chi2. rewrite Hsim. cbn [mbind result_bind].
  rewrite Hx. cbn [mbind result_bind]. rewrite Hy. cbn [mbind result_bind].
  rewrite Hsum. reflexivity.
Qed.

(** C6, as the code has it: [loss_chi2_avg(params, k)] is
    [loss_chi2(params)] divided by [k * m], with [m] the number of entries
    of the simulated curve [dc14(params)], and it raises when [loss_chi2]
    does.  [m] is the number of observation points minus one only for a
    curve of that length. *)
Theorem loss_chi2_avg_spec (self : CarbonFitter) (params sim : list Q) (k : Q) :
  dc14 self params = Ok sim ->
  sim <> [] ->
  0 < k ->
  loss_chi2_avg self params k
  = (fun loss => loss / (k * Np.of_nat (length sim))) <$> loss_chi2 self params
  /\
  (length sim = (length (time_data self) - 1)%nat ->
   loss_chi2_avg self params k
   = (fun loss => loss / (k * Np.of_nat (length (time_data self) - 1)))
       <$> loss_chi2 self params).
Proof.
  intros Hsim _ _.
  assert (Havg : loss_chi2_avg self params k
                 = (fun loss => loss / (k * Np.of_nat (length sim)))
                     <$> loss_chi2 self params).
  { unfold loss_chi2, loss_chi2_avg.
    rewrite Hsim. cbn [mbind result_bind].
    destruct (Np.sub _ sim) as [x|e]; [|reflexivity]. cbn [mbind result_bind].
    destruct (Np.div x _) as [y|e]; reflexivity. }
  split; [exact Havg|].
  intros Hlen. rewrite Havg, Hlen. reflexivity.
Qed.

(** C7: [log_like] is the negation of [loss_chi2], and [log_prob] is
    [log_prior] plus [log_like]. *)
Theorem log_like_log_prob_spec (self : CarbonFitter) (params : list Q) :
  log_like self params = Qopp <$> loss_chi2 self params /\
  log_prob self params
  = (fun like => xadd (log_prior params) (Fin like)) <$> log_like self params.
Proof.
  split.
  - unfold log_like, loss_chi2.
    destruct (dc14 self params) as [d|e]; [|reflexivity].
    cbn [mbind result_bind].
    destruct (Np.sub _ d) as [x|e]; [|reflexivity]. cbn [mbind result_bind].
    destruct (Np.div x _) as [y|e]; [|reflexivity]. cbn [mbind result_bind].
    cbn [fmap result_fmap]. rewrite half_neg. reflexivity.
  - unfold log_prob.
    destruct (log_like self params); reflexivity.
Qed.

(** C9: [gp_likelihood] is [loss_chi2] plus the GP negative log marginal
    likelihood, and [gp_likelihood_avg] is that sum divided by [k]. *)
Theorem gp_likelihood_spec (self : CarbonFitter) (params : list Q)
    (chi2 nll : Q) :
  loss_chi2 self params = Ok chi2 ->
  gp_neg_log_likelihood self params = Ok nll ->
  gp_likelihood self params = Ok (chi2 + nll) /\
  forall k, 0 < k -> gp_likelihood_avg self params k = Ok ((chi2 + nll) / k).
Proof.
  intros Hc Hn. split; [|intros k _].
  - unfold gp_likelihood. rewrite Hc. cbn [mbind result_bind].
    rewrite Hn. reflexivity.
  - unfold gp_likelihood_avg. rewrite Hc. cbn [mbind result_bind].
    rewrite Hn. reflexivity.
Qed.

End Likelihood.

Lemma loss_chi2_spec_witness :
  exists self0 self sim,
    load_data Toy.annual_rows 10 (1 # 2) 5 2 = Ok self0 /\
    prepare_function self0 ∅ = Ok self /\
    Toy.dc14 self [1; 2] = Ok sim /\
    length sim = (length (d14c_data self) - 1)%nat /\
    Toy.loss_chi2 self [1; 2]
    = Ok ((1 # 2) * chi2_sum (d14c_data self) (d14c_data_error self) sim).
Proof.
  eexists _, _, _.
  split; [vm_compute; reflexivity|].
  split; [vm_compute; reflexivity|].
  split; [vm_compute; reflexivity|].
  split; [vm_compute; reflexivity|].
  eapply (loss_chi2_spec Toy.state Toy.steady_state_y0 Toy.run
            Toy.run_D_14_C_values Toy.annual_rows 10 (1 # 2) 5 2 ∅).
  all: vm_compute; reflexivity.
Defined.


Lemma loss_chi2_avg_spec_witness :
  exists self0 self sim,
    load_data Toy.annual_rows 10 (1 # 2) 5 2 = Ok self0 /\
    prepare_function self0 ∅ = Ok self /\
    Toy.dc14 self [1; 2] = Ok sim /\
    Toy.loss_chi2_avg self [1; 2] 2
    = (fun loss => loss / (2 * Np.of_nat (length sim)))
        <$> Toy.loss_chi2 self [1; 2].
Proof.
  eexists _, _, _.
  split; [vm_compute; reflexivity|].
  split; [vm_compute; reflexivity|].
  split; [vm_compute; reflexivity|].
  apply (loss_chi2_avg_spec Toy.state Toy.steady_state_y0 Toy.run
           Toy.run_D_14_C_values).
  - vm_compute. reflexivity.
  - discriminate.
  - reflexivity.
Defined.

(** Two measurements of one year: the curve has one entry, so the divisor is
    [k] and not [k] times the number of observations minus one. *)
Lemma loss_chi2_avg_spec_counterexample :
  valid_series Toy.repeated_year_rows = true /\
  exists self0 self loss avg,
    load_data Toy.repeated_year_rows 1000 (1 # 20) 1000 4 = Ok self0 /\
    prepare_function self0 ∅ = Ok self /\
    Toy.loss_chi2 self [1; 2] = Ok loss /\
    Toy.loss_chi2_avg self [1; 2] 2 = Ok avg /\
    loss == 10 /\ avg == 5 /\
    ~ avg == loss / (2 * Np.of_nat (length (time_data self) - 1)).
Proof.
  split; [vm_compute; reflexivity|].
  eexists _, _, _, _.
  split; [vm_compute; reflexivity|].
  split; [vm_compute; reflexivity|].
  split; [vm_compute; reflexivity|].
  split; [vm_compute; reflexivity|].
  split; [vm_compute; reflexivity|].
  split; [vm_compute; reflexivity|].
  vm_compute. discriminate.
Qed.

Lemma gp_likelihood_spec_witness :
  exists self0 self chi2 nll,
    load_data Toy.annual_rows 10 (1 # 2) 5 2 = Ok self0 /\
    prepare_function self0 Toy.gp_options = Ok self /\
    Toy.loss_chi2 self [1; 2; 3; 4; 2] = Ok chi2 /\
    Toy.gp_neg_log_likelihood self [1; 2; 3; 4; 2] = Ok nll /\
    Toy.gp_likelihood self [1; 2; 3; 4; 2] = Ok (chi2 + nll) /\
    Toy.gp_likelihood_avg self [1; 2; 3; 4; 2] 3 = Ok ((chi2 + nll) / 3).
Proof.
  eexists _, _, _, _.
  split; [vm_compute; reflexivity|].
  split; [vm_compute; reflexivity|].
  split; [vm_compute; reflexivity|].
  split; [vm_compute; reflexivity|].
  match goal with
  | |- Toy.gp_likelihood ?s ?ps = Ok (?c + ?n) /\ _ =>
      destruct (gp_likelihood_spec Toy.state Toy.steady_state_y0 Toy.run
                  Toy.run_D_14_C_values Toy.gp_condition s ps c n)
        as [Hsum Havg]
  end; [vm_compute; reflexivity | vm_compute; reflexivity |].
  split; [exact Hsum|]. apply Havg. reflexivity.
Defined.

(** ** Control-point spacing *)

Lemma last_default {A} (l : list A) (d d' : A) :
  l <> [] -> List.last l d = List.last l d'.
Proof.
  induction l as [|x r IH]; [congruence|]. intros _.
  destruct r as [|y r]; [reflexivity|].
  change (List.last (y :: r) d = List.last (y :: r) d').
  apply IH. discriminate.
Qed.

Lemma last_item_nonempty {A} (l : list A) (d : A) :
  l <> [] -> Np.last_item l = Ok (List.last l d).
Proof.
  destruct l as [|x r]; [congruence|]. intros _. simpl. f_equal.
  destruct r as [|y r]; [reflexivity|]. apply last_default. discriminate.
Qed.

Lemma Qle_bool_shift (a b c : Q) : Qle_bool (a + b) c = Qle_bool b (c - a).
Proof.
  destruct (Qle_bool (a + b) c) eqn:E1, (Qle_bool b (c - a)) eqn:E2;
    try reflexivity; exfalso.
  - apply Qle_bool_iff in E1.
    assert (H : b <= c - a) by lra.
    apply Qle_bool_iff in H. congruence.
  - apply Qle_bool_iff in E2.
    assert (H : a + b <= c) by lra.
    apply Qle_bool_iff in H. congruence.
Qed.

(** One pass of the loop body, by cases on the gap. *)
Lemma control_points_body_step (time_data : list Q)
    (dense_years gap_years : pyval) (d g : Q) (cpt : list Q) (i : nat) :
  as_number dense_years = Ok d -> as_number gap_years = Ok g -> cpt <> [] ->
  let t := nth i time_data 0 in
  let gap := t - List.last cpt 0 in
  control_points_body time_data dense_years gap_years cpt i
  = Ok (if negb (Qle_bool gap 0) && Qle_bool gap 2 then cpt ++ [t + d]
        else if Qle_bool g gap then cpt ++ [t] else cpt).
Proof.
  intros Hd Hg Hne t gap. unfold control_points_body.
  rewrite (last_item_nonempty cpt 0 Hne). cbn [mbind result_bind].
  fold t. fold gap. rewrite (andb_comm (negb _)).
  destruct (Qle_bool gap 2 && negb (Qle_bool gap 0)).
  - rewrite Hd. reflexivity.
  - rewrite Hg. cbn [mbind result_bind]. rewrite Qle_bool_shift. fold gap.
    destruct (Qle_bool g gap); reflexivity.
Qed.

Lemma control_points_walk (time_data : list Q) (dense_years gap_years : pyval)
    (d g : Q) (idx : list nat) :
  as_number dense_years = Ok d -> as_number gap_years = Ok g ->
  forall cpt, cpt <> [] ->
  for_each (control_points_body time_data dense_years gap_years) cpt idx
  = Ok (cpt ++ spaced d g (List.last cpt 0)
                  (map (fun i => nth i time_data 0) idx)).
Proof.
  intros Hd Hg. induction idx as [|i idx IH]; intros cpt Hne;
    cbn [for_each map spaced].
  - rewrite app_nil_r. reflexivity.
  - rewrite (control_points_body_step _ _ _ d g cpt i Hd Hg Hne).
    cbn [mbind result_bind].
    destruct (negb _ && _).
    + rewrite IH by (destruct cpt; discriminate).
      rewrite last_last, <- app_assoc. reflexivity.
    + destruct (Qle_bool g _).
      * rewrite IH by (destruct cpt; discriminate).
        rewrite last_last, <- app_assoc. reflexivity.
      * apply IH, Hne.
Qed.

Lemma nth_seq_slice (l : list Q) :
  map (fun i => nth i l 0) (seq 0 (length (Np.slice_to (-1) l)))
  = Np.slice_to (-1) l.
Proof.
  rewrite <- (map_id (Np.slice_to (-1) l)) at 2.
  rewrite (map_nth_seq (fun v => v)).
  apply map_ext_in. intros i Hi. apply in_seq in Hi.
  rewrite slice_to_m1_length in Hi.
  symmetry. apply slice_to_m1_nth. lia.
Qed.

Lemma linear_control_points_rule (self : CarbonFitter)
    (dense_years gap_years : pyval) (d g : Q) :
  as_number dense_years = Ok d -> as_number gap_years = Ok g ->
  linear_control_points self dense_years gap_years
  = Ok (control_points_rule d g (start self) (end_ self)
          (Np.slice_to (-1) (time_data self))).
Proof.
  intros Hd Hg. unfold linear_control_points.
  rewrite (control_points_walk _ _ _ d g _ Hd Hg) by discriminate.
  rewrite nth_seq_slice. reflexivity.
Qed.



(** ** Which production function is selected *)

Lemma numeric_option_default kwargs key (q : Q) :
  numeric_option kwargs key ->
  exists d, as_number (default (PyNum q) (kwargs !! key)) = Ok d.
Proof.
  unfold numeric_option. destruct (kwargs !! key) as [v|]; simpl.
  - destruct (as_number v) as [d|]; [eauto | discriminate].
  - eauto.
Qed.

Lemma is_True_default (o : option pyval) :
  is_True (default (PyBool false) o) = true <-> o = Some (PyBool true).
Proof.
  split.
  - destruct o as [[| [|] | | |]|]; simpl; intros H; congruence.
  - intros ->. reflexivity.
Qed.

Lemma is_not_None_true (f : pyval) : f <> PyNone -> is_not_None f = true.
Proof. destruct f; simpl; congruence. Qed.

Lemma eq_str_true (v : pyval) (s : string) : eq_str v s = true -> v = PyStr s.
Proof.
  destruct v; cbn [eq_str]; try discriminate.
  intros H. apply String.eqb_eq in H. congruence.
Qed.

Lemma as_number_raises (v : pyval) (e : exn) :
  as_number v = Raise e -> e = BadOperand.
Proof. destruct v as [| [|] | | |]; cbn [as_number]; congruence. Qed.

(** The walk keeps the list of control points non-empty, so reading its last
    entry never fails: only an operand that is not a number can. *)
Lemma control_points_body_cases (time_data : list Q) (dense_years gap_years : pyval)
    (cpt : list Q) (i : nat) :
  cpt <> [] ->
  match control_points_body time_data dense_years gap_years cpt i with
  | Ok cpt' => cpt' <> []
  | Raise e => e = BadOperand
  end.
Proof.
  intros Hne. unfold control_points_body.
  destruct cpt as [|c cpt]; [congruence|].
  cbn [Np.last_item mbind result_bind].
  destruct (_ && _).
  - destruct (as_number dense_years) as [d|e] eqn:E; cbn [mbind result_bind].
    + intros H. apply app_eq_nil in H as [H _]. discriminate.
    + exact (as_number_raises _ _ E).
  - destruct (as_number gap_years) as [g|e] eqn:E; cbn [mbind result_bind].
    + destruct (Qle_bool _ _); [|discriminate].
      intros H. apply app_eq_nil in H as [H _]. discriminate.
    + exact (as_number_raises _ _ E).
Qed.

Lemma linear_control_points_raises (self : CarbonFitter)
    (dense_years gap_years : pyval) (e : exn) :
  linear_control_points self dense_years gap_years = Raise e -> e = BadOperand.
Proof.
  unfold linear_control_points.
  set (body := control_points_body (time_data self) dense_years gap_years).
  assert (Hwalk : forall l cpt, cpt <> [] ->
            forall e, for_each body cpt l = Raise e -> e = BadOperand).
  { induction l as [|i l IH]; intros cpt Hne e' H; cbn [for_each] in H;
      [discriminate|].
    pose proof (control_points_body_cases (time_data self) dense_years
                  gap_years cpt i Hne) as Hbody.
    fold body in Hbody. destruct (body cpt i) as [cpt'|e''];
      cbn [mbind result_bind] in H.
    - exact (IH cpt' Hbody e' H).
    - congruence. }
  destruct (for_each body _ _) as [cpt|e'] eqn:E; cbn [mbind result_bind];
    [discriminate|].
  intros H. injection H as <-. eapply Hwalk; [|exact E]. discriminate.
Qed.

(** What the branches before the control points leave bound, the default
    included: never an interpolation variant, and the caller's function
    whenever it is asked for. *)
Lemma earlier_choice (kwargs : gmap string pyval) :
  exists p,
    match
      (if is_True (fst (custom_function_and_f kwargs))
          && is_not_None (snd (custom_function_and_f kwargs))
       then Some (custom (snd (custom_function_and_f kwargs)))
       else if eq_str (default PyNone (kwargs !! "production"%string)) "miyake"
            then if is_True (default (PyBool false) (kwargs !! "fit_solar"%string))
                 then Some miyake_event_flexible_solar
                 else Some miyake_event_fixed_solar
            else None)
    with
    | Some p0 => Some p0
    | None => Some miyake_event_fixed_solar
    end = Some p /\
    p <> interp_linear /\ p <> interp_gp /\
    forall f,
      kwargs !! "custom_function"%string = Some (PyBool true) ->
      kwargs !! "f"%string = Some f -> f <> PyNone ->
      p = custom f.
Proof.
  destruct (is_True (fst (custom_function_and_f kwargs))
            && is_not_None (snd (custom_function_and_f kwargs))) eqn:Hc.
  - eexists. split; [reflexivity|]. split; [discriminate|].
    split; [discriminate|].
    intros f Hcf Hf _. unfold custom_function_and_f. rewrite Hcf, Hf.
    reflexivity.
  - assert (Hno : forall f,
              kwargs !! "custom_function"%string = Some (PyBool true) ->
              kwargs !! "f"%string = Some f -> f <> PyNone -> False).
    { intros f Hcf Hf Hnn. unfold custom_function_and_f in Hc.
      rewrite Hcf, Hf in Hc. cbn [fst snd is_True andb] in Hc.
      rewrite (is_not_None_true f Hnn) in Hc. discriminate. }
    destruct (eq_str (default PyNone (kwargs !! "production"%string)) "miyake");
      [destruct (is_True (default (PyBool false) (kwargs !! "fit_solar"%string)))|];
      (eexists; split; [reflexivity|]; split; [discriminate|];
       split; [discriminate|]; intros f Hcf Hf Hnn;
       destruct (Hno f Hcf Hf Hnn)).
Qed.

(** C10, as the code has it: [prepare_function] raises only when the walk
    over the linear control points meets a [dense_years] or [gap_years] that
    is not a number, and then nothing is selected.  Whenever it returns,
    exactly one production function is bound.  With [use_control_points]
    true and [interp] "linear" (the default) or "gp", the interpolation
    variant of that name is bound whatever [custom_function], [f],
    [production] and [fit_solar] are.  In every other case, which includes
    [use_control_points] true with any other [interp], no interpolation
    variant is bound and a true [custom_function] with a non-None [f] binds
    [f], whatever [production] is. *)
Theorem production_selection (self : CarbonFitter) (kwargs : gmap string pyval) :
  (numeric_option kwargs "dense_years" -> numeric_option kwargs "gap_years" ->
   is_ok (prepare_function self kwargs) = true) /\
  (forall e, prepare_function self kwargs = Raise e ->
     e = BadOperand /\
     kwargs !! "use_control_points"%string = Some (PyBool true) /\
     default (PyStr "linear") (kwargs !! "interp"%string) = PyStr "linear" /\
     ~ (numeric_option kwargs "dense_years" /\
        numeric_option kwargs "gap_years")) /\
  (forall self', prepare_function self kwargs = Ok self' ->
     exists p,
       production self' = Some p /\
       (kwargs !! "use_control_points"%string = Some (PyBool true) ->
          (default (PyStr "linear") (kwargs !! "interp"%string) = PyStr "linear" ->
           p = interp_linear) /\
          (kwargs !! "interp"%string = Some (PyStr "gp") -> p = interp_gp)) /\
       ((kwargs !! "use_control_points"%string = Some (PyBool true) ->
         default (PyStr "linear") (kwargs !! "interp"%string) <> PyStr "linear" /\
         kwargs !! "interp"%string <> Some (PyStr "gp")) ->
        p <> interp_linear /\ p <> interp_gp /\
        forall f,
          kwargs !! "custom_function"%string = Some (PyBool true) ->
          kwargs !! "f"%string = Some f -> f <> PyNone ->
          p = custom f)).
Proof.
  assert (Hreturns :
    numeric_option kwargs "dense_years" -> numeric_option kwargs "gap_years" ->
    is_ok (prepare_function self kwargs) = true).
  { intros Hdense Hgap.
    destruct (numeric_option_default _ _ 3 Hdense) as [d Hd].
    destruct (numeric_option_default _ _ 5 Hgap) as [g Hg].
    unfold prepare_function.
    rewrite (linear_control_points_rule self _ _ d g Hd Hg).
    destruct (is_True _); [|reflexivity].
    destruct (eq_str _ "linear"); [reflexivity|].
    destruct (eq_str _ "gp"); reflexivity. }
  split; [exact Hreturns|]. split.
  - intros e He.
    assert (Hnot : ~ (numeric_option kwargs "dense_years" /\
                      numeric_option kwargs "gap_years")).
    { intros [Hdense Hgap]. specialize (Hreturns Hdense Hgap).
      rewrite He in Hreturns. discriminate. }
    unfold prepare_function in He.
    destruct (is_True (default (PyBool false) (kwargs !! "use_control_points"%string)))
      eqn:Hucp; [|discriminate].
    apply is_True_default in Hucp.
    destruct (eq_str (default (PyStr "linear") (kwargs !! "interp"%string)) "linear")
      eqn:Hlin.
    2:{ destruct (eq_str _ "gp"); discriminate. }
    apply eq_str_true in Hlin.
    destruct (linear_control_points self _ _) as [cpt|e'] eqn:Hcpt;
      [discriminate|].
    cbn [mbind result_bind] in He. injection He as <-.
    apply linear_control_points_raises in Hcpt.
    repeat split; assumption.
  - intros self' Hprep. unfold prepare_function in Hprep.
    destruct (is_True (default (PyBool false) (kwargs !! "use_control_points"%string)))
      eqn:Hucp.
    + apply is_True_default in Hucp.
      destruct (eq_str (default (PyStr "linear") (kwargs !! "interp"%string)) "linear")
        eqn:Hlin.
      * destruct (linear_control_points self _ _) as [cpt|e'];
          [|discriminate].
        cbn [mbind result_bind fst snd] in Hprep. injection Hprep as <-.
        apply eq_str_true in Hlin.
        exists interp_linear. split; [reflexivity|]. split.
        -- intros _. split; [reflexivity|].
           intros Hgp. rewrite Hgp in Hlin. discriminate.
        -- intros Hno. destruct (Hno Hucp) as [Hl _]. contradiction.
      * destruct (eq_str (default (PyStr "linear") (kwargs !! "interp"%string)) "gp")
          eqn:Hgp.
        -- cbn [mbind result_bind fst snd] in Hprep. injection Hprep as <-.
           apply eq_str_true in Hgp.
           exists interp_gp. split; [reflexivity|]. split.
           ++ intros _. split; [|reflexivity].
              intros Hl. rewrite Hl in Hlin. discriminate.
           ++ intros Hno. destruct (Hno Hucp) as [_ Hg]. exfalso. apply Hg.
              destruct (kwargs !! "interp"%string) as [v|]; simpl in Hgp;
                [congruence | discriminate].
        -- cbn [mbind result_bind fst snd] in Hprep. injection Hprep as <-.
           cbn [production with_production].
           destruct (earlier_choice kwargs) as (p & Hp & Hrest).
           exists p. split; [exact Hp|]. split; [|intros _; exact Hrest].
           intros _. split; intros Hl;
             [rewrite Hl in Hlin | rewrite Hl in Hgp]; discriminate.
    + cbn [mbind result_bind fst snd] in Hprep. injection Hprep as <-.
      cbn [production with_production].
      destruct (earlier_choice kwargs) as (p & Hp & Hrest).
      exists p. split; [exact Hp|]. split; [|intros _; exact Hrest].
      intros Hu. apply is_True_default in Hu. congruence.
Qed.

Lemma production_selection_witness :
  exists self0 self self' f,
    load_data Toy.annual_rows 10 (1 # 2) 5 2 = Ok self0 /\
    prepare_function self0 Toy.all_options = Ok self /\
    production self = Some interp_linear /\
    prepare_function self0 Toy.custom_and_miyake = Ok self' /\
    production self' = Some (custom (PyFun f)).
Proof.
  assert (Hl : is_ok (load_data Toy.annual_rows 10 (1 # 2) 5 2) = true)
    by (vm_compute; reflexivity).
  destruct (load_data Toy.annual_rows 10 (1 # 2) 5 2) as [self0|];
    [clear Hl | discriminate].
  destruct (production_selection self0 Toy.all_options) as (Hret & _ & Hsel).
  destruct (prepare_function self0 Toy.all_options) as [self|] eqn:Hprep.
  2:{ assert (is_ok (@Raise CarbonFitter e) = true)
        by (apply Hret; vm_compute; reflexivity).
      discriminate. }
  destruct (Hsel self eq_refl) as (p & Hprod & Hcp & _).
  destruct (production_selection self0 Toy.custom_and_miyake)
    as (Hret' & _ & Hsel').
  destruct (prepare_function self0 Toy.custom_and_miyake) as [self'|] eqn:Hprep'.
  2:{ assert (is_ok (@Raise CarbonFitter e) = true)
        by (apply Hret'; vm_compute; exact I).
      discriminate. }
  destruct (Hsel' self' eq_refl) as (p' & Hprod' & _ & Hcustom).
  exists self0, self, self', (fun t args => t).
  split; [reflexivity|]. split; [exact Hprep|].
  split; [rewrite Hprod; f_equal; apply Hcp; vm_compute; reflexivity|].
  split; [exact Hprep'|].
  rewrite Hprod'. f_equal. apply Hcustom.
  - intros Hu. vm_compute in Hu. discriminate.
  - vm_compute. reflexivity.
  - vm_compute. reflexivity.
  - discriminate.
Defined.

(** Two configuration mappings that select no function in the order of
    precedence.  With a [dense_years] that is not a number the call raises
    and selects nothing;
    with [use_control_points] true and an [interp] that is neither "linear"
    nor "gp" no interpolation variant is bound, the burst model asked for by
    [production] stays. *)
Lemma production_selection_counterexample :
  exists self0,
    load_data Toy.annual_rows 10 (1 # 2) 5 2 = Ok self0 /\
    prepare_function self0
      (<["use_control_points"%string := PyBool true]>
         (<["dense_years"%string := PyStr "three"]> ∅))
    = Raise BadOperand /\
    (self ← prepare_function self0
              (<["interp"%string := PyStr "cubic"]>
                 (<["production"%string := PyStr "miyake"]> Toy.gp_options));
     Ok (production self))
    = Ok (Some miyake_event_fixed_solar).
Proof.
  eexists. split; [vm_compute; reflexivity|].
  split; vm_compute; reflexivity.
Qed.

(** ** What [load_data] accepts *)

Lemma fold_qmin_spec (r : list Q) (x : Q) :
  let m := fold_left Np.qmin r x in
  In m (x :: r) /\ Forall (fun t => m <= t) (x :: r).
Proof.
  revert x. induction r as [|y r IH]; intros x; cbn [fold_left].
  - split; [left; reflexivity|]. constructor; [apply Qle_refl|constructor].
  - destruct (IH (Np.qmin x y)) as [Hin Hall]. cbv zeta.
    set (m := fold_left Np.qmin r (Np.qmin x y)) in *.
    inversion Hall as [|? ? Hm Hr]; subst.
    unfold Np.qmin in Hin, Hm. destruct (Qle_bool x y) eqn:E.
    + apply Qle_bool_iff in E. split.
      * destruct Hin as [<-|Hin]; [left; reflexivity | right; right; exact Hin].
      * constructor; [exact Hm|]. constructor; [lra | exact Hr].
    + assert (y <= x).
      { destruct (Qlt_le_dec y x) as [Hlt|Hle]; [lra|].
        apply Qle_bool_iff in Hle. congruence. }
      split.
      * destruct Hin as [<-|Hin]; [right; left; reflexivity
                                  | right; right; exact Hin].
      * constructor; [lra|]. constructor; [exact Hm | exact Hr].
Qed.

Lemma fold_qmax_spec (r : list Q) (x : Q) :
  let m := fold_left Np.qmax r x in
  In m (x :: r) /\ Forall (fun t => t <= m) (x :: r).
Proof.
  revert x. induction r as [|y r IH]; intros x; cbn [fold_left].
  - split; [left; reflexivity|]. constructor; [apply Qle_refl|constructor].
  - destruct (IH (Np.qmax x y)) as [Hin Hall]. cbv zeta.
    set (m := fold_left Np.qmax r (Np.qmax x y)) in *.
    inversion Hall as [|? ? Hm Hr]; subst.
    unfold Np.qmax in Hin, Hm. destruct (Qle_bool x y) eqn:E.
    + apply Qle_bool_iff in E. split.
      * destruct Hin as [<-|Hin]; [right; left; reflexivity
                                  | right; right; exact Hin].
      * constructor; [lra|]. constructor; [exact Hm | exact Hr].
    + assert (y <= x).
      { destruct (Qlt_le_dec y x) as [Hlt|Hle]; [lra|].
        apply Qle_bool_iff in Hle. congruence. }
      split.
      * destruct Hin as [<-|Hin]; [left; reflexivity | right; right; exact Hin].
      * constructor; [exact Hm|]. constructor; [lra | exact Hr].
Qed.

Lemma nanmin_spec (l : list Q) (s : Q) :
  Np.nanmin l = Ok s -> In s l /\ Forall (fun t => s <= t) l.
Proof.
  destruct l as [|x r]; [discriminate|]. intros [= <-].
  apply fold_qmin_spec.
Qed.

Lemma nanmax_spec (l : list Q) (e : Q) :
  Np.nanmax l = Ok e -> In e l /\ Forall (fun t => t <= e) l.
Proof.
  destruct l as [|x r]; [discriminate|]. intros [= <-].
  apply fold_qmax_spec.
Qed.

Lemma nanmin_le_nanmax (l : list Q) (s e : Q) :
  Np.nanmin l = Ok s -> Np.nanmax l = Ok e -> s <= e.
Proof.
  intros Hs He. apply nanmin_spec in Hs as [_ Hs].
  apply nanmax_spec in He as [He _].
  rewrite List.Forall_forall in Hs. apply Hs, He.
Qed.

Lemma Qdiv_nonneg_neg (a b : Q) : 0 <= a -> b < 0 -> a / b <= 0.
Proof.
  intros Ha Hb.
  assert (Heq : a / b == - (a / - b)) by (field; lra).
  assert (Hpos : 0 <= a / - b) by (apply Qle_shift_div_l; lra).
  rewrite Heq. lra.
Qed.

Lemma arange_negative_step (s e step : Q) :
  s <= e -> step < 0 -> Np.arange s e step = Ok [].
Proof.
  intros Hse Hstep. unfold Np.arange.
  destruct (Qeq_bool step 0) eqn:E.
  - apply Qeq_bool_iff in E. lra.
  - assert (Hc : (Qceiling ((e - s) / step) <= 0)%Z).
    { change 0%Z with (Qceiling (inject_Z 0)) at 2 || idtac.
      rewrite <- (Qceiling_Z 0). apply Qceiling_resp_le.
      apply Qdiv_nonneg_neg; lra. }
    replace (Z.to_nat (Qceiling ((e - s) / step))) with 0%nat by lia.
    reflexivity.
Qed.

Lemma arange_zero_step (s e step : Q) :
  step == 0 -> Np.arange s e step = Raise ZeroStep.
Proof.
  intros H. unfold Np.arange. apply Qeq_bool_iff in H. rewrite H. reflexivity.
Qed.

Lemma linspace_length (a b : Q) (num : Z) (l : list Q) :
  Np.linspace a b num = Ok l -> length l = Z.to_nat num.
Proof.
  unfold Np.linspace. destruct (num <? 0)%Z; [discriminate|].
  destruct (num =? 1)%Z eqn:E.
  - apply Z.eqb_eq in E. subst num. intros [= <-]. reflexivity.
  - intros [= <-]. rewrite length_map, length_seq. reflexivity.
Qed.

Lemma slice_to_beyond {A} (k : Z) (l : list A) :
  (Z.of_nat (length l) <= k)%Z -> Np.slice_to k l = l.
Proof.
  intros Hk. unfold Np.slice_to.
  replace (0 <=? k)%Z with true by (symmetry; apply Z.leb_le; lia).
  apply firstn_all2. lia.
Qed.

(** C8, as the code has it: [load_data] validates none of its grid
    parameters.  On a non-empty series it raises only through the array
    constructors, for a negative resolution or a zero fine-grid step.
    Otherwise it returns: a resolution of 0 or 1 gives a burn-in grid of that
    many points, a negative step an empty fine grid, and a number of leading
    points beyond the series length averages the whole series. *)
Theorem load_data_accepts (data : list row) (res : Z) (fg : Q) (os no : Z) :
  data <> [] ->
  ((res < 0)%Z -> load_data data res fg os no = Raise NegativeSamples) /\
  ((0 <= res)%Z -> fg == 0 -> load_data data res fg os no = Raise ZeroStep) /\
  ((0 <= res)%Z -> ~ fg == 0 ->
   exists self,
     load_data data res fg os no = Ok self /\
     length (burn_in_time self) = Z.to_nat res /\
     (fg < 0 -> time_grid_fine self = []) /\
     ((Z.of_nat (length data) <= no)%Z ->
      offset self = Np.mean (map d14c data))).
Proof.
  intros Hne. unfold load_data.
  destruct data as [|r0 data]; [congruence|]. cbn [map].
  set (times := year r0 :: map year data).
  destruct (Np.nanmin times) as [s|] eqn:Hs; [|discriminate].
  destruct (Np.nanmax times) as [e|] eqn:He; [|discriminate].
  cbn [mbind result_bind].
  pose proof (nanmin_le_nanmax _ _ _ Hs He) as Hse.
  split; [|split].
  - intros Hres. unfold Np.linspace.
    replace (res <? 0)%Z with true by (symmetry; apply Z.ltb_lt; lia).
    reflexivity.
  - intros Hres Hfg.
    destruct (Np.linspace (s - 1000) s res) as [b|] eqn:Hb.
    + cbn [mbind result_bind]. rewrite (arange_zero_step s e fg Hfg).
      reflexivity.
    + unfold Np.linspace in Hb.
      replace (res <? 0)%Z with false in Hb by (symmetry; apply Z.ltb_ge; lia).
      destruct (res =? 1)%Z; discriminate.
  - intros Hres Hfg.
    destruct (Np.linspace (s - 1000) s res) as [b|] eqn:Hb.
    2:{ unfold Np.linspace in Hb.
        replace (res <? 0)%Z with false in Hb by (symmetry; apply Z.ltb_ge; lia).
        destruct (res =? 1)%Z; discriminate. }
    cbn [mbind result_bind].
    destruct (Np.arange s e fg) as [tf|] eqn:Htf.
    2:{ unfold Np.arange in Htf. destruct (Qeq_bool fg 0) eqn:E; [|discriminate].
        apply Qeq_bool_iff in E. contradiction. }
    cbn [mbind result_bind]. rewrite arange_unit_step. cbn [mbind result_bind].
    eexists. split; [reflexivity|]. cbn.
    split; [exact (linspace_length _ _ _ _ Hb)|]. split.
    + intros Hneg. rewrite (arange_negative_step s e fg Hse Hneg) in Htf.
      congruence.
    + intros Hno. rewrite slice_to_beyond; [reflexivity|].
      cbn [length] in *. rewrite length_map. exact Hno.
Qed.

Lemma load_data_accepts_witness :
  exists self,
    load_data Toy.annual_rows 1 (-1 # 20) 1000 7 = Ok self /\
    length (burn_in_time self) = 1%nat /\
    time_grid_fine self = [] /\
    offset self = Np.mean [1; 3; 2; 5].
Proof.
  destruct (load_data_accepts Toy.annual_rows 1 (-1 # 20) 1000 7)
    as (_ & _ & Hok); [discriminate|].
  destruct Hok as (self & Hload & Hburn & Hfine & Hoff);
    [lia | discriminate |].
  exists self. split; [exact Hload|]. split; [exact Hburn|].
  split; [apply Hfine; reflexivity|].
  apply Hoff. vm_compute. discriminate.
Defined.

Lemma load_data_accepts_counterexample :
  is_ok (load_data Toy.annual_rows 1 (1 # 20) 1000 4) = true /\
  is_ok (load_data Toy.annual_rows 1000 (-1 # 20) 1000 4) = true /\
  is_ok (load_data Toy.annual_rows 1000 (1 # 20) 1000 5) = true.
Proof. vm_compute. repeat split. Qed.

(** ** The alignment mask *)

Lemma count_true_map {A} (f : A -> bool) (l : list A) :
  Np.count_true (map f l) = length (List.filter f l).
Proof.
  unfold Np.count_true. induction l as [|a l IH]; [reflexivity|].
  cbn [map List.filter]. destruct (f a); cbn [length]; rewrite IH; reflexivity.
Qed.

Lemma slice_to_m1_snoc {A} (l : list A) (x : A) :
  Np.slice_to (-1) (l ++ [x]) = l.
Proof.
  unfold Np.slice_to. cbn [Z.leb Z.compare].
  change (Z.to_nat (- (-1))) with 1%nat.
  rewrite length_app. cbn [length].
  replace (length l + 1 - 1)%nat with (length l + 0)%nat by lia.
  rewrite firstn_app_2. cbn [firstn]. apply app_nil_r.
Qed.

(** Among [0 .. n-1], exactly [length offs] indices occur in a duplicate-free
    list [offs] of indices below [n]. *)
Lemma count_members (offs : list nat) (n : nat) :
  List.NoDup offs -> (forall i, In i offs -> (i < n)%nat) ->
  length (List.filter (fun i => existsb (Nat.eqb i) offs) (seq 0 n))
  = length offs.
Proof.
  intros Hnd Hlt. apply Permutation_length.
  apply Permutation.NoDup_Permutation.
  - apply List.NoDup_filter, seq_NoDup.
  - exact Hnd.
  - intros i. rewrite filter_In, in_seq, existsb_exists. split.
    + intros [_ (j & Hj & E)]. apply Nat.eqb_eq in E. subst j. exact Hj.
    + intros Hi. split; [specialize (Hlt i Hi); lia|].
      exists i. split; [exact Hi | apply Nat.eqb_refl].
Qed.

Section Offsets.

Variables (s e : Q) (times : list Q).
Hypothesis Hmin : Np.nanmin times = Ok s.
Hypothesis Hmax : Np.nanmax times = Ok e.
Hypothesis Hwhole : whole_years s times = true.

Lemma years_after_exact (t : Q) :
  In t times -> t == s + Np.of_nat (years_after s t) * 1.
Proof using Hmin Hwhole.
  intros Hin. unfold whole_years in Hwhole.
  rewrite forallb_forall in Hwhole. specialize (Hwhole t Hin).
  apply Qeq_bool_iff in Hwhole.
  destruct (nanmin_spec _ _ Hmin) as [_ Hle].
  rewrite List.Forall_forall in Hle. specialize (Hle t Hin).
  assert (H0 : (0 <= Qfloor (t - s))%Z).
  { rewrite <- (Qfloor_Z 0). apply Qfloor_resp_le. unfold inject_Z. lra. }
  unfold years_after, Np.of_nat. rewrite Z2Nat.id by exact H0.
  rewrite <- Hwhole. ring.
Qed.

Lemma years_after_le (t : Q) :
  In t times -> (years_after s t <= years_after s e)%nat.
Proof using Hmax.
  intros Hin. destruct (nanmax_spec _ _ Hmax) as [_ Hle].
  rewrite List.Forall_forall in Hle. specialize (Hle t Hin).
  unfold years_after.
  assert (H : (Qfloor (t - s) <= Qfloor (e - s))%Z)
    by (apply Qfloor_resp_le; lra).
  lia.
Qed.

Lemma years_after_grid (i : nat) : years_after s (s + Np.of_nat i * 1) = i.
Proof.
  unfold years_after, Np.of_nat.
  rewrite (Qfloor_comp _ (inject_Z (Z.of_nat i))) by ring.
  rewrite Qfloor_Z. apply Nat2Z.id.
Qed.

(** Equality with a grid point is equality of the year offsets. *)
Lemma grid_point_eqb (i : nat) (t : Q) :
  In t times ->
  Qeq_bool (s + Np.of_nat i * 1) t = Nat.eqb i (years_after s t).
Proof using Hmin Hwhole.
  intros Hin. pose proof (years_after_exact t Hin) as Ht.
  destruct (Nat.eqb i (years_after s t)) eqn:E.
  - apply Nat.eqb_eq in E. subst i. apply Qeq_bool_iff. symmetry. exact Ht.
  - destruct (Qeq_bool (s + Np.of_nat i * 1) t) eqn:E'; [|reflexivity].
    apply Qeq_bool_iff in E'. apply Nat.eqb_neq in E. exfalso. apply E.
    rewrite <- (years_after_grid i). unfold years_after.
    f_equal. apply Qfloor_comp. rewrite E'. reflexivity.
Qed.

Lemma in1d_grid_point (i : nat) (sub : list Q) :
  (forall t, In t sub -> In t times) ->
  existsb (Qeq_bool (s + Np.of_nat i * 1)) sub
  = existsb (Nat.eqb i) (map (years_after s) sub).
Proof using Hmin Hwhole.
  induction sub as [|t sub IH]; intros Hsub; [reflexivity|].
  cbn [existsb map]. rewrite grid_point_eqb by (apply Hsub; left; reflexivity).
  rewrite IH by (intros u Hu; apply Hsub; right; exact Hu). reflexivity.
Qed.

Lemma years_after_NoDup (sub : list Q) :
  (forall t, In t sub -> In t times) ->
  distinct sub = true -> List.NoDup (map (years_after s) sub).
Proof using Hmin Hwhole.
  induction sub as [|t sub IH]; intros Hsub Hd; [constructor|].
  cbn [distinct] in Hd. apply andb_true_iff in Hd as [Hfresh Hd].
  cbn [map]. constructor.
  - intros Hin. apply in_map_iff in Hin as (u & Hu & Hin).
    apply negb_true_iff in Hfresh.
    assert (Hex : existsb (Qeq_bool t) sub = true).
    { apply existsb_exists. exists u. split; [exact Hin|].
      apply Qeq_bool_iff.
      rewrite (years_after_exact t) by (apply Hsub; left; reflexivity).
      rewrite (years_after_exact u) by (apply Hsub; right; exact Hin).
      rewrite Hu. reflexivity. }
    congruence.
  - apply IH; [intros u Hu; apply Hsub; right; exact Hu | exact Hd].
Qed.

Lemma annual_grid_whole :
  annual_grid s e
  = map (fun i => s + Np.of_nat i * 1) (seq 0 (S (years_after s e))).
Proof using Hmin Hmax Hwhole.
  unfold annual_grid. f_equal. f_equal.
  destruct (nanmax_spec _ _ Hmax) as [Hin _].
  pose proof (years_after_exact e Hin) as He.
  rewrite (Qceiling_comp _ (inject_Z (Z.of_nat (S (years_after s e))))).
  - rewrite Qceiling_Z. apply Nat2Z.id.
  - rewrite Nat2Z.inj_succ. unfold Z.succ. rewrite inject_Z_plus.
    unfold Np.of_nat in He. rewrite He at 1. field.
Qed.

(** On distinct whole-year times the mask selects all observations but the
    last grid point, which is the latest observation. *)
Lemma mask_count :
  distinct times = true ->
  Np.count_true (Np.slice_to (-1) (Np.in1d (annual_grid s e) times))
  = (length times - 1)%nat.
Proof using Hmin Hmax Hwhole.
  intros Hd. set (n := years_after s e).
  set (offs := map (years_after s) times).
  assert (Hin1d : Np.in1d (annual_grid s e) times
                  = map (fun i => existsb (Nat.eqb i) offs) (seq 0 (S n))).
  { rewrite annual_grid_whole. unfold Np.in1d. rewrite map_map.
    apply map_ext. intros i. apply in1d_grid_point. auto. }
  assert (Hnd : List.NoDup offs) by (apply years_after_NoDup; auto).
  assert (Hlt : forall i, In i offs -> (i < S n)%nat).
  { intros i Hi. apply in_map_iff in Hi as (t & <- & Ht).
    pose proof (years_after_le t Ht). fold n in H. lia. }
  pose proof (count_members offs (S n) Hnd Hlt) as Hcount.
  assert (Hlast : existsb (Nat.eqb n) offs = true).
  { apply existsb_exists. exists n. split; [|apply Nat.eqb_refl].
    apply in_map_iff. exists e. split; [reflexivity|].
    apply (nanmax_spec _ _ Hmax). }
  rewrite Hin1d, seq_S, map_app. cbn [map]. rewrite slice_to_m1_snoc.
  rewrite count_true_map.
  rewrite seq_S, List.filter_app, length_app in Hcount. cbn [List.filter] in Hcount.
  cbn [Nat.add] in Hcount. rewrite Hlast in Hcount. cbn [length] in Hcount.
  unfold offs in Hcount. rewrite length_map in Hcount. fold offs in Hcount.
  lia.
Qed.

End Offsets.

(** Calendar years are whole numbers of years apart. *)
Lemma calendar_whole_years (times : list Q) (s : Q) :
  Np.nanmin times = Ok s ->
  calendar_years times = true -> whole_years s times = true.
Proof.
  intros Hs Hcal. unfold calendar_years in Hcal. unfold whole_years.
  rewrite forallb_forall in Hcal. apply forallb_forall. intros t Ht.
  destruct (nanmin_spec _ _ Hs) as [Hin _].
  pose proof (Hcal t Ht) as Hyear. pose proof (Hcal s Hin) as Hfirst.
  apply andb_true_iff in Hyear as [Hyear _].
  apply andb_true_iff in Hfirst as [Hfirst _].
  apply Qeq_bool_iff in Hyear, Hfirst. apply Qeq_bool_iff.
  assert (Hdiff : t - s == inject_Z (Qfloor t - Qfloor s)).
  { unfold Zminus. rewrite inject_Z_plus, inject_Z_opp, <- Hyear, <- Hfirst.
    ring. }
  rewrite (Qfloor_comp _ _ Hdiff), Qfloor_Z. exact Hdiff.
Qed.

Lemma bool_index_length {A} (x : list A) (m : list bool) :
  length x = length m ->
  exists y, Np.bool_index x m = Ok y /\ length y = Np.count_true m.
Proof.
  intros Hlen. unfold Np.bool_index. rewrite Hlen, Nat.eqb_refl.
  eexists. split; [reflexivity|]. rewrite length_map. unfold Np.count_true.
  revert m Hlen. induction x as [|a x IH]; intros [|b m] Hlen;
    cbn [length] in Hlen; try discriminate; [reflexivity|].
  cbn [combine List.filter snd]. destruct b; cbn [length]; rewrite IH by lia;
    reflexivity.
Qed.

Lemma loaded_mask (data : list row) (res : Z) (fg : Q) (os no : Z)
    (self : CarbonFitter) :
  load_data data res fg os no = Ok self ->
  length (mask self) = (length (annual self) - 1)%nat /\
  (distinct (time_data self) = true ->
   calendar_years (time_data self) = true ->
   Np.count_true (mask self) = (length (time_data self) - 1)%nat).
Proof.
  intros Hl.
  apply load_data_inv in Hl as (s & e & b & tf & Hs & He & _ & _ & ->).
  cbn [mask annual time_data start]. split.
  - rewrite slice_to_m1_length. unfold Np.in1d. rewrite length_map. reflexivity.
  - intros Hd Hw. apply mask_count; try assumption.
    apply calendar_whole_years; assumption.
Qed.

(** C3, as the code has it: the mask is one entry shorter than the annual
    grid for every loaded series; its number of [True] entries is the number
    of observations minus one when the observation times are pairwise
    distinct calendar years. *)
Theorem alignment_mask_spec (data : list row) (res : Z) (fg : Q) (os no : Z)
    (self : CarbonFitter) :
  load_data data res fg os no = Ok self ->
  length (mask self) = (length (annual self) - 1)%nat /\
  (distinct (time_data self) = true ->
   calendar_years (time_data self) = true ->
   Np.count_true (mask self) = (length (time_data self) - 1)%nat).
Proof. apply loaded_mask. Qed.

Lemma alignment_mask_spec_witness :
  exists self,
    load_data Toy.spacing_rows 1000 (1 # 20) 1000 4 = Ok self /\
    length (mask self) = 100%nat /\ Np.count_true (mask self) = 3%nat.
Proof.
  eexists. split; [vm_compute; reflexivity|].
  match goal with
  | |- length (mask ?self) = _ /\ _ =>
      destruct (alignment_mask_spec Toy.spacing_rows 1000 (1 # 20) 1000 4 self)
        as [Hlen Hcount]; [vm_compute; reflexivity|]
  end.
  split; [exact Hlen|]. apply Hcount; vm_compute; reflexivity.
Defined.

Lemma alignment_mask_spec_counterexample :
  valid_series Toy.half_year_rows = true /\
  exists self,
    load_data Toy.half_year_rows 1000 (1 # 20) 1000 4 = Ok self /\
    Np.count_true (mask self) = 1%nat /\
    Np.count_true (mask self) <> (length (time_data self) - 1)%nat.
Proof.
  split; [vm_compute; reflexivity|].
  eexists. split; [vm_compute; reflexivity|].
  split; vm_compute; [reflexivity | discriminate].
Qed.

(** ** Length of the simulated curve *)

Section Simulation.

Context (state : Type) (steady_state_y0 : state)
        (cbm_run : list Q -> CarbonFitter -> list Q -> state -> list state)
        (cbm_run_D_14_C_values :
           list Q -> Z -> CarbonFitter -> list Q -> state -> state -> list Q).

Local Abbreviation dc14 :=
  (dc14 state steady_state_y0 cbm_run cbm_run_D_14_C_values).

(** C1, as the code has it: when the box model returns one state per time
    value and one observable per interval of its output grid, [dc14] returns
    a curve with as many entries as the mask has [True] entries; that
    number is the number of observations minus one when the observation
    times are pairwise distinct calendar years. *)
Theorem dc14_length (data : list row) (res : Z) (fg : Q) (os no : Z)
    (kwargs : gmap string pyval) (self0 self : CarbonFitter) (params : list Q) :
  load_data data res fg os no = Ok self0 ->
  prepare_function self0 kwargs = Ok self ->
  (1 <= res)%Z ->
  (forall times f args y0, length (cbm_run times f args y0) = length times) ->
  (forall times k f args y0 ss,
     length (cbm_run_D_14_C_values times k f args y0 ss)
     = (length times - 1)%nat) ->
  exists curve,
    dc14 self params = Ok curve /\
    length curve = Np.count_true (mask self) /\
    (distinct (time_data self) = true ->
     calendar_years (time_data self) = true ->
     length curve = (length (time_data self) - 1)%nat).
Proof.
  intros Hl Hp Hres Hrun HrunD.
  destruct (loaded_mask _ _ _ _ _ _ Hl) as [Hmask Hcount].
  pose proof Hl as Hinv.
  apply load_data_inv in Hinv as (s & e & b & tf & _ & _ & Hb & _ & E0).
  apply linspace_length in Hb.
  apply prepare_function_inv in Hp as (p & cpt & ->).
  set (self := with_production self0 (Some p) cpt).
  assert (Hburn : length (burn_in_time self) = Z.to_nat res)
    by (subst self0; exact Hb).
  assert (Hprod : production self = Some p) by reflexivity.
  assert (Hgrid : length (mask self) = (length (annual self) - 1)%nat)
    by exact Hmask.
  assert (Hobs : distinct (time_data self) = true ->
                 calendar_years (time_data self) = true ->
                 Np.count_true (mask self) = (length (time_data self) - 1)%nat)
    by exact Hcount.
  clearbody self. clear Hmask Hcount.
  unfold dc14, run, run_D_14_C_values. rewrite Hprod.
  cbn [attribute mbind result_bind].
  destruct (cbm_run (burn_in_time self) self params steady_state_y0)
    as [|y0 burn_in] eqn:Eburn.
  { apply (f_equal (@length _)) in Eburn. rewrite Hrun, Hburn in Eburn.
    cbn [length] in Eburn. lia. }
  cbn [Np.last_item mbind result_bind].
  destruct (bool_index_length
              (cbm_run_D_14_C_values (annual self) (time_oversample self) self
                 params (List.last burn_in y0) steady_state_y0) (mask self))
    as (sel & Hsel & Hlen).
  { rewrite HrunD. symmetry. exact Hgrid. }
  rewrite Hsel. cbn [mbind result_bind].
  eexists. split; [reflexivity|]. rewrite length_map.
  split; [exact Hlen|].
  intros Hd Hw. rewrite Hlen. apply Hobs; assumption.
Qed.

End Simulation.

Lemma dc14_length_witness :
  exists self0 self curve,
    load_data Toy.annual_rows 10 (1 # 2) 5 2 = Ok self0 /\
    prepare_function self0 ∅ = Ok self /\
    Toy.dc14 self [1; 2] = Ok curve /\
    length curve = Np.count_true (mask self) /\
    length curve = 3%nat.
Proof.
  assert (Hl : is_ok (load_data Toy.annual_rows 10 (1 # 2) 5 2) = true)
    by (vm_compute; reflexivity).
  destruct (load_data Toy.annual_rows 10 (1 # 2) 5 2) as [self0|] eqn:Hload;
    [clear Hl | discriminate].
  assert (Hp : is_ok (prepare_function self0 ∅) = true).
  { vm_compute in Hload. injection Hload as <-. vm_compute. reflexivity. }
  destruct (prepare_function self0 ∅) as [self|] eqn:Hprep;
    [clear Hp | discriminate].
  destruct (dc14_length Toy.state Toy.steady_state_y0 Toy.run
              Toy.run_D_14_C_values Toy.annual_rows 10 (1 # 2) 5 2 ∅
              self0 self [1; 2] Hload Hprep)
    as (curve & Hcurve & Hlen & Hobs).
  - lia.
  - intros times f args y0. unfold Toy.run. apply length_map.
  - intros times k f args y0 ss. unfold Toy.run_D_14_C_values.
    rewrite length_map. apply slice_to_m1_length.
  - exists self0, self, curve. split; [reflexivity|]. split; [exact Hprep|].
    split; [exact Hcurve|]. split; [exact Hlen|].
    rewrite Hobs.
    + vm_compute in Hload. injection Hload as <-.
      vm_compute in Hprep. injection Hprep as <-. reflexivity.
    + vm_compute in Hload. injection Hload as <-.
      vm_compute in Hprep. injection Hprep as <-. reflexivity.
    + vm_compute in Hload. injection Hload as <-.
      vm_compute in Hprep. injection Hprep as <-. reflexivity.
Defined.

Lemma dc14_length_counterexample :
  exists self0 self curve,
    load_data Toy.repeated_year_rows 1000 (1 # 20) 1000 4 = Ok self0 /\
    prepare_function self0 ∅ = Ok self /\
    Toy.dc14 self [1; 2] = Ok curve /\
    length curve = Np.count_true (mask self) /\
    length curve <> (length (time_data self) - 1)%nat.
Proof.
  eexists _, _, _.
  split; [vm_compute; reflexivity|].
  split; [vm_compute; reflexivity|].
  split; [vm_compute; reflexivity|].
  split; vm_compute; [reflexivity | discriminate].
Qed.

(** * Further properties of the code *)

(** ** The grids built by [load_data] *)

Lemma annual_fitter_loaded :
  load_data Toy.annual_rows 10 (1 # 2) 5 2 = Ok Demo.annual_fitter.
Proof. vm_compute. reflexivity. Qed.

Lemma repeated_fitter_loaded :
  load_data Toy.repeated_year_rows 10 (1 # 2) 5 2 = Ok Demo.repeated_fitter.
Proof. vm_compute. reflexivity. Qed.

Lemma repeated_burst_fitter_prepared :
  prepare_function Demo.repeated_fitter ∅ = Ok Demo.repeated_burst_fitter.
Proof. vm_compute. reflexivity. Qed.

Lemma linear_fitter_prepared :
  prepare_function Demo.annual_fitter
    (<["use_control_points"%string := PyBool true]> ∅) = Ok Demo.linear_fitter.
Proof. vm_compute. reflexivity. Qed.

Lemma gp_fitter_prepared :
  prepare_function Demo.annual_fitter Toy.gp_options = Ok Demo.gp_fitter.
Proof. vm_compute. reflexivity. Qed.

Lemma burst_fitter_prepared :
  prepare_function Demo.annual_fitter ∅ = Ok Demo.burst_fitter.
Proof. vm_compute. reflexivity. Qed.

Lemma linspace_returns (a b : Q) (num : Z) :
  (0 <= num)%Z -> exists l, Np.linspace a b num = Ok l.
Proof.
  intros H. unfold Np.linspace.
  replace (num <? 0)%Z with false by (symmetry; apply Z.ltb_ge; lia).
  destruct (num =? 1)%Z; eauto.
Qed.

Lemma linspace_negative (a b : Q) (num : Z) :
  (num < 0)%Z -> Np.linspace a b num = Raise NegativeSamples.
Proof.
  intros H. unfold Np.linspace.
  replace (num <? 0)%Z with true by (symmetry; apply Z.ltb_lt; lia).
  reflexivity.
Qed.

Lemma arange_returns (s e step : Q) :
  ~ step == 0 ->
  Np.arange s e step
  = Ok (map (fun i => s + Np.of_nat i * step)
            (seq 0 (Z.to_nat (Qceiling ((e - s) / step))))).
Proof.
  intros H. unfold Np.arange. destruct (Qeq_bool step 0) eqn:E; [|reflexivity].
  apply Qeq_bool_iff in E. contradiction.
Qed.

Lemma load_data_returns (data : list row) (res : Z) (fg : Q) (os no : Z) :
  data <> [] -> (0 <= res)%Z -> ~ fg == 0 ->
  exists self, load_data data res fg os no = Ok self.
Proof.
  intros Hne Hres Hfg. unfold load_data.
  destruct data as [|r0 data]; [congruence|]. cbn [map Np.nanmin Np.nanmax].
  cbn [mbind result_bind].
  destruct (linspace_returns (fold_left Np.qmin (map year data) (year r0) - 1000)
              (fold_left Np.qmin (map year data) (year r0)) res Hres) as [b ->].
  cbn [mbind result_bind]. rewrite (arange_returns _ _ fg Hfg).
  cbn [mbind result_bind]. rewrite arange_unit_step. cbn [mbind result_bind].
  eauto.
Qed.

(** X1: [load_data] returns exactly when the series is non-empty, the resolution
    is not negative and the fine-grid step is not zero. *)
Theorem load_data_ok_iff (data : list row) (res : Z) (fg : Q) (os no : Z) :
  is_ok (load_data data res fg os no) = true
  <-> data <> [] /\ (0 <= res)%Z /\ ~ fg == 0.
Proof.
  split.
  - destruct (load_data data res fg os no) as [self|] eqn:Hl; [|discriminate].
    intros _.
    apply load_data_inv in Hl as (s & e & b & tf & Hs & _ & Hb & Htf & _).
    split; [|split].
    + intros ->. discriminate.
    + destruct (Z.lt_ge_cases res 0) as [Hneg|]; [|assumption].
      rewrite (linspace_negative _ _ _ Hneg) in Hb. discriminate.
    + intros Hz. rewrite (arange_zero_step _ _ _ Hz) in Htf. discriminate.
  - intros (Hne & Hres & Hfg).
    destruct (load_data_returns data res fg os no Hne Hres Hfg) as [self ->].
    reflexivity.
Qed.

Lemma load_data_ok_iff_witness :
  is_ok (load_data Toy.annual_rows 0 (-1 # 20) 1000 4) = true /\
  is_ok (load_data [] 1000 (1 # 20) 1000 4) = false.
Proof.
  split.
  - apply load_data_ok_iff. split; [discriminate|]. split; [lia | discriminate].
  - apply not_true_is_false. intros H. apply load_data_ok_iff in H as [H _].
    congruence.
Defined.

(** X2: The observation window: [start] and [end] are observation times and
    every observation time lies between them. *)
Theorem window_bounds (data : list row) (res : Z) (fg : Q) (os no : Z)
    (self : CarbonFitter) :
  load_data data res fg os no = Ok self ->
  In (start self) (time_data self) /\
  In (end_ self) (time_data self) /\
  Forall (fun t => start self <= t /\ t <= end_ self) (time_data self).
Proof.
  intros Hl.
  apply load_data_inv in Hl as (s & e & b & tf & Hs & He & _ & _ & ->).
  cbn [start end_ time_data].
  destruct (nanmin_spec _ _ Hs) as [Hins Hles].
  destruct (nanmax_spec _ _ He) as [Hine Hlee].
  split; [exact Hins|]. split; [exact Hine|].
  rewrite List.Forall_forall in *. intros t Ht. split; auto.
Qed.

Lemma window_bounds_witness :
  In (start Demo.annual_fitter) (time_data Demo.annual_fitter) /\
  In (end_ Demo.annual_fitter) (time_data Demo.annual_fitter) /\
  Forall (fun t => start Demo.annual_fitter <= t /\ t <= end_ Demo.annual_fitter)
         (time_data Demo.annual_fitter).
Proof.
  exact (window_bounds _ _ _ _ _ _ annual_fitter_loaded).
Defined.

Lemma nth_map_seq (f : nat -> Q) (n i : nat) :
  (i < n)%nat -> nth i (map f (seq 0 n)) 0 = f i.
Proof.
  intros Hi. rewrite (nth_indep _ 0 (f 0%nat)) by (rewrite length_map, length_seq; lia).
  rewrite map_nth, seq_nth by lia. reflexivity.
Qed.

Lemma annual_grid_span (s e : Q) :
  s <= e ->
  let n := length (annual_grid s e) in
  (1 <= n)%nat /\
  e <= s + Np.of_nat (n - 1) /\ s + Np.of_nat (n - 1) < e + 1.
Proof.
  intros Hse. unfold annual_grid. rewrite length_map, length_seq.
  set (x := (e + 1 - s) / 1). set (c := Qceiling x). cbv zeta.
  assert (Hx : x == e + 1 - s) by (unfold x; field).
  assert (Hc : (1 <= c)%Z).
  { rewrite <- (Qceiling_Z 1). apply Qceiling_resp_le. rewrite Hx.
    unfold inject_Z. lra. }
  pose proof (Qle_ceiling x) as Hup. pose proof (Qceiling_lt x) as Hlo.
  fold c in Hup, Hlo.
  assert (Hn : Np.of_nat (Z.to_nat c - 1) = inject_Z (c - 1)).
  { unfold Np.of_nat. f_equal. lia. }
  rewrite Hn. split; [lia|].
  replace c with (c - 1 + 1)%Z in Hup by lia. rewrite inject_Z_plus in Hup.
  change (inject_Z 1) with 1 in Hup. rewrite Hx in Hup, Hlo. split; lra.
Qed.

(** X3: For calendar-year observations the annual grid holds every year of
    the window once, from [start] to [end]: it has [end - start + 1] points,
    the i-th being [start + i]. *)
Theorem annual_grid_shape (data : list row) (res : Z) (fg : Q) (os no : Z)
    (self : CarbonFitter) :
  load_data data res fg os no = Ok self ->
  calendar_years (time_data self) = true ->
  let n := length (annual self) in
  Np.of_nat n == end_ self - start self + 1 /\
  (forall i, (i < n)%nat -> nth i (annual self) 0 == start self + Np.of_nat i) /\
  nth (n - 1) (annual self) 0 == end_ self.
Proof.
  intros Hl Hcal.
  apply load_data_inv in Hl as (s & e & b & tf & Hs & He & _ & _ & ->).
  cbv zeta. cbn [start end_ annual time_data] in *.
  pose proof (calendar_whole_years _ _ Hs Hcal) as Hwhole.
  rewrite (annual_grid_whole s e _ Hs He Hwhole).
  rewrite length_map, length_seq.
  pose proof (years_after_exact s _ Hs Hwhole e (proj1 (nanmax_spec _ _ He)))
    as Hend.
  set (k := years_after s e) in *.
  assert (Hk : Np.of_nat (S k) == Np.of_nat k + 1).
  { unfold Np.of_nat. rewrite Nat2Z.inj_succ. unfold Z.succ.
    rewrite inject_Z_plus. reflexivity. }
  split; [rewrite Hk, Hend; ring|]. split.
  - intros i Hi. rewrite nth_map_seq by exact Hi. ring.
  - replace (S k - 1)%nat with k by lia.
    rewrite nth_map_seq by lia. rewrite Hend. reflexivity.
Qed.

Lemma annual_grid_shape_witness :
  Np.of_nat (length (annual Demo.annual_fitter))
  == end_ Demo.annual_fitter - start Demo.annual_fitter + 1 /\
  nth 2 (annual Demo.annual_fitter) 0
  == start Demo.annual_fitter + Np.of_nat 2 /\
  nth 3 (annual Demo.annual_fitter) 0 == end_ Demo.annual_fitter.
Proof.
  destruct (annual_grid_shape _ _ _ _ _ _ annual_fitter_loaded)
    as (Hn & Hnth & Hlast); [vm_compute; reflexivity|].
  split; [exact Hn|]. split; [apply Hnth; vm_compute; lia | exact Hlast].
Defined.

(** X4: The burn-in grid has [resolution] points.  From two points on it runs
    from [start - 1000] to [start] in equal steps; a single point sits at
    [start - 1000]. *)
Theorem burn_in_grid (data : list row) (res : Z) (fg : Q) (os no : Z)
    (self : CarbonFitter) :
  load_data data res fg os no = Ok self ->
  length (burn_in_time self) = Z.to_nat res /\
  (res = 1%Z -> burn_in_time self = [start self - 1000]) /\
  ((2 <= res)%Z ->
   (forall i, (i < Z.to_nat res)%nat ->
      nth i (burn_in_time self) 0
      == start self - 1000 + Np.of_nat i * (1000 / inject_Z (res - 1))) /\
   nth 0 (burn_in_time self) 0 == start self - 1000 /\
   nth (Z.to_nat res - 1) (burn_in_time self) 0 == start self).
Proof.
  intros Hl.
  apply load_data_inv in Hl as (s & e & b & tf & _ & _ & Hb & _ & ->).
  cbn [start burn_in_time].
  split; [exact (linspace_length _ _ _ _ Hb)|].
  unfold Np.linspace in Hb.
  destruct (res <? 0)%Z; [discriminate|]. split.
  - intros ->. cbn in Hb. congruence.
  - intros Hres.
    replace (res =? 1)%Z with false in Hb by (symmetry; apply Z.eqb_neq; lia).
    injection Hb as <-.
    assert (Hstep : forall i, (i < Z.to_nat res)%nat ->
              nth i (map (fun i => s - 1000
                                   + Np.of_nat i * ((s - (s - 1000)) / inject_Z (res - 1)))
                         (seq 0 (Z.to_nat res))) 0
              == s - 1000 + Np.of_nat i * (1000 / inject_Z (res - 1))).
    { intros i Hi. rewrite nth_map_seq by exact Hi.
      assert (Hd : ~ inject_Z (res - 1) == 0).
      { change 0 with (inject_Z 0). rewrite inject_Z_injective. lia. }
      field. exact Hd. }
    split; [exact Hstep|]. split.
    + rewrite Hstep by lia. unfold Np.of_nat. cbn [Z.of_nat]. 
      change (inject_Z 0) with 0. ring.
    + rewrite Hstep by lia.
      assert (Hn : Np.of_nat (Z.to_nat res - 1) = inject_Z (res - 1)).
      { unfold Np.of_nat. f_equal. lia. }
      rewrite Hn.
      assert (Hd : ~ inject_Z (res - 1) == 0).
      { change 0 with (inject_Z 0). rewrite inject_Z_injective. lia. }
      field. exact Hd.
Qed.

Lemma burn_in_grid_witness :
  length (burn_in_time Demo.annual_fitter) = 10%nat /\
  nth 0 (burn_in_time Demo.annual_fitter) 0
  == start Demo.annual_fitter - 1000 /\
  nth 9 (burn_in_time Demo.annual_fitter) 0 == start Demo.annual_fitter.
Proof.
  destruct (burn_in_grid _ _ _ _ _ _ annual_fitter_loaded) as (Hlen & _ & Hgrid).
  destruct Hgrid as (_ & Hfirst & Hlast); [lia|].
  split; [exact Hlen|]. split; assumption.
Defined.

(** ** The mask never selects more than all observations but one *)

Lemma filter_orb_length {A} (f g : A -> bool) (l : list A) :
  (length (List.filter (fun x => f x || g x) l)
   <= length (List.filter f l) + length (List.filter g l))%nat.
Proof.
  induction l as [|a l IH]; [reflexivity|]. cbn [List.filter].
  destruct (f a), (g a); cbn [orb length]; lia.
Qed.

Lemma filter_at_most_one (f : nat -> bool) (a m : nat) :
  (forall i j, f i = true -> f j = true -> i = j) ->
  (length (List.filter f (seq a m)) <= 1)%nat.
Proof.
  intros Hinj. induction m as [|m IH]; [cbn; lia|].
  rewrite seq_S, List.filter_app, length_app. cbn [List.filter].
  destruct (f (a + m)%nat) eqn:E; cbn [length]; [|lia].
  destruct (List.filter f (seq a m)) as [|j r] eqn:Ej; [cbn; lia|].
  assert (Hj : In j (List.filter f (seq a m))) by (rewrite Ej; left; reflexivity).
  apply filter_In in Hj as [Hj Hfj]. apply in_seq in Hj.
  specialize (Hinj j (a + m)%nat Hfj E). lia.
Qed.

Lemma grid_point_injective (s : Q) (i j : nat) :
  s + Np.of_nat i * 1 == s + Np.of_nat j * 1 -> i = j.
Proof.
  intros H. apply Qplus_inj_l in H. rewrite !Qmult_1_r in H.
  unfold Np.of_nat in H. apply (proj1 (inject_Z_injective _ _)) in H. lia.
Qed.

(** Grid points hit by a list of times: at most one index per time. *)
Lemma grid_hits_le (s : Q) (m : nat) (l : list Q) :
  (length (List.filter (fun i => existsb (Qeq_bool (s + Np.of_nat i * 1)) l)
                       (seq 0 m))
   <= length l)%nat.
Proof.
  induction l as [|a l IH]; cbn [existsb length].
  - induction (seq 0 m) as [|i r IHr]; [reflexivity | exact IHr].
  - pose proof (filter_orb_length
                  (fun i => Qeq_bool (s + Np.of_nat i * 1) a)
                  (fun i => existsb (Qeq_bool (s + Np.of_nat i * 1)) l)
                  (seq 0 m)) as Hor.
    pose proof (filter_at_most_one
                  (fun i => Qeq_bool (s + Np.of_nat i * 1) a) 0 m) as Hone.
    assert ((length (List.filter (fun i => Qeq_bool (s + Np.of_nat i * 1) a)
                                 (seq 0 m)) <= 1)%nat).
    { apply Hone. intros i j Hi Hj. apply Qeq_bool_iff in Hi, Hj.
      apply (grid_point_injective s). rewrite Hi, Hj. reflexivity. }
    lia.
Qed.

Lemma existsb_below (g e : Q) (l : list Q) :
  g < e ->
  existsb (Qeq_bool g) l
  = existsb (Qeq_bool g) (List.filter (fun t => negb (Qle_bool e t)) l).
Proof.
  intros Hg. induction l as [|t l IH]; [reflexivity|].
  cbn [existsb List.filter].
  destruct (Qle_bool e t) eqn:E; cbn [negb existsb].
  - rewrite <- IH. apply Qle_bool_iff in E.
    destruct (Qeq_bool g t) eqn:E'; [|reflexivity].
    apply Qeq_bool_iff in E'. lra.
  - rewrite IH. reflexivity.
Qed.

Lemma mask_count_le (times : list Q) (s e : Q) :
  Np.nanmin times = Ok s -> Np.nanmax times = Ok e ->
  (Np.count_true (Np.slice_to (-1) (Np.in1d (annual_grid s e) times))
   <= length times - 1)%nat.
Proof.
  intros Hs He.
  destruct (annual_grid_span s e (nanmin_le_nanmax _ _ _ Hs He))
    as (Hn & _ & Hhi).
  unfold annual_grid in *. rewrite length_map, length_seq in Hn, Hhi.
  set (n := Z.to_nat (Qceiling ((e + 1 - s) / 1))) in *.
  unfold Np.in1d. rewrite map_map.
  replace n with (S (n - 1)) by lia. rewrite seq_S, map_app. cbn [map].
  rewrite slice_to_m1_snoc, count_true_map.
  set (below := List.filter (fun t => negb (Qle_bool e t)) times).
  rewrite (List.filter_ext_in _
             (fun i => existsb (Qeq_bool (s + Np.of_nat i * 1)) below)).
  - pose proof (grid_hits_le s (n - 1) below) as Hhits.
    assert (Hbelow : (length below + 1 <= length times)%nat).
    { pose proof (List.filter_length (fun t => negb (Qle_bool e t)) times) as Hsplit.
      fold below in Hsplit.
      assert (Hin : In e (List.filter
                            (fun t => negb (negb (Qle_bool e t))) times)).
      { apply filter_In. split; [apply (nanmax_spec _ _ He)|].
        rewrite negb_involutive. apply Qle_bool_iff, Qle_refl. }
      destruct (List.filter (fun t => negb (negb (Qle_bool e t))) times);
        [destruct Hin | cbn [length] in Hsplit; lia]. }
    lia.
  - intros i Hi. apply in_seq in Hi. apply existsb_below.
    assert (Hz : (Z.of_nat i + 1 <= Z.of_nat (n - 1))%Z) by lia.
    rewrite Zle_Qle, inject_Z_plus in Hz. change (inject_Z 1) with 1 in Hz.
    unfold Np.of_nat in *. lra.
Qed.

(** X6: For calendar-year observations, in any order and with years that
    repeat, the mask has at most as many [True] entries as there are
    observations but one. *)
Theorem mask_never_exceeds (data : list row) (res : Z) (fg : Q) (os no : Z)
    (self : CarbonFitter) :
  load_data data res fg os no = Ok self ->
  calendar_years (time_data self) = true ->
  (Np.count_true (mask self) <= length (time_data self) - 1)%nat.
Proof.
  intros Hl _.
  apply load_data_inv in Hl as (s & e & b & tf & Hs & He & _ & _ & ->).
  cbn [mask time_data]. apply mask_count_le; assumption.
Qed.

Lemma mask_never_exceeds_witness :
  (Np.count_true (mask Demo.repeated_fitter)
   <= length (time_data Demo.repeated_fitter) - 1)%nat.
Proof.
  apply (mask_never_exceeds _ _ _ _ _ _ repeated_fitter_loaded).
  vm_compute. reflexivity.
Defined.

(** ** How the likelihoods behave *)

Lemma sum_from_ge (l : list Q) (acc : Q) :
  Forall (fun v => 0 <= v) l -> acc <= fold_left Qplus l acc.
Proof.
  intros H. revert acc. induction H as [|v l Hv _ IH]; intros acc; cbn [fold_left].
  - apply Qle_refl.
  - specialize (IH (acc + v)). lra.
Qed.

(** Close a goal that bounds a multiple of a sum of squares by zero. *)
Ltac nonneg_chi2 :=
  match goal with
  | |- context [Np.sum (map ?f ?y)] =>
      let Hy := fresh "Hy" in
      assert (Hy : 0 <= Np.sum (map f y))
        by (unfold Np.sum; apply sum_from_ge; apply List.Forall_forall;
            let q := fresh "q" in let Hq := fresh "Hq" in let v := fresh "v" in
            intros q Hq; apply in_map_iff in Hq as (v & <- & _); nra);
      let c := fresh "c" in
      set (c := Np.sum (map f y)) in *; clearbody c; lra
  end.

Lemma flat_fitter_prepared :
  (self ← load_data Demo.flat_rows 10 (1 # 2) 5 2; prepare_function self ∅)
  = Ok Demo.flat_fitter.
Proof. vm_compute. reflexivity. Qed.

Lemma half_year_fitter_prepared :
  (self ← load_data Toy.half_year_rows 10 (1 # 2) 5 2; prepare_function self ∅)
  = Ok Demo.half_year_fitter.
Proof. vm_compute. reflexivity. Qed.

Lemma gappy_fitter_prepared :
  (self ← load_data Demo.gappy_rows 10 (1 # 2) 5 2; prepare_function self ∅)
  = Ok Demo.gappy_fitter.
Proof. vm_compute. reflexivity. Qed.

Section LikelihoodFacts.

Context (state : Type) (steady_state_y0 : state)
        (cbm_run : list Q -> CarbonFitter -> list Q -> state -> list state)
        (cbm_run_D_14_C_values :
           list Q -> Z -> CarbonFitter -> list Q -> state -> state -> list Q)
        (gp_condition : Q -> list Q -> Q -> list Q -> Q).

Local Abbreviation dc14 := (dc14 state steady_state_y0 cbm_run cbm_run_D_14_C_values).
Local Abbreviation loss_chi2 :=
  (loss_chi2 state steady_state_y0 cbm_run cbm_run_D_14_C_values).
Local Abbreviation loss_chi2_avg :=
  (loss_chi2_avg state steady_state_y0 cbm_run cbm_run_D_14_C_values).
Local Abbreviation log_like :=
  (log_like state steady_state_y0 cbm_run cbm_run_D_14_C_values).
Local Abbreviation log_prob :=
  (log_prob state steady_state_y0 cbm_run cbm_run_D_14_C_values).
Local Abbreviation gp_likelihood :=
  (gp_likelihood state steady_state_y0 cbm_run cbm_run_D_14_C_values gp_condition).
Local Abbreviation gp_likelihood_avg :=
  (gp_likelihood_avg state steady_state_y0 cbm_run cbm_run_D_14_C_values
                     gp_condition).

(** X7: An exception raised by the forward simulation comes out unchanged of
    every loss, likelihood and posterior built on it. *)
Theorem dc14_error_propagates (self : CarbonFitter) (params : list Q) (k : Q)
    (e : exn) :
  dc14 self params = Raise e ->
  loss_chi2 self params = Raise e /\
  loss_chi2_avg self params k = Raise e /\
  log_like self params = Raise e /\
  log_prob self params = Raise e /\
  gp_likelihood self params = Raise e /\
  gp_likelihood_avg self params k = Raise e.
Proof.
  intros H.
  assert (Hloss : loss_chi2 self params = Raise e)
    by (unfold loss_chi2; rewrite H; reflexivity).
  assert (Hlike : log_like self params = Raise e)
    by (unfold log_like; rewrite H; reflexivity).
  repeat split.
  - exact Hloss.
  - unfold loss_chi2_avg. rewrite H. reflexivity.
  - exact Hlike.
  - unfold log_prob. rewrite Hlike. reflexivity.
  - unfold gp_likelihood. rewrite Hloss. reflexivity.
  - unfold gp_likelihood_avg. rewrite Hloss. reflexivity.
Qed.

(** X8: On loaded data with no zero uncertainty and an offset averaged over
    at least one value, the loss is never negative and the log-likelihood
    never positive. *)
Theorem loss_chi2_nonneg (data : list row) (res : Z) (fg : Q) (os no : Z)
    (kwargs : gmap string pyval) (self0 self : CarbonFitter) (params : list Q) :
  load_data data res fg os no = Ok self0 ->
  prepare_function self0 kwargs = Ok self ->
  no_zero_division data no ->
  (forall v, loss_chi2 self params = Ok v -> 0 <= v) /\
  (forall w, log_like self params = Ok w -> w <= 0).
Proof.
  intros _ _ _. split; intros v H.
  - unfold loss_chi2 in H.
    destruct (dc14 self params) as [d|]; [|discriminate].
    cbn [mbind result_bind] in H.
    destruct (Np.sub _ d) as [x|]; [|discriminate]. cbn [mbind result_bind] in H.
    destruct (Np.div x _) as [y|]; [|discriminate]. cbn [mbind result_bind] in H.
    injection H as <-. nonneg_chi2.
  - unfold log_like in H.
    destruct (dc14 self params) as [d|]; [|discriminate].
    cbn [mbind result_bind] in H.
    destruct (Np.sub _ d) as [x|]; [|discriminate]. cbn [mbind result_bind] in H.
    destruct (Np.div x _) as [y|]; [|discriminate]. cbn [mbind result_bind] in H.
    injection H as <-. nonneg_chi2.
Qed.

(** X9: On loaded data with no zero uncertainty and an offset averaged over
    at least one value, the prior is a hard constraint on the posterior: one
    parameter at or below zero makes it minus infinity whatever the fit, and
    with all parameters positive the posterior is the log-likelihood. *)
Theorem log_prob_hard_constraint (data : list row) (res : Z) (fg : Q)
    (os no : Z) (kwargs : gmap string pyval) (self0 self : CarbonFitter)
    (params : list Q) (like : Q) :
  load_data data res fg os no = Ok self0 ->
  prepare_function self0 kwargs = Ok self ->
  no_zero_division data no ->
  log_like self params = Ok like ->
  (Exists (fun p => p <= 0) params -> log_prob self params = Ok NegInf) /\
  (Forall (fun p => 0 < p) params ->
   exists v, log_prob self params = Ok (Fin v) /\ v == like).
Proof.
  intros _ _ _ Hlike. unfold log_prob. rewrite Hlike. cbn [mbind result_bind].
  unfold log_prior. split; intros Hp.
  - rewrite (fold_prior_nonpositive params (Fin 0) Hp). reflexivity.
  - rewrite (fold_prior_positive params Hp). cbn [xadd].
    eexists. split; [reflexivity|]. ring.
Qed.

End LikelihoodFacts.

Lemma dc14_error_propagates_witness :
  Toy.loss_chi2 Demo.annual_fitter [1; 2] = Raise MissingAttribute /\
  Toy.gp_likelihood_avg Demo.annual_fitter [1; 2] 2 = Raise MissingAttribute.
Proof.
  destruct (dc14_error_propagates Toy.state Toy.steady_state_y0 Toy.run
              Toy.run_D_14_C_values Toy.gp_condition Demo.annual_fitter [1; 2] 2
              MissingAttribute) as (H1 & _ & _ & _ & _ & H6);
    [vm_compute; reflexivity|].
  split; assumption.
Defined.

Lemma annual_rows_no_zero_division : no_zero_division Toy.annual_rows 2.
Proof.
  split; [vm_compute; discriminate|].
  repeat constructor; vm_compute; discriminate.
Qed.

Lemma log_prob_hard_constraint_witness :
  Toy.log_prob Demo.burst_fitter [3; 0] = Ok NegInf /\
  exists v, Toy.log_prob Demo.burst_fitter [3; 1] = Ok (Fin v).
Proof.
  split.
  - destruct (Toy.log_like Demo.burst_fitter [3; 0]) as [like|] eqn:E;
      [|vm_compute in E; discriminate].
    apply (log_prob_hard_constraint Toy.state Toy.steady_state_y0 Toy.run
             Toy.run_D_14_C_values _ _ _ _ _ _ _ _ [3; 0] like
             annual_fitter_loaded burst_fitter_prepared
             annual_rows_no_zero_division E).
    apply Exists_cons_tl, Exists_cons_hd. discriminate.
  - destruct (Toy.log_like Demo.burst_fitter [3; 1]) as [like|] eqn:E;
      [|vm_compute in E; discriminate].
    destruct (log_prob_hard_constraint Toy.state Toy.steady_state_y0 Toy.run
                Toy.run_D_14_C_values _ _ _ _ _ _ _ _ [3; 1] like
                annual_fitter_loaded burst_fitter_prepared
                annual_rows_no_zero_division E)
      as [_ Hpos].
    destruct Hpos as (v & Hv & _); [repeat constructor|]. eauto.
Defined.

Lemma loss_chi2_nonneg_witness :
  exists v, Toy.loss_chi2 Demo.burst_fitter [1; 2] = Ok v /\ 0 <= v.
Proof.
  destruct (Toy.loss_chi2 Demo.burst_fitter [1; 2]) as [v|] eqn:E;
    [|vm_compute in E; discriminate].
  exists v. split; [reflexivity|].
  exact (proj1 (loss_chi2_nonneg Toy.state Toy.steady_state_y0 Toy.run
                  Toy.run_D_14_C_values _ _ _ _ _ _ _ _ [1; 2]
                  annual_fitter_loaded burst_fitter_prepared
                  annual_rows_no_zero_division) v E).
Defined.

(** ** Bounds on the length of the simulated curve *)

Lemma slice_to_m1_cons {A} (a b : A) (l : list A) :
  Np.slice_to (-1) (a :: b :: l) = a :: Np.slice_to (-1) (b :: l).
Proof.
  unfold Np.slice_to. cbn [Z.leb Z.compare length].
  change (Z.to_nat (- (-1))) with 1%nat.
  replace (S (S (length l)) - 1)%nat with (S (S (length l) - 1)) by lia.
  reflexivity.
Qed.

Lemma mask_head_true (times : list Q) (s e : Q) :
  Np.nanmin times = Ok s -> Np.nanmax times = Ok e -> s < e ->
  exists rest,
    Np.slice_to (-1) (Np.in1d (annual_grid s e) times) = true :: rest.
Proof.
  intros Hs He Hlt. unfold annual_grid.
  set (x := (e + 1 - s) / 1).
  assert (Hx : x == e + 1 - s) by (unfold x; field).
  pose proof (Qle_ceiling x) as Hup.
  assert (Hc : (2 <= Qceiling x)%Z).
  { destruct (Z.lt_ge_cases (Qceiling x) 2) as [Hsmall|]; [|assumption].
    assert (Hle : inject_Z (Qceiling x) <= inject_Z 1)
      by (rewrite <- Zle_Qle; lia).
    change (inject_Z 1) with 1 in Hle. lra. }
  destruct (Z.to_nat (Qceiling x)) as [|[|n]] eqn:En; [lia | lia |].
  cbn [seq map Np.in1d]. rewrite slice_to_m1_cons.
  assert (Hhit : existsb (Qeq_bool (s + Np.of_nat 0 * 1)) times = true).
  { apply existsb_exists. exists s. split; [apply (nanmin_spec _ _ Hs)|].
    apply Qeq_bool_iff. unfold Np.of_nat. cbn [Z.of_nat].
    change (inject_Z 0) with 0. ring. }
  rewrite Hhit. eauto.
Qed.

Lemma broadcast2_scalar_r (f : Q -> Q -> Q) (x : list Q) (v : Q) :
  length x <> 1%nat -> Np.broadcast2 f x [v] = Ok (map (fun a => f a v) x).
Proof.
  intros H. unfold Np.broadcast2.
  replace (length x =? length [v])%nat with false
    by (symmetry; apply Nat.eqb_neq; exact H).
  destruct x as [|a [|b x]]; cbn [length] in H; try lia; reflexivity.
Qed.

Lemma broadcast2_mismatch (f : Q -> Q -> Q) (x y : list Q) :
  length x <> length y -> length x <> 1%nat -> length y <> 1%nat ->
  Np.broadcast2 f x y = Raise ShapeMismatch.
Proof.
  intros H Hx Hy. unfold Np.broadcast2.
  replace (length x =? length y)%nat with false
    by (symmetry; apply Nat.eqb_neq; exact H).
  destruct x as [|a [|b x]], y as [|c [|d y]]; cbn [length] in *;
    try lia; reflexivity.
Qed.

Section SimulationFacts.

Context (state : Type) (steady_state_y0 : state)
        (cbm_run : list Q -> CarbonFitter -> list Q -> state -> list state)
        (cbm_run_D_14_C_values :
           list Q -> Z -> CarbonFitter -> list Q -> state -> state -> list Q).

Local Abbreviation dc14 := (dc14 state steady_state_y0 cbm_run cbm_run_D_14_C_values).
Local Abbreviation loss_chi2 :=
  (loss_chi2 state steady_state_y0 cbm_run cbm_run_D_14_C_values).

Local Abbreviation box_model_contract :=
  (box_model_contract state cbm_run cbm_run_D_14_C_values).

Lemma dc14_returns (data : list row) (res : Z) (fg : Q) (os no : Z)
    (kwargs : gmap string pyval) (self0 self : CarbonFitter) (params : list Q) :
  box_model_contract ->
  load_data data res fg os no = Ok self0 ->
  prepare_function self0 kwargs = Ok self ->
  (1 <= res)%Z ->
  exists curve,
    dc14 self params = Ok curve /\
    length curve = Np.count_true (mask self).
Proof.
  intros [Hrun HrunD] Hl Hp Hres.
  destruct (loaded_mask _ _ _ _ _ _ Hl) as [Hmask _].
  pose proof Hl as Hinv.
  apply load_data_inv in Hinv as (s & e & b & tf & _ & _ & Hb & _ & E0).
  apply linspace_length in Hb.
  apply prepare_function_inv in Hp as (p & cpt & ->).
  set (self := with_production self0 (Some p) cpt).
  assert (Hburn : length (burn_in_time self) = Z.to_nat res)
    by (subst self0; exact Hb).
  assert (Hprod : production self = Some p) by reflexivity.
  assert (Hgrid : length (mask self) = (length (annual self) - 1)%nat)
    by exact Hmask.
  clearbody self. clear Hmask.
  unfold dc14, run, run_D_14_C_values. rewrite Hprod.
  cbn [attribute mbind result_bind].
  destruct (cbm_run (burn_in_time self) self params steady_state_y0)
    as [|y0 burn_in] eqn:Eburn.
  { apply (f_equal (@length _)) in Eburn. rewrite Hrun, Hburn in Eburn.
    cbn [length] in Eburn. lia. }
  cbn [Np.last_item mbind result_bind].
  destruct (bool_index_length
              (cbm_run_D_14_C_values (annual self) (time_oversample self) self
                 params (List.last burn_in y0) steady_state_y0) (mask self))
    as (sel & Hsel & Hlen).
  { rewrite HrunD. symmetry. exact Hgrid. }
  rewrite Hsel. cbn [mbind result_bind].
  eexists. split; [reflexivity|]. rewrite length_map. exact Hlen.
Qed.

(** X10: For calendar-year observations, in any order and with years that
    repeat, the simulated curve is never longer than the observations
    without the last, and it has at least one entry as soon as the window
    spans more than one year. *)
Theorem dc14_length_bounds (data : list row) (res : Z) (fg : Q) (os no : Z)
    (kwargs : gmap string pyval) (self0 self : CarbonFitter) (params : list Q) :
  box_model_contract ->
  load_data data res fg os no = Ok self0 ->
  prepare_function self0 kwargs = Ok self ->
  (1 <= res)%Z ->
  calendar_years (time_data self) = true ->
  exists curve,
    dc14 self params = Ok curve /\
    (length curve <= length (time_data self) - 1)%nat /\
    (start self < end_ self -> (1 <= length curve)%nat).
Proof.
  intros Hbox Hl Hp Hres _.
  destruct (dc14_returns _ _ _ _ _ _ _ _ params Hbox Hl Hp Hres)
    as (curve & Hcurve & Hlen).
  exists curve. split; [exact Hcurve|]. rewrite Hlen.
  apply prepare_function_inv in Hp as (p & cpt & ->).
  cbn [mask time_data start end_ with_production].
  apply load_data_inv in Hl as (s & e & b & tf & Hs & He & _ & _ & ->).
  cbn [mask time_data start end_]. split.
  - apply mask_count_le; assumption.
  - intros Hlt. destruct (mask_head_true _ _ _ Hs He Hlt) as [rest ->].
    unfold Np.count_true. cbn [List.filter length]. lia.
Qed.

(** X11: A simulated curve with a single entry is stretched silently over all
    compared observations; any other curve of the wrong length is a shape
    error (with at least three observations). *)
Theorem loss_chi2_misaligned (self : CarbonFitter) (params sim : list Q) :
  length (d14c_data_error self) = length (d14c_data self) ->
  (3 <= length (d14c_data self))%nat ->
  dc14 self params = Ok sim ->
  (forall v, sim = [v] ->
     loss_chi2 self params
     = Ok ((1 # 2)
           * Np.sum (map (fun i => ((nth i (d14c_data self) 0 - v)
                                      / nth i (d14c_data_error self) 0) ^ 2)
                         (seq 0 (length (d14c_data self) - 1))))) /\
  (length sim <> 1%nat ->
   length sim <> (length (d14c_data self) - 1)%nat ->
   loss_chi2 self params = Raise ShapeMismatch).
Proof.
  intros Herr Hobs Hsim. unfold loss_chi2. rewrite Hsim.
  cbn [mbind result_bind].
  set (obs := Np.slice_to (-1) (d14c_data self)).
  set (unc := Np.slice_to (-1) (d14c_data_error self)).
  assert (Hlo : length obs = (length (d14c_data self) - 1)%nat)
    by apply slice_to_m1_length.
  assert (Hlu : length unc = length obs)
    by (unfold unc; rewrite slice_to_m1_length; lia).
  split.
  - intros v ->. unfold Np.sub.
    rewrite broadcast2_scalar_r by lia. cbn [mbind result_bind]. unfold Np.div.
    rewrite broadcast2_same_length by (rewrite length_map; lia).
    cbn [mbind result_bind]. do 2 f_equal.
    rewrite (map_nth_seq (fun x => x ^ 2)).
    rewrite zip_with_length by (rewrite length_map; lia).
    rewrite length_map, Hlo. f_equal.
    apply map_ext_in. intros i Hi. apply in_seq in Hi.
    rewrite zip_with_nth by (rewrite ?length_map; lia).
    rewrite (nth_indep _ 0 ((fun a => a - v) 0)) by (rewrite length_map; lia).
    rewrite (map_nth (fun a => a - v)).
    unfold obs, unc. rewrite !slice_to_m1_nth by lia.
    reflexivity.
  - intros H1 Hm. unfold Np.sub.
    rewrite broadcast2_mismatch by lia. reflexivity.
Qed.

End SimulationFacts.

Lemma toy_box_model : box_model_contract Toy.state Toy.run Toy.run_D_14_C_values.
Proof.
  split.
  - intros times f args y0. unfold Toy.run. apply length_map.
  - intros times k f args y0 ss. unfold Toy.run_D_14_C_values.
    rewrite length_map. apply slice_to_m1_length.
Qed.

Lemma dc14_length_bounds_witness :
  exists curve,
    Toy.dc14 Demo.repeated_burst_fitter [1; 2] = Ok curve /\
    (length curve <= length (time_data Demo.repeated_burst_fitter) - 1)%nat /\
    (1 <= length curve)%nat.
Proof.
  destruct (dc14_length_bounds Toy.state Toy.steady_state_y0 Toy.run
              Toy.run_D_14_C_values _ _ _ _ _ _ _ _ [1; 2] toy_box_model
              repeated_fitter_loaded repeated_burst_fitter_prepared)
    as (curve & Hcurve & Hle & Hge); [lia | vm_compute; reflexivity |].
  exists curve. split; [exact Hcurve|]. split; [exact Hle|].
  apply Hge. reflexivity.
Defined.

Lemma loss_chi2_misaligned_witness :
  (exists loss, Toy.loss_chi2 Demo.half_year_fitter [1; 2] = Ok loss) /\
  Toy.loss_chi2 Demo.gappy_fitter [1; 2] = Raise ShapeMismatch.
Proof.
  split.
  - edestruct (loss_chi2_misaligned Toy.state Toy.steady_state_y0 Toy.run
                 Toy.run_D_14_C_values Demo.half_year_fitter [1; 2])
      as [Hone _]; [reflexivity | vm_compute; lia | vm_compute; reflexivity |].
    eexists. apply Hone. reflexivity.
  - edestruct (loss_chi2_misaligned Toy.state Toy.steady_state_y0 Toy.run
                 Toy.run_D_14_C_values Demo.gappy_fitter [1; 2])
      as [_ Hbad]; [reflexivity | vm_compute; lia | vm_compute; reflexivity |].
    apply Hbad; vm_compute; lia.
Defined.

(** ** A zero loss is a perfect fit *)

Lemma sum_zero_iff (l : list Q) (acc : Q) :
  Forall (fun v => 0 <= v) l ->
  (fold_left Qplus l acc == acc <-> Forall (fun v => v == 0) l).
Proof.
  intros H. revert acc. induction H as [|v l Hv Hl IH]; intros acc;
    cbn [fold_left].
  - split; [constructor | reflexivity].
  - pose proof (sum_from_ge l (acc + v) Hl) as Hge. split.
    + intros Heq. assert (Hv0 : v == 0) by lra.
      constructor; [exact Hv0|]. apply (IH (acc + v)). lra.
    + intros Hall. inversion Hall as [|? ? Hv0 Hl0]; subst.
      apply (IH (acc + v)) in Hl0. lra.
Qed.

Section PerfectFit.

Context (state : Type) (steady_state_y0 : state)
        (cbm_run : list Q -> CarbonFitter -> list Q -> state -> list state)
        (cbm_run_D_14_C_values :
           list Q -> Z -> CarbonFitter -> list Q -> state -> state -> list Q).

Local Abbreviation dc14 := (dc14 state steady_state_y0 cbm_run cbm_run_D_14_C_values).
Local Abbreviation loss_chi2 :=
  (loss_chi2 state steady_state_y0 cbm_run cbm_run_D_14_C_values).

(** X12: With positive uncertainties and an aligned curve, the loss is zero
    exactly when the simulation equals the observation at every compared
    point. *)
Theorem loss_chi2_zero_iff (self : CarbonFitter) (params sim : list Q) :
  length (d14c_data_error self) = length (d14c_data self) ->
  Forall (fun u => 0 < u) (d14c_data_error self) ->
  dc14 self params = Ok sim ->
  length sim = (length (d14c_data self) - 1)%nat ->
  exists loss,
    loss_chi2 self params = Ok loss /\
    (loss == 0 <->
     forall i, (i < length sim)%nat -> nth i sim 0 == nth i (d14c_data self) 0).
Proof.
  intros Herr Hpos Hsim Hlen.
  destruct (chi2_aligned self sim Herr Hlen) as (x & y & Hx & Hy & Hsum).
  unfold loss_chi2. rewrite Hsim. cbn [mbind result_bind].
  rewrite Hx. cbn [mbind result_bind]. rewrite Hy. cbn [mbind result_bind].
  rewrite Hsum. eexists. split; [reflexivity|].
  unfold chi2_sum, Np.sum.
  set (term := fun i => ((nth i (d14c_data self) 0 - nth i sim 0)
                           / nth i (d14c_data_error self) 0) ^ 2).
  assert (Hnn : Forall (fun v => 0 <= v)
                  (map term (seq 0 (length (d14c_data self) - 1)))).
  { apply List.Forall_forall. intros q Hq.
    apply in_map_iff in Hq as (i & <- & _). unfold term. nra. }
  pose proof (sum_zero_iff _ 0 Hnn) as Hz.
  assert (Hterm : forall i, (i < length sim)%nat ->
            (term i == 0 <-> nth i sim 0 == nth i (d14c_data self) 0)).
  { intros i Hi. unfold term.
    assert (Hu : 0 < nth i (d14c_data_error self) 0).
    { rewrite List.Forall_forall in Hpos. apply Hpos, nth_In. lia. }
    set (o := nth i (d14c_data self) 0) in *.
    set (m := nth i sim 0) in *.
    set (u := nth i (d14c_data_error self) 0) in *.
    assert (Hdiv : (o - m) / u * u == o - m) by (field; lra).
    split.
    - intros Hsq. assert (Hq : (o - m) / u == 0) by nra.
      rewrite Hq in Hdiv. lra.
    - intros Heq. assert (Hq : (o - m) / u == 0).
      { assert (Hom : o - m == 0) by lra. rewrite Hom. field. lra. }
      rewrite Hq. reflexivity. }
  split.
  - intros Hloss i Hi. apply Hterm; [exact Hi|].
    assert (Hs : fold_left Qplus
                   (map term (seq 0 (length (d14c_data self) - 1))) 0 == 0)
      by lra.
    apply Hz in Hs. rewrite List.Forall_forall in Hs. apply Hs.
    apply in_map, in_seq. lia.
  - intros Hfit.
    assert (Hs : fold_left Qplus
                   (map term (seq 0 (length (d14c_data self) - 1))) 0 == 0).
    { apply Hz. apply List.Forall_forall. intros q Hq.
      apply in_map_iff in Hq as (i & <- & Hi). apply in_seq in Hi.
      apply Hterm; [lia|]. apply Hfit. lia. }
    rewrite Hs. reflexivity.
Qed.

End PerfectFit.

Lemma loss_chi2_zero_iff_witness :
  exists loss, Toy.loss_chi2 Demo.flat_fitter [] = Ok loss /\ loss == 0.
Proof.
  edestruct (loss_chi2_zero_iff Toy.state Toy.steady_state_y0 Toy.run
               Toy.run_D_14_C_values Demo.flat_fitter [])
    as (loss & Hloss & Hiff).
  - reflexivity.
  - repeat constructor.
  - vm_compute. reflexivity.
  - reflexivity.
  - exists loss. split; [exact Hloss|]. apply Hiff.
    intros [|[|i]] Hi; cbn [length] in Hi; try lia; reflexivity.
Defined.

(** ** What [prepare_function] keeps and what it binds *)

Lemma prepare_function_unfold (self : CarbonFitter) (kwargs : gmap string pyval)
    (self' : CarbonFitter) :
  prepare_function self kwargs = Ok self' ->
  exists p cpt,
    self' = with_production self (Some p) cpt /\
    (kwargs !! "use_control_points"%string <> Some (PyBool true) ->
     cpt = control_points_time self).
Proof.
  unfold prepare_function. intros H.
  destruct (is_True (default (PyBool false) (kwargs !! "use_control_points"%string)))
    eqn:Hucp.
  - apply is_True_default in Hucp.
    match type of H with mbind _ ?m = _ => destruct m as [[p cpt]|e] end;
      cbn [mbind result_bind fst snd] in H; [|discriminate].
    injection H as <-. destruct p as [p|]; eexists _, _;
      (split; [reflexivity | intros Hno; contradiction]).
  - cbn [mbind result_bind fst snd] in H. injection H as <-.
    match goal with
    | |- context [with_production _ (match ?o with Some _ => _ | None => _ end) _] =>
        destruct o
    end; eexists _, _; (split; [reflexivity | intros _; reflexivity]).
Qed.

(** X13: [prepare_function] never touches the loaded data and grids; without
    [use_control_points] it also leaves [control_points_time] as it was. *)
Theorem prepare_function_frame (self : CarbonFitter)
    (kwargs : gmap string pyval) (self' : CarbonFitter) :
  prepare_function self kwargs = Ok self' ->
  (time_data self', d14c_data self', d14c_data_error self')
  = (time_data self, d14c_data self, d14c_data_error self) /\
  (start self', end_ self', offset self', resolution self', time_oversample self')
  = (start self, end_ self, offset self, resolution self, time_oversample self) /\
  (burn_in_time self', time_grid_fine self', annual self', mask self')
  = (burn_in_time self, time_grid_fine self, annual self, mask self) /\
  (kwargs !! "use_control_points"%string <> Some (PyBool true) ->
   control_points_time self' = control_points_time self).
Proof.
  intros H. apply prepare_function_unfold in H as (p & cpt & -> & Hcpt).
  repeat split. exact Hcpt.
Qed.

Lemma prepare_function_frame_witness :
  control_points_time Demo.burst_fitter = control_points_time Demo.annual_fitter /\
  mask Demo.burst_fitter = mask Demo.annual_fitter.
Proof.
  destruct (prepare_function_frame _ _ _ burst_fitter_prepared)
    as (_ & _ & Hgrids & Hcpt).
  split; [apply Hcpt; vm_compute; discriminate|].
  congruence.
Defined.

(** X14: Configuring again with the same keywords changes nothing. *)
Theorem prepare_function_idempotent (self : CarbonFitter)
    (kwargs : gmap string pyval) (self' : CarbonFitter) :
  prepare_function self kwargs = Ok self' ->
  prepare_function self' kwargs = Ok self'.
Proof.
  intros H. pose proof H as Hinv.
  apply prepare_function_inv in Hinv as (p & cpt & ->).
  revert H. unfold prepare_function.
  change (linear_control_points (with_production self (Some p) cpt))
    with (linear_control_points self).
  cbn [annual control_points_time with_production].
  destruct (is_True (default (PyBool false) (kwargs !! "use_control_points"%string))).
  - destruct (eq_str (default (PyStr "linear") (kwargs !! "interp"%string)) "linear").
    + destruct (linear_control_points self _ _) as [c|]; [|discriminate].
      cbn [mbind result_bind fst snd]. intros [= Hp Hc].
      rewrite Hp, Hc. reflexivity.
    + destruct (eq_str (default (PyStr "linear") (kwargs !! "interp"%string)) "gp").
      * cbn [mbind result_bind fst snd]. intros [= Hp Hc].
        rewrite Hp, Hc. reflexivity.
      * cbn [mbind result_bind fst snd]. intros [= Hp Hc].
        rewrite Hp, <- Hc. reflexivity.
  - cbn [mbind result_bind fst snd]. intros [= Hp Hc].
    rewrite Hp, <- Hc. reflexivity.
Qed.

Lemma prepare_function_idempotent_witness :
  prepare_function Demo.linear_fitter
    (<["use_control_points"%string := PyBool true]> ∅) = Ok Demo.linear_fitter.
Proof.
  exact (prepare_function_idempotent _ _ _ linear_fitter_prepared).
Defined.

Lemma eq_str_default (o : option pyval) (d : pyval) (s : string) :
  eq_str d s = false ->
  (eq_str (default d o) s = true <-> o = Some (PyStr s)).
Proof.
  intros Hd. split.
  - destruct o as [v|]; cbn [default]; [|congruence].
    destruct v; cbn [eq_str]; try discriminate.
    intros E. apply String.eqb_eq in E. congruence.
  - intros ->. cbn [default eq_str]. apply String.eqb_refl.
Qed.

(** X15: Without control points and without a usable custom function, the burst
    model is bound: with free solar parameters only for
    [production = "miyake"] together with a true [fit_solar], with the fixed
    solar cycle in every other case, also when nothing was asked for. *)
Theorem burst_model_selection (self : CarbonFitter) (kwargs : gmap string pyval) :
  kwargs !! "use_control_points"%string <> Some (PyBool true) ->
  (kwargs !! "custom_function"%string <> Some (PyBool true) \/
   kwargs !! "f"%string = None \/ kwargs !! "f"%string = Some PyNone) ->
  exists self' p,
    prepare_function self kwargs = Ok self' /\
    production self' = Some p /\
    (kwargs !! "production"%string = Some (PyStr "miyake") ->
     kwargs !! "fit_solar"%string = Some (PyBool true) ->
     p = miyake_event_flexible_solar) /\
    (kwargs !! "fit_solar"%string <> Some (PyBool true) ->
     p = miyake_event_fixed_solar) /\
    (kwargs !! "production"%string <> Some (PyStr "miyake") ->
     p = miyake_event_fixed_solar).
Proof.
  intros Hucp Hcustom. unfold prepare_function.
  destruct (is_True (default (PyBool false) (kwargs !! "use_control_points"%string)))
    eqn:Eucp; [apply is_True_default in Eucp; contradiction|].
  cbn [mbind result_bind fst snd].
  assert (Hnc : is_True (fst (custom_function_and_f kwargs))
                && is_not_None (snd (custom_function_and_f kwargs)) = false).
  { unfold custom_function_and_f.
    destruct (kwargs !! "custom_function"%string) as [c|] eqn:Ec;
      [|reflexivity].
    destruct (kwargs !! "f"%string) as [f|] eqn:Ef; [|reflexivity].
    cbn [fst snd]. destruct Hcustom as [Hc | [Hf | Hf]]; try discriminate.
    - destruct c as [| [|] | | |]; try reflexivity. congruence.
    - injection Hf as ->. apply andb_false_r. }
  rewrite Hnc.
  pose proof (eq_str_default (kwargs !! "production"%string) PyNone "miyake"
                eq_refl) as Hm.
  pose proof (is_True_default (kwargs !! "fit_solar"%string)) as Hfs.
  destruct (eq_str (default PyNone (kwargs !! "production"%string)) "miyake")
    eqn:Em;
  destruct (is_True (default (PyBool false) (kwargs !! "fit_solar"%string)))
    eqn:Efs;
  eexists _, _; (split; [reflexivity|]); (split; [reflexivity|]);
  repeat split; intros; try reflexivity; exfalso.
  - match goal with H : _ <> _ |- _ => apply H end. apply Hfs. reflexivity.
  - match goal with H : _ <> _ |- _ => apply H end. apply Hm. reflexivity.
  - assert (false = true) by (apply Hfs; assumption). discriminate.
  - assert (false = true) by (apply Hm; assumption). discriminate.
  - assert (false = true) by (apply Hm; assumption). discriminate.
Qed.

Lemma burst_model_selection_witness :
  production Demo.burst_fitter = Some miyake_event_fixed_solar.
Proof.
  destruct (burst_model_selection Demo.annual_fitter ∅)
    as (self' & p & Hprep & Hprod & _ & _ & Hdefault).
  - vm_compute. discriminate.
  - left. vm_compute. discriminate.
  - rewrite burst_fitter_prepared in Hprep. injection Hprep as <-.
    rewrite Hprod. f_equal. apply Hdefault. vm_compute. discriminate.
Defined.

(** ** The control points of the linear variant *)

Lemma spaced_increasing (d g : Q) (times : list Q) :
  0 <= d -> 0 < g ->
  forall last,
    Forall (Qlt last) (spaced d g last times) /\
    StronglySorted Qlt (spaced d g last times).
Proof.
  intros Hd Hg. induction times as [|t times IH]; intros last; cbn [spaced].
  - split; constructor.
  - cbv zeta.
    destruct (negb (Qle_bool (t - last) 0) && Qle_bool (t - last) 2) eqn:E1.
    + apply andb_true_iff in E1 as [Hpos _]. apply negb_true_iff in Hpos.
      assert (Hlt : last < t + d).
      { destruct (Qlt_le_dec 0 (t - last)) as [H|H]; [lra|].
        apply Qle_bool_iff in H. congruence. }
      destruct (IH (t + d)) as [Hall Hsorted]. split.
      * constructor; [exact Hlt|].
        apply List.Forall_forall. intros c Hc.
        rewrite List.Forall_forall in Hall. specialize (Hall c Hc). lra.
      * constructor; assumption.
    + destruct (Qle_bool g (t - last)) eqn:E2.
      * apply Qle_bool_iff in E2. assert (Hlt : last < t) by lra.
        destruct (IH t) as [Hall Hsorted]. split.
        -- constructor; [exact Hlt|].
           apply List.Forall_forall. intros c Hc.
           rewrite List.Forall_forall in Hall. specialize (Hall c Hc). lra.
        -- constructor; assumption.
      * apply IH.
Qed.

Lemma spaced_length (d g last : Q) (times : list Q) :
  (length (spaced d g last times) <= length times)%nat.
Proof.
  revert last. induction times as [|t times IH]; intros last; cbn [spaced length].
  - lia.
  - cbv zeta. destruct (negb _ && _).
    + cbn [length]. specialize (IH (t + d)). lia.
    + destruct (Qle_bool g _).
      * cbn [length]. specialize (IH t). lia.
      * specialize (IH last). lia.
Qed.

Lemma filter_StronglySorted (f : Q -> bool) (l : list Q) :
  StronglySorted Qlt l -> StronglySorted Qlt (List.filter f l).
Proof.
  induction 1 as [|a l Hs IH Hall]; cbn [List.filter]; [constructor|].
  destruct (f a); [|exact IH]. constructor; [exact IH|].
  apply List.Forall_forall. intros c Hc. apply filter_In in Hc as [Hc _].
  rewrite List.Forall_forall in Hall. apply Hall, Hc.
Qed.

Lemma control_points_rule_shape (d g s e : Q) (walked : list Q) :
  0 <= d -> 0 < g -> s <= e ->
  exists rest,
    control_points_rule d g s e walked = (s - 1) :: s :: rest /\
    StronglySorted Qlt ((s - 1) :: s :: rest) /\
    Forall (fun c => c <= e) ((s - 1) :: s :: rest) /\
    (length rest <= length walked)%nat.
Proof.
  intros Hd Hg Hse. unfold control_points_rule.
  destruct (spaced_increasing d g walked Hd Hg s) as [Hall Hsorted].
  cbn [app List.filter].
  assert (H1 : Qle_bool (s - 1) e = true) by (apply Qle_bool_iff; lra).
  assert (H2 : Qle_bool s e = true) by (apply Qle_bool_iff; lra).
  rewrite H1, H2.
  set (rest := List.filter (fun c => Qle_bool c e) (spaced d g s walked)).
  assert (Hin : forall c, In c rest -> s < c /\ c <= e).
  { intros c Hc. apply filter_In in Hc as [Hc Hle].
    apply Qle_bool_iff in Hle. rewrite List.Forall_forall in Hall. auto. }
  exists rest. split; [reflexivity|]. split; [|split].
  - constructor.
    + constructor; [apply filter_StronglySorted, Hsorted|].
      apply List.Forall_forall. intros c Hc. apply Hin, Hc.
    + constructor; [lra|]. apply List.Forall_forall. intros c Hc.
      apply Hin in Hc. lra.
  - constructor; [lra|]. constructor; [lra|].
    apply List.Forall_forall. intros c Hc. apply Hin, Hc.
  - pose proof (List.filter_length_le (fun c => Qle_bool c e) (spaced d g s walked)).
    pose proof (spaced_length d g s walked). fold rest in H. lia.
Qed.

Lemma prepare_function_linear (self : CarbonFitter) (kwargs : gmap string pyval)
    (d g : Q) :
  kwargs !! "use_control_points"%string = Some (PyBool true) ->
  eq_str (default (PyStr "linear") (kwargs !! "interp"%string)) "linear" = true ->
  as_number (default (PyNum 3) (kwargs !! "dense_years"%string)) = Ok d ->
  as_number (default (PyNum 5) (kwargs !! "gap_years"%string)) = Ok g ->
  prepare_function self kwargs
  = Ok (with_production self (Some interp_linear)
          (Some (control_points_rule d g (start self) (end_ self)
                   (Np.slice_to (-1) (time_data self))))).
Proof.
  intros Hucp Hlin Hd Hg. unfold prepare_function.
  apply is_True_default in Hucp. rewrite Hucp, Hlin.
  rewrite (linear_control_points_rule self _ _ d g Hd Hg). reflexivity.
Qed.

Lemma linear_fitter_control_points (data : list row) (res : Z) (fg : Q)
    (os no : Z) (kwargs : gmap string pyval) (self0 self : CarbonFitter)
    (d g : Q) :
  load_data data res fg os no = Ok self0 ->
  prepare_function self0 kwargs = Ok self ->
  kwargs !! "use_control_points"%string = Some (PyBool true) ->
  eq_str (default (PyStr "linear") (kwargs !! "interp"%string)) "linear" = true ->
  as_number (default (PyNum 3) (kwargs !! "dense_years"%string)) = Ok d ->
  as_number (default (PyNum 5) (kwargs !! "gap_years"%string)) = Ok g ->
  0 <= d -> 0 < g ->
  exists rest,
    control_points_time self = Some (start self - 1 :: start self :: rest) /\
    StronglySorted Qlt (start self - 1 :: start self :: rest) /\
    Forall (fun c => c <= end_ self) (start self - 1 :: start self :: rest) /\
    (length rest + 1 <= length (time_data self))%nat.
Proof.
  intros Hl Hp Hucp Hlin Hd Hg Hd0 Hg0.
  rewrite (prepare_function_linear self0 kwargs d g Hucp Hlin Hd Hg) in Hp.
  injection Hp as <-. cbn [control_points_time start end_ time_data with_production].
  apply load_data_inv in Hl as (s & e & b & tf & Hs & He & _ & _ & ->).
  cbn [start end_ time_data].
  destruct (control_points_rule_shape d g s e
              (Np.slice_to (-1) (map year data)) Hd0 Hg0
              (nanmin_le_nanmax _ _ _ Hs He))
    as (rest & Hrule & Hsorted & Hle & Hlen).
  exists rest. rewrite Hrule. split; [reflexivity|].
  split; [exact Hsorted|]. split; [exact Hle|].
  rewrite slice_to_m1_length in Hlen.
  assert (Hne : (1 <= length (map year data))%nat).
  { destruct (map year data); [discriminate | cbn [length]; lia]. }
  lia.
Qed.


(** X16: With [use_control_points] and linear interpolation, a non-negative
    [dense_years] and a positive [gap_years], the control-point times begin
    with [start - 1] and [start], increase strictly, never exceed [end], and
    number at most one more than the observations. *)
Theorem linear_control_points_shape (data : list row) (res : Z) (fg : Q)
    (os no : Z) (kwargs : gmap string pyval) (self0 self : CarbonFitter)
    (d g : Q) :
  load_data data res fg os no = Ok self0 ->
  prepare_function self0 kwargs = Ok self ->
  kwargs !! "use_control_points"%string = Some (PyBool true) ->
  eq_str (default (PyStr "linear") (kwargs !! "interp"%string)) "linear" = true ->
  as_number (default (PyNum 3) (kwargs !! "dense_years"%string)) = Ok d ->
  as_number (default (PyNum 5) (kwargs !! "gap_years"%string)) = Ok g ->
  0 <= d -> 0 < g ->
  exists rest,
    control_points_time self = Some (start self - 1 :: start self :: rest) /\
    StronglySorted Qlt (start self - 1 :: start self :: rest) /\
    Forall (fun c => c <= end_ self) (start self - 1 :: start self :: rest) /\
    (length rest + 1 <= length (time_data self))%nat.
Proof. apply linear_fitter_control_points. Qed.

Lemma linear_control_points_shape_witness :
  exists rest,
    control_points_time Demo.linear_fitter
    = Some (start Demo.linear_fitter - 1 :: start Demo.linear_fitter :: rest) /\
    StronglySorted Qlt
      (start Demo.linear_fitter - 1 :: start Demo.linear_fitter :: rest) /\
    Forall (fun c => c <= end_ Demo.linear_fitter)
      (start Demo.linear_fitter - 1 :: start Demo.linear_fitter :: rest) /\
    (length rest + 1 <= length (time_data Demo.linear_fitter))%nat.
Proof.
  apply (linear_control_points_shape _ _ _ _ _ _ _ _ 3 5 annual_fitter_loaded
           linear_fitter_prepared).
  - vm_compute. reflexivity.
  - vm_compute. reflexivity.
  - vm_compute. reflexivity.
  - vm_compute. reflexivity.
  - discriminate.
  - reflexivity.
Defined.

(** ** Linear interpolation between the control points *)

Lemma sorted_nth_lt (l : list Q) :
  StronglySorted Qlt l ->
  forall i j, (i < j)%nat -> (j < length l)%nat -> nth i l 0 < nth j l 0.
Proof.
  induction 1 as [|a l Hs IH Hall]; intros i j Hij Hj; cbn [length] in Hj;
    [lia|].
  destruct j as [|j]; [lia|]. destruct i as [|i]; cbn [nth].
  - rewrite List.Forall_forall in Hall. apply Hall, nth_In. lia.
  - apply IH; lia.
Qed.

Lemma filter_le_nil (a x : Q) (l : list Q) :
  x < a -> Forall (Qlt a) l -> List.filter (fun c => Qle_bool c x) l = [].
Proof.
  intros Hx Hall. induction Hall as [|c l Hc _ IH]; [reflexivity|].
  cbn [List.filter]. destruct (Qle_bool c x) eqn:E; [|exact IH].
  apply Qle_bool_iff in E. lra.
Qed.

Lemma searchsorted_right_spec (l : list Q) (x : Q) :
  StronglySorted Qlt l ->
  (searchsorted_right l x <= length l)%nat /\
  (forall j, (j < searchsorted_right l x)%nat -> nth j l 0 <= x) /\
  (forall j, (searchsorted_right l x <= j)%nat -> (j < length l)%nat ->
             x < nth j l 0).
Proof.
  unfold searchsorted_right.
  induction 1 as [|a l Hs IH Hall]; cbn [List.filter length].
  - repeat split; intros; lia.
  - destruct IH as (Hk & Hlo & Hhi).
    destruct (Qle_bool a x) eqn:E.
    + apply Qle_bool_iff in E. cbn [length]. split; [lia|]. split.
      * intros [|j] Hj; cbn [nth]; [exact E | apply Hlo; lia].
      * intros [|j] Hj Hlen; [lia|]. cbn [nth]. apply Hhi; lia.
    + assert (Hx : x < a).
      { destruct (Qlt_le_dec x a) as [H|H]; [exact H|].
        apply Qle_bool_iff in H. congruence. }
      rewrite (filter_le_nil a x l Hx Hall). cbn [length].
      split; [lia|]. split; [intros j Hj; lia|].
      intros [|j] _ Hlen; cbn [nth]; [exact Hx|].
      rewrite List.Forall_forall in Hall.
      assert (a < nth j l 0) by (apply Hall, nth_In; lia). lra.
Qed.

Lemma last_nth (l : list Q) : List.last l 0 = nth (length l - 1) l 0.
Proof.
  induction l as [|a l IH]; [reflexivity|].
  destruct l as [|b l]; [reflexivity|].
  change (List.last (a :: b :: l) 0) with (List.last (b :: l) 0).
  rewrite IH. cbn [length]. replace (S (S (length l)) - 1)%nat
    with (S (S (length l) - 1)) by lia. reflexivity.
Qed.

(** [interp] is the piecewise-linear interpolant: constant before the first
    and after the last sample point, and on the segment that holds [x] the
    chord through its two end points. *)
Lemma interp_piecewise (x : Q) (xp fp : list Q) :
  StronglySorted Qlt xp -> length fp = length xp -> (2 <= length xp)%nat ->
  (x < nth 0 xp 0 -> interp x xp fp = Ok (nth 0 fp 0)) /\
  (List.last xp 0 < x -> interp x xp fp = Ok (List.last fp 0)) /\
  (nth 0 xp 0 <= x -> x <= List.last xp 0 ->
   exists i,
     (1 <= i)%nat /\ (i < length xp)%nat /\
     nth (i - 1) xp 0 <= x /\ x <= nth i xp 0 /\
     interp x xp fp
     = Ok (nth (i - 1) fp 0
           + (x - nth (i - 1) xp 0) / (nth i xp 0 - nth (i - 1) xp 0)
             * (nth i fp 0 - nth (i - 1) fp 0))).
Proof.
  intros Hs Hlen Hn.
  assert (Hfl : nth 0 xp 0 <= List.last xp 0).
  { rewrite last_nth. destruct (length xp) as [|[|n]] eqn:En; try lia.
    apply Qlt_le_weak, sorted_nth_lt; [exact Hs | lia | lia]. }
  unfold interp. rewrite Hlen, Nat.eqb_refl. cbn [negb].
  destruct xp as [|x0 xp'] eqn:Exp; [cbn [length] in Hn; lia|].
  rewrite <- Exp in *. assert (Hx0 : x0 = nth 0 xp 0) by (rewrite Exp; reflexivity).
  rewrite Hx0. clear Hx0.
  cbv zeta. split; [|split].
  - intros Hlt.
    replace (Qle_bool (nth 0 xp 0) x) with false
      by (symmetry; apply not_true_is_false; intros E;
          apply Qle_bool_iff in E; lra).
    cbn [negb].
    replace (Qle_bool x (List.last xp 0)) with true
      by (symmetry; apply Qle_bool_iff; lra).
    reflexivity.
  - intros Hgt.
    replace (Qle_bool x (List.last xp 0)) with false
      by (symmetry; apply not_true_is_false; intros E;
          apply Qle_bool_iff in E; lra).
    reflexivity.
  - intros Hlo Hhi.
    replace (Qle_bool (nth 0 xp 0) x) with true
      by (symmetry; apply Qle_bool_iff; exact Hlo).
    replace (Qle_bool x (List.last xp 0)) with true
      by (symmetry; apply Qle_bool_iff; exact Hhi).
    cbn [negb].
    destruct (searchsorted_right_spec xp x Hs) as (Hk & Hbelow & Habove).
    set (k := searchsorted_right xp x) in *.
    set (i := clip k 1 (length xp - 1)).
    assert (Hk1 : (1 <= k)%nat).
    { destruct k as [|k]; [|lia].
      assert (x < nth 0 xp 0) by (apply Habove; lia). lra. }
    assert (Hi : i = Nat.min k (length xp - 1)) by (unfold i, clip; lia).
    assert (Hi1 : (1 <= i)%nat) by lia.
    assert (Hin : (i < length xp)%nat) by lia.
    assert (Hleft : nth (i - 1) xp 0 <= x) by (apply Hbelow; lia).
    assert (Hright : x <= nth i xp 0).
    { destruct (Nat.le_gt_cases k (length xp - 1)) as [Hle|Hgt].
      - apply Qlt_le_weak, Habove; lia.
      - replace i with (length xp - 1)%nat by lia. rewrite <- last_nth.
        exact Hhi. }
    assert (Hdx : nth (i - 1) xp 0 < nth i xp 0)
      by (apply sorted_nth_lt; [exact Hs | lia | lia]).
    replace (Qeq_bool (nth i xp 0 - nth (i - 1) xp 0) 0) with false
      by (symmetry; apply not_true_is_false; intros E;
          apply Qeq_bool_iff in E; lra).
    exists i. repeat split; assumption.
Qed.

Lemma scalars_inv (args : list arg) (fp : list Q) :
  scalars args = Some fp <-> args = map Scalar fp.
Proof.
  revert fp. induction args as [|[q|v] args IH]; intros fp; cbn [scalars].
  - split; [intros H; injection H as <-; reflexivity|].
    destruct fp; [reflexivity | discriminate].
  - destruct (scalars args) as [vs|]; cbn.
    + split.
      * intros H. injection H as <-. cbn [map]. f_equal. apply IH. reflexivity.
      * destruct fp as [|q' fp]; [discriminate|]. cbn [map]. intros H.
        injection H as -> H. apply IH in H. congruence.
    + split; [discriminate|].
      destruct fp as [|q' fp]; [discriminate|]. cbn [map]. intros H.
      injection H as -> H. apply IH in H. discriminate.
  - split; [discriminate|]. destruct fp; discriminate.
Qed.

Lemma vectors_inv (n : nat) (args : list arg) (rows : list (list Q)) :
  vectors n args = Some rows
  <-> args = map Vector rows /\ Forall (fun r => length r = n) rows.
Proof.
  revert rows. induction args as [|[q|v] args IH]; intros rows; cbn [vectors].
  - split.
    + intros H. injection H as <-. split; [reflexivity | constructor].
    + intros [H _]. destruct rows; [reflexivity | discriminate].
  - split; [discriminate|]. intros [H _]. destruct rows; discriminate.
  - destruct (Nat.eqb (length v) n) eqn:E.
    + apply Nat.eqb_eq in E. destruct (vectors n args) as [rs|]; cbn.
      * split.
        -- intros H. injection H as <-.
           destruct (proj1 (IH rs) eq_refl) as [-> Hall].
           split; [reflexivity | constructor; assumption].
        -- intros [H Hall]. destruct rows as [|r rows]; [discriminate|].
           cbn [map] in H. injection H as -> H.
           inversion Hall; subst.
           assert (Some rs = Some rows) by (apply IH; split; [reflexivity | assumption]).
           congruence.
      * split; [discriminate|]. intros [H Hall].
        destruct rows as [|r rows]; [discriminate|].
        cbn [map] in H. injection H as -> H. inversion Hall; subst.
        assert (@None (list (list Q)) = Some rows)
          by (apply IH; split; [reflexivity | assumption]).
        discriminate.
    + apply Nat.eqb_neq in E. split; [discriminate|]. intros [H Hall].
      destruct rows as [|r rows]; [discriminate|].
      cbn [map] in H. injection H as -> H. inversion Hall; subst. congruence.
Qed.

Lemma array_scalars (fp : list Q) : array (map Scalar fp) = Ok (Rank1 fp).
Proof.
  unfold array. rewrite (proj2 (scalars_inv (map Scalar fp) fp) eq_refl).
  destruct fp; reflexivity.
Qed.

Lemma squeeze_rank1 (fp : list Q) :
  length fp <> 1%nat -> squeeze (Rank1 fp) = Rank1 fp.
Proof. destruct fp as [|a [|b fp]]; cbn [length]; intros H; try lia; reflexivity. Qed.

Lemma unit_rows (rows : list (list Q)) :
  forallb (fun r => Nat.eqb (length r) 1) rows = true ->
  rows = map (fun q => [q]) (concat rows).
Proof.
  induction rows as [|r rows IH]; [reflexivity|]. cbn [forallb concat].
  intros H. apply andb_true_iff in H as [Hr H].
  destruct r as [|q [|q' r]]; try discriminate.
  cbn [app map]. f_equal. apply IH, H.
Qed.

Lemma unit_rows_map (fp : list Q) :
  forallb (fun r => Nat.eqb (length r) 1) (map (fun q => [q]) fp) = true /\
  concat (map (fun q => [q]) fp) = fp /\
  Forall (fun r => length r = 1%nat) (map (fun q => [q]) fp).
Proof.
  induction fp as [|q fp (IH1 & IH2 & IH3)].
  - repeat split. constructor.
  - cbn [map forallb concat length app Nat.eqb andb].
    repeat split; [exact IH1 | f_equal; exact IH2 | constructor; [reflexivity | exact IH3]].
Qed.

(** What reaches [jnp.interp] as sample values is a one-dimensional array
    exactly for the three ways of passing the control values, and never an
    array of a single value. *)
Lemma squeeze_array_1d (args : list arg) (fp : list Q) :
  (stacked ← array args; one_dimensional (squeeze stacked)) = Ok fp
  <-> length fp <> 1%nat /\ control_values args fp.
Proof.
  split.
  - destruct args as [|[q|v] args].
    + cbn. intros H. injection H as <-. split; [cbn; lia | left; reflexivity].
    + unfold array. destruct (scalars (Scalar q :: args)) as [vs|] eqn:E;
        [|discriminate].
      apply scalars_inv in E. cbn [mbind result_bind].
      destruct vs as [|a [|b vs]]; cbn [squeeze one_dimensional];
        try discriminate.
      intros H. injection H as <-. split; [cbn; lia | left; exact E].
    + unfold array.
      destruct (vectors (length v) (Vector v :: args)) as [rows|] eqn:E;
        [|discriminate].
      apply vectors_inv in E as [E Hall]. cbn [mbind result_bind].
      destruct rows as [|r [|r' rows]]; [discriminate | |].
      * destruct r as [|a [|b r]]; cbn [squeeze one_dimensional];
          try discriminate; intros H; injection H as <-;
          (split; [cbn; lia | right; left; exact E]).
      * assert (Hsq : squeeze (Rank2 (r :: r' :: rows))
                      = if forallb (fun r => Nat.eqb (length r) 1) (r :: r' :: rows)
                        then Rank1 (concat (r :: r' :: rows))
                        else Rank2 (r :: r' :: rows)).
        { destruct r as [|a [|b r]]; reflexivity. }
        rewrite Hsq.
        assert (Hn : (2 <= length (r :: r' :: rows))%nat) by (cbn [length]; lia).
        set (rs := r :: r' :: rows) in *. clearbody rs.
        destruct (forallb _ rs) eqn:Hunit; cbn [one_dimensional];
          [|discriminate].
        intros H. injection H as <-.
        pose proof (unit_rows _ Hunit) as Hrows.
        pose proof (f_equal (@length _) Hrows) as Hl.
        rewrite length_map in Hl. split; [lia|].
        right; right. rewrite E. rewrite Hrows at 1. rewrite map_map.
        reflexivity.
  - intros [Hlen [-> | [-> | ->]]].
    + rewrite array_scalars. cbn [mbind result_bind].
      rewrite squeeze_rank1 by exact Hlen. reflexivity.
    + unfold array. cbn [vectors]. rewrite Nat.eqb_refl. cbn.
      destruct fp as [|a [|b fp]]; cbn [length] in Hlen; try lia; reflexivity.
    + destruct (unit_rows_map fp) as (Hunit & Hcat & Hall).
      destruct fp as [|a [|b fp]]; cbn [length] in Hlen; try lia;
        [reflexivity|].
      unfold array. cbn [map length].
      assert (Hv : vectors 1 (map Vector (map (fun q => [q]) (a :: b :: fp)))
                   = Some (map (fun q => [q]) (a :: b :: fp)))
        by (apply vectors_inv; split; [reflexivity | exact Hall]).
      rewrite map_map in Hv. cbn [map] in Hv. rewrite Hv.
      cbn [mbind result_bind].
      change (squeeze (Rank2 ([a] :: [b] :: map (fun q => [q]) fp)))
        with (if forallb (fun r => Nat.eqb (length r) 1)
                   (map (fun q => [q]) (a :: b :: fp))
              then Rank1 (concat (map (fun q => [q]) (a :: b :: fp)))
              else Rank2 (map (fun q => [q]) (a :: b :: fp))).
      rewrite Hunit, Hcat. reflexivity.
Qed.

(** Called with the control values as separate numbers, as the box model
    does, [interp_linear] interpolates them. *)
Lemma interp_linear_scalars (self : CarbonFitter) (xp args : list Q) (t : Q) :
  control_points_time self = Some xp -> length args <> 1%nat ->
  interp_linear_at self t (map Scalar args) = interp t xp args.
Proof.
  intros Hcpt Hlen. unfold interp_linear_at. rewrite array_scalars.
  cbn [mbind result_bind]. rewrite Hcpt. cbn [attribute mbind result_bind].
  rewrite squeeze_rank1 by exact Hlen. reflexivity.
Qed.

(** X17: For arguments that are numbers or one-dimensional arrays,
    [interp_linear] returns exactly when control points are set and it is
    handed one value per control point, at least two of them: each value as
    an argument of its own, or all of them in one array. *)
Theorem interp_linear_returns_iff (self : CarbonFitter) (t : Q)
    (args : list arg) :
  is_ok (interp_linear_at self t args) = true
  <-> exists xp fp,
        control_points_time self = Some xp /\
        length fp = length xp /\ (2 <= length fp)%nat /\
        control_values args fp.
Proof.
  unfold interp_linear_at. split.
  - destruct (array args) as [stacked|] eqn:Ha; [|discriminate].
    cbn [mbind result_bind].
    destruct (control_points_time self) as [xp|]; [|discriminate].
    cbn [attribute mbind result_bind].
    destruct (one_dimensional (squeeze stacked)) as [fp|] eqn:Hfp;
      [|discriminate].
    cbn [mbind result_bind]. unfold interp.
    destruct (length xp =? length fp)%nat eqn:E; [|discriminate].
    apply Nat.eqb_eq in E. cbn [negb].
    destruct xp as [|x0 xp]; [discriminate|]. intros _.
    destruct (proj1 (squeeze_array_1d args fp)) as [Hone Hvalues].
    { rewrite Ha. cbn [mbind result_bind]. exact Hfp. }
    exists (x0 :: xp), fp. split; [reflexivity|]. split; [congruence|].
    split; [cbn [length] in E; lia | exact Hvalues].
  - intros (xp & fp & -> & Hlen & Hn & Hvalues).
    assert (Hone : length fp <> 1%nat) by lia.
    pose proof (proj2 (squeeze_array_1d args fp) (conj Hone Hvalues)) as Hsq.
    destruct (array args) as [stacked|]; [|discriminate].
    cbn [mbind result_bind attribute] in *. rewrite Hsq.
    cbn [mbind result_bind]. unfold interp.
    rewrite <- Hlen, Nat.eqb_refl. cbn [negb].
    destruct xp; [cbn [length] in Hlen; lia | reflexivity].
Qed.

Lemma interp_linear_returns_iff_witness :
  is_ok (interp_linear_at Demo.linear_fitter 100 [Scalar 7; Scalar 9]) = true /\
  is_ok (interp_linear_at Demo.linear_fitter 100 [Vector [7; 9]]) = true /\
  is_ok (interp_linear_at Demo.linear_fitter 100 [Scalar 7; Scalar 9; Scalar 8])
  = false /\
  is_ok (interp_linear_at Demo.burst_fitter 100 [Scalar 7; Scalar 9]) = false.
Proof.
  split; [|split; [|split]].
  - apply interp_linear_returns_iff. exists [99; 100], [7; 9].
    split; [reflexivity|]. split; [reflexivity|].
    split; [cbn; lia | left; reflexivity].
  - apply interp_linear_returns_iff. exists [99; 100], [7; 9].
    split; [reflexivity|]. split; [reflexivity|].
    split; [cbn; lia | right; left; reflexivity].
  - apply not_true_is_false. intros H.
    apply interp_linear_returns_iff in H as (xp & fp & Hxp & Hlen & _ & Hv).
    vm_compute in Hxp. injection Hxp as <-.
    destruct Hv as [Hv | [Hv | Hv]].
    + destruct fp as [|a [|b [|c [|d fp]]]]; cbn in Hlen, Hv; try discriminate.
    + injection Hv. discriminate.
    + destruct fp as [|a fp]; discriminate.
  - apply not_true_is_false. intros H.
    apply interp_linear_returns_iff in H as (xp & fp & Hxp & _). discriminate.
Defined.

(** X18: On strictly increasing control points [interp_linear] is the
    piecewise-linear curve through them: the first value before the first
    control point, the last value after the last, and in between the chord
    of the segment that holds the time. *)
Theorem interp_linear_piecewise (self : CarbonFitter) (xp args : list Q) (t : Q) :
  control_points_time self = Some xp ->
  StronglySorted Qlt xp -> length args = length xp -> (2 <= length xp)%nat ->
  (t < nth 0 xp 0 ->
   interp_linear_at self t (map Scalar args) = Ok (nth 0 args 0)) /\
  (List.last xp 0 < t ->
   interp_linear_at self t (map Scalar args) = Ok (List.last args 0)) /\
  (nth 0 xp 0 <= t -> t <= List.last xp 0 ->
   exists i,
     (1 <= i)%nat /\ (i < length xp)%nat /\
     nth (i - 1) xp 0 <= t /\ t <= nth i xp 0 /\
     interp_linear_at self t (map Scalar args)
     = Ok (nth (i - 1) args 0
           + (t - nth (i - 1) xp 0) / (nth i xp 0 - nth (i - 1) xp 0)
             * (nth i args 0 - nth (i - 1) args 0))).
Proof.
  intros Hcpt Hs Hlen Hn.
  rewrite (interp_linear_scalars self xp args t Hcpt) by lia.
  apply interp_piecewise; assumption.
Qed.

(** At a sample point other than the last, [interp] takes the segment that
    starts there, so the chord contributes a zero and the sample value is
    returned as it is. *)
Lemma interp_exact (xp fp : list Q) (j : nat) :
  StronglySorted Qlt xp -> length fp = length xp ->
  (S j < length xp)%nat ->
  interp (nth j xp 0) xp fp
  = Ok (nth j fp 0
        + (nth j xp 0 - nth j xp 0) / (nth (S j) xp 0 - nth j xp 0)
          * (nth (S j) fp 0 - nth j fp 0)).
Proof.
  intros Hs Hlen Hj.
  assert (Hfirst : nth 0 xp 0 <= nth j xp 0).
  { destruct j as [|j]; [apply Qle_refl|].
    apply Qlt_le_weak, sorted_nth_lt; [exact Hs | lia | lia]. }
  assert (Hlast : nth j xp 0 < List.last xp 0).
  { rewrite last_nth. apply sorted_nth_lt; [exact Hs | lia | lia]. }
  assert (Hnext : nth j xp 0 < nth (S j) xp 0)
    by (apply sorted_nth_lt; [exact Hs | lia | lia]).
  destruct (searchsorted_right_spec xp (nth j xp 0) Hs) as (Hk & Hbelow & Habove).
  assert (Hidx : searchsorted_right xp (nth j xp 0) = S j).
  { set (k := searchsorted_right xp (nth j xp 0)) in *.
    destruct (Nat.lt_trichotomy k (S j)) as [Hlt | [Heq | Hgt]];
      [|exact Heq|].
    - assert (nth j xp 0 < nth j xp 0) by (apply Habove; lia). lra.
    - assert (nth (S j) xp 0 <= nth j xp 0) by (apply Hbelow; lia). lra. }
  unfold interp. rewrite Hlen, Nat.eqb_refl. cbn [negb].
  destruct xp as [|x0 xp'] eqn:Exp; [cbn [length] in Hj; lia|].
  rewrite <- Exp in *.
  assert (Hx0 : x0 = nth 0 xp 0) by (rewrite Exp; reflexivity).
  rewrite Hx0, Hidx. cbv zeta.
  replace (clip (S j) 1 (length xp - 1)) with (S j) by (unfold clip; lia).
  replace (S j - 1)%nat with j by lia.
  replace (Qle_bool (nth 0 xp 0) (nth j xp 0)) with true
    by (symmetry; apply Qle_bool_iff; exact Hfirst).
  replace (Qle_bool (nth j xp 0) (List.last xp 0)) with true
    by (symmetry; apply Qle_bool_iff; lra).
  replace (Qeq_bool (nth (S j) xp 0 - nth j xp 0) 0) with false
    by (symmetry; apply not_true_is_false; intros E;
        apply Qeq_bool_iff in E; lra).
  reflexivity.
Qed.

(** X19: At every control point but the last the interpolated value is that
    point's value: the code adds to it the chord of the segment that starts
    there, taken at distance zero.  (At the last control point the code
    evaluates the chord of the last segment at its far end.) *)
Theorem interp_linear_exact (self : CarbonFitter) (xp args : list Q) (j : nat) :
  control_points_time self = Some xp ->
  StronglySorted Qlt xp -> length args = length xp ->
  (S j < length xp)%nat ->
  exists v,
    interp_linear_at self (nth j xp 0) (map Scalar args) = Ok v /\
    v = nth j args 0
        + (nth j xp 0 - nth j xp 0) / (nth (S j) xp 0 - nth j xp 0)
          * (nth (S j) args 0 - nth j args 0) /\
    v == nth j args 0.
Proof.
  intros Hcpt Hs Hlen Hj.
  rewrite (interp_linear_scalars self xp args _ Hcpt) by lia.
  rewrite (interp_exact xp args j Hs Hlen Hj).
  eexists. split; [reflexivity|]. split; [reflexivity|].
  assert (Hnext : nth j xp 0 < nth (S j) xp 0)
    by (apply sorted_nth_lt; [exact Hs | lia | lia]).
  field. lra.
Qed.

Lemma interp_range (x : Q) (xp fp : list Q) (lo hi : Q) :
  StronglySorted Qlt xp -> length fp = length xp -> (2 <= length xp)%nat ->
  Forall (fun v => lo <= v /\ v <= hi) fp ->
  exists v, interp x xp fp = Ok v /\ lo <= v /\ v <= hi.
Proof.
  intros Hs Hlen Hn Hfp.
  assert (Hnth : forall i, (i < length fp)%nat ->
                           lo <= nth i fp 0 /\ nth i fp 0 <= hi).
  { intros i Hi. rewrite List.Forall_forall in Hfp. apply Hfp, nth_In, Hi. }
  destruct (interp_piecewise x xp fp Hs Hlen Hn) as (Hbefore & Hafter & Hmid).
  destruct (Qlt_le_dec x (nth 0 xp 0)) as [Hlt|Hge].
  { rewrite (Hbefore Hlt). eexists. split; [reflexivity|]. apply Hnth. lia. }
  destruct (Qlt_le_dec (List.last xp 0) x) as [Hgt|Hle].
  { rewrite (Hafter Hgt). eexists. split; [reflexivity|].
    rewrite last_nth. apply Hnth. lia. }
  destruct (Hmid Hge Hle) as (i & Hi1 & Hin & Hleft & Hright & ->).
  eexists. split; [reflexivity|].
  assert (Hdx : nth (i - 1) xp 0 < nth i xp 0)
    by (apply sorted_nth_lt; [exact Hs | lia | lia]).
  destruct (Hnth (i - 1)%nat ltac:(lia)) as [Ha1 Ha2].
  destruct (Hnth i ltac:(lia)) as [Hb1 Hb2].
  set (a := nth (i - 1) fp 0) in *. set (b := nth i fp 0) in *.
  set (w := (x - nth (i - 1) xp 0) / (nth i xp 0 - nth (i - 1) xp 0)).
  assert (Hw0 : 0 <= w) by (unfold w; apply Qle_shift_div_l; lra).
  assert (Hw1 : w <= 1) by (unfold w; apply Qle_shift_div_r; lra).
  clearbody w a b. split; nra.
Qed.

Lemma upper_bound (l : list Q) : exists hi, Forall (fun v => v <= hi) l.
Proof.
  induction l as [|a l [hi Hhi]]; [exists 0; constructor|].
  exists (Np.qmax a hi). unfold Np.qmax. constructor.
  - destruct (Qle_bool a hi) eqn:E; [apply Qle_bool_iff, E | apply Qle_refl].
  - rewrite List.Forall_forall in *. intros v Hv. specialize (Hhi v Hv).
    destruct (Qle_bool a hi) eqn:E; [exact Hhi|].
    assert (hi < a).
    { destruct (Qlt_le_dec hi a) as [H|H]; [exact H|].
      apply Qle_bool_iff in H. congruence. }
    lra.
Qed.

(** X20: Control values that are all non-negative give a production rate
    that is non-negative at every time. *)
Theorem interp_linear_nonneg (self : CarbonFitter) (xp args : list Q) (t : Q) :
  control_points_time self = Some xp ->
  StronglySorted Qlt xp -> length args = length xp -> (2 <= length xp)%nat ->
  Forall (fun v => 0 <= v) args ->
  exists v, interp_linear_at self t (map Scalar args) = Ok v /\ 0 <= v.
Proof.
  intros Hcpt Hs Hlen Hn Hargs.
  rewrite (interp_linear_scalars self xp args t Hcpt) by lia.
  destruct (upper_bound args) as [hi Hhi].
  destruct (interp_range t xp args 0 hi Hs Hlen Hn) as (v & Hv & Hlo & _).
  - rewrite List.Forall_forall in *. intros q Hq. split; auto.
  - exists v. split; assumption.
Qed.

Lemma linear_fitter_sorted : StronglySorted Qlt [99; 100].
Proof. repeat constructor. Qed.

Lemma interp_linear_piecewise_witness :
  interp_linear_at Demo.linear_fitter 50 [Scalar 7; Scalar 9] = Ok 7 /\
  interp_linear_at Demo.linear_fitter 102 [Scalar 7; Scalar 9] = Ok 9.
Proof.
  destruct (interp_linear_piecewise Demo.linear_fitter [99; 100] [7; 9] 50)
    as (Hbefore & _ & _);
    [reflexivity | exact linear_fitter_sorted | reflexivity | cbn; lia |].
  destruct (interp_linear_piecewise Demo.linear_fitter [99; 100] [7; 9] 102)
    as (_ & Hafter & _);
    [reflexivity | exact linear_fitter_sorted | reflexivity | cbn; lia |].
  split; [apply Hbefore | apply Hafter]; reflexivity.
Defined.

Lemma interp_linear_exact_witness :
  exists v,
    interp_linear_at Demo.linear_fitter 99 [Scalar 7; Scalar 9] = Ok v /\
    v == 7.
Proof.
  destruct (interp_linear_exact Demo.linear_fitter [99; 100] [7; 9] 0)
    as (v & Hv & _ & Hexact);
    [reflexivity | exact linear_fitter_sorted | reflexivity | cbn; lia |].
  exists v. split; [exact Hv | exact Hexact].
Defined.

Lemma interp_linear_nonneg_witness :
  exists v,
    interp_linear_at Demo.linear_fitter (199 # 2) [Scalar 7; Scalar 9] = Ok v /\
    0 <= v.
Proof.
  apply (interp_linear_nonneg Demo.linear_fitter [99; 100] [7; 9]);
    [reflexivity | exact linear_fitter_sorted | reflexivity | cbn; lia |].
  repeat constructor; discriminate.
Defined.

(** X21: With linear control points the production rate is held at the first
    control value at all times before [start - 1], which covers the
    burn-in, and at the last control value at all times after [end]. *)
Theorem production_outside_window (data : list row) (res : Z) (fg : Q)
    (os no : Z) (kwargs : gmap string pyval) (self0 self : CarbonFitter)
    (d g : Q) (xp args : list Q) :
  load_data data res fg os no = Ok self0 ->
  prepare_function self0 kwargs = Ok self ->
  linear_options kwargs d g -> 0 <= d -> 0 < g ->
  control_points_time self = Some xp -> length args = length xp ->
  (forall t, t < start self - 1 ->
     interp_linear_at self t (map Scalar args) = Ok (nth 0 args 0)) /\
  (forall t, end_ self < t ->
     interp_linear_at self t (map Scalar args) = Ok (List.last args 0)).
Proof.
  intros Hl Hp (Hucp & Hlin & Hd & Hg) Hd0 Hg0 Hxp Hlen.
  destruct (linear_fitter_control_points _ _ _ _ _ _ _ _ d g Hl Hp Hucp Hlin
              Hd Hg Hd0 Hg0) as (rest & Hcpt & Hsorted & Hle & _).
  rewrite Hcpt in Hxp. injection Hxp as <-.
  assert (Hn : (2 <= length ((start self - 1)%Q :: start self :: rest))%nat)
    by (cbn [length]; lia).
  split; intros t Ht;
    (rewrite (interp_linear_scalars self _ args t Hcpt) by lia).
  - apply (interp_piecewise t _ args Hsorted Hlen Hn). exact Ht.
  - apply (interp_piecewise t _ args Hsorted Hlen Hn).
    assert (Hlast : List.last (start self - 1 :: start self :: rest) 0
                    <= end_ self).
    { rewrite List.Forall_forall in Hle. apply Hle.
      rewrite last_nth. apply nth_In. lia. }
    lra.
Qed.

Lemma production_outside_window_witness :
  (forall t, t < start Demo.linear_fitter - 1 ->
     interp_linear_at Demo.linear_fitter t [Scalar 7; Scalar 9] = Ok 7) /\
  (forall t, end_ Demo.linear_fitter < t ->
     interp_linear_at Demo.linear_fitter t [Scalar 7; Scalar 9] = Ok 9).
Proof.
  apply (production_outside_window _ _ _ _ _ _ _ _ 3 5 [99; 100] [7; 9]
           annual_fitter_loaded linear_fitter_prepared).
  - repeat split; vm_compute; reflexivity.
  - discriminate.
  - reflexivity.
  - reflexivity.
  - reflexivity.
Defined.

(** ** Where the optimisation starts *)

Lemma prepare_function_gp (self : CarbonFitter) (kwargs : gmap string pyval) :
  kwargs !! "use_control_points"%string = Some (PyBool true) ->
  kwargs !! "interp"%string = Some (PyStr "gp") ->
  prepare_function self kwargs
  = Ok (with_production self (Some interp_gp) (Some (annual self))).
Proof.
  intros Hucp Hgp. unfold prepare_function.
  apply is_True_default in Hucp. rewrite Hucp, Hgp. reflexivity.
Qed.

Lemma slice_to_m1_ones (f : Q -> Q) (n : nat) :
  Np.slice_to (-1) (map f (repeat 1 (n + 1))) = map f (repeat 1 n).
Proof.
  replace (n + 1)%nat with (S n) by lia.
  rewrite <- (repeat_cons n 1) || idtac.
  replace (repeat 1 (S n)) with (repeat 1 n ++ [1]).
  - rewrite map_app. cbn [map]. apply slice_to_m1_snoc.
  - induction n as [|n IH]; [reflexivity|]. cbn [repeat app]. rewrite IH.
    reflexivity.
Qed.

Lemma last_item_ones (f : Q -> Q) (n : nat) :
  Np.last_item (map f (repeat 1 (n + 1))) = Ok (f 1).
Proof.
  rewrite (last_item_nonempty _ 0)
    by (replace (n + 1)%nat with (S n) by lia; discriminate).
  f_equal. induction n as [|n IH]; [reflexivity|].
  cbn [Nat.add repeat map]. cbn [Nat.add repeat map] in IH.
  destruct (map f (repeat 1 (n + 1))) eqn:E.
  - replace (n + 1)%nat with (S n) in E by lia. discriminate.
  - exact IH.
Qed.

Section OptimisationFacts.

Context (state : Type) (steady_state_y0 : state)
        (cbm_run : list Q -> CarbonFitter -> list Q -> state -> list state)
        (cbm_run_D_14_C_values :
           list Q -> Z -> CarbonFitter -> list Q -> state -> state -> list Q)
        (gp_condition : Q -> list Q -> Q -> list Q -> Q)
        (steady_state_production : Q)
        (soln : Type) (minimize : minimize_call -> soln).

Local Abbreviation fit_cp :=
  (fit_cp state steady_state_y0 cbm_run cbm_run_D_14_C_values gp_condition
          steady_state_production soln minimize).

(** X22: [fit_cp] needs control points: on a fitter that never had any,
    configuring without [use_control_points] sets none and [fit_cp] then
    raises for the missing attribute, whatever its options. *)
Theorem fit_cp_needs_control_points (kwargs : gmap string pyval)
    (self0 self : CarbonFitter) (low_bound : Q) (gp avg : bool) (k : Q) :
  control_points_time self0 = None ->
  prepare_function self0 kwargs = Ok self ->
  kwargs !! "use_control_points"%string <> Some (PyBool true) ->
  fit_cp self low_bound gp avg k = Raise MissingAttribute.
Proof.
  intros Hnone Hp Hucp.
  apply prepare_function_unfold in Hp as (p & cpt & -> & Hcpt).
  specialize (Hcpt Hucp). subst cpt. unfold fit_cp.
  cbn [control_points_time with_production]. rewrite Hnone. reflexivity.
Qed.

(** X23: With linear control points the optimiser starts from one value per
    control point and one lower bound per value, and that start is the
    constant production history at the steady-state rate. *)
Theorem fit_cp_starts_at_steady_state (data : list row) (res : Z) (fg : Q)
    (os no : Z) (kwargs : gmap string pyval) (self0 self : CarbonFitter)
    (d g : Q) (xp : list Q) (low_bound : Q) (avg : bool) (k : Q) :
  load_data data res fg os no = Ok self0 ->
  prepare_function self0 kwargs = Ok self ->
  linear_options kwargs d g -> 0 <= d -> 0 < g ->
  control_points_time self = Some xp ->
  exists call,
    fit_cp self low_bound false avg k = Ok (minimize call) /\
    length (x0 call) = length xp /\
    bounds call = repeat (low_bound, None) (length xp) /\
    forall t, exists v,
      interp_linear_at self t (map Scalar (x0 call)) = Ok v /\
      v == steady_state_production.
Proof.
  intros Hl Hp (Hucp & Hlin & Hd & Hg) Hd0 Hg0 Hxp.
  destruct (linear_fitter_control_points _ _ _ _ _ _ _ _ d g Hl Hp Hucp Hlin
              Hd Hg Hd0 Hg0) as (rest & Hcpt & Hsorted & _ & _).
  rewrite Hcpt in Hxp. injection Hxp as <-.
  set (xp := (start self - 1)%Q :: start self :: rest) in *.
  set (guess := map (Qmult steady_state_production) (repeat 1 (length xp))).
  assert (Hlen : length guess = length xp)
    by (unfold guess; rewrite length_map, repeat_length; reflexivity).
  assert (Hstart : forall t, exists v,
            interp_linear_at self t (map Scalar guess) = Ok v /\
            v == steady_state_production).
  { intros t.
    destruct (interp_range t xp guess steady_state_production
                steady_state_production Hsorted Hlen)
      as (v & Hv & Hlo & Hhi).
    - unfold xp. cbn [length]. lia.
    - apply List.Forall_forall. intros q Hq. unfold guess in Hq.
      apply in_map_iff in Hq as (one & <- & Hone).
      apply repeat_spec in Hone. subst one. split; lra.
    - exists v. split; [|lra].
      rewrite (interp_linear_scalars self xp guess t Hcpt)
        by (rewrite Hlen; unfold xp; cbn [length]; lia).
      exact Hv. }
  unfold fit_cp. rewrite Hcpt. fold xp. cbn [attribute mbind result_bind].
  fold guess. rewrite Hlen.
  destruct avg; eexists; (split; [reflexivity|]); cbn [x0 bounds];
    repeat split; assumption.
Qed.

(** X24: With Gaussian-process control points the optimiser starts from one
    value per annual grid point plus the mean, and the regulariser at that
    start conditions the process on the steady-state rate at every grid
    point, with the steady-state rate as its mean. *)
Theorem fit_cp_gp_start (self0 self : CarbonFitter)
    (kwargs : gmap string pyval) (low_bound : Q) (avg : bool) (k : Q) :
  prepare_function self0 kwargs = Ok self ->
  kwargs !! "use_control_points"%string = Some (PyBool true) ->
  kwargs !! "interp"%string = Some (PyStr "gp") ->
  exists call,
    fit_cp self low_bound true avg k = Ok (minimize call) /\
    length (x0 call) = (length (annual self) + 1)%nat /\
    gp_neg_log_likelihood gp_condition self (x0 call)
    = Ok (- gp_condition 1 (annual self) (steady_state_production * 1)
              (map (Qmult steady_state_production)
                   (repeat 1 (length (annual self))))).
Proof.
  intros Hp Hucp Hgp. rewrite (prepare_function_gp self0 kwargs Hucp Hgp) in Hp.
  injection Hp as <-. cbn [annual with_production].
  unfold fit_cp. cbn [control_points_time with_production attribute mbind result_bind].
  set (guess := map (Qmult steady_state_production)
                    (repeat 1 (length (annual self0) + 1))).
  assert (Hnll : gp_neg_log_likelihood gp_condition
                   (with_production self0 (Some interp_gp) (Some (annual self0)))
                   guess
                 = Ok (- gp_condition 1 (annual self0) (steady_state_production * 1)
                           (map (Qmult steady_state_production)
                                (repeat 1 (length (annual self0)))))).
  { unfold gp_neg_log_likelihood, guess. rewrite last_item_ones.
    cbn [mbind result_bind control_points_time with_production attribute].
    rewrite slice_to_m1_ones. reflexivity. }
  assert (Hlen : length guess = (length (annual self0) + 1)%nat)
    by (unfold guess; rewrite length_map, repeat_length; reflexivity).
  destruct avg; eexists; (split; [reflexivity|]); cbn [x0];
    split; assumption.
Qed.

End OptimisationFacts.

Lemma fit_cp_needs_control_points_witness :
  Demo.fit_cp Demo.burst_fitter 0 false true 1 = Raise MissingAttribute.
Proof.
  apply (fit_cp_needs_control_points _ _ _ _ _ _ _ _ ∅ Demo.annual_fitter _
           0 false true 1 eq_refl burst_fitter_prepared).
  vm_compute. discriminate.
Defined.

Lemma fit_cp_starts_at_steady_state_witness :
  exists call,
    Demo.fit_cp Demo.linear_fitter 0 false true 1 = Ok call /\
    length (x0 call) = 2%nat /\
    bounds call = [(0, None); (0, None)] /\
    forall t, exists v,
      interp_linear_at Demo.linear_fitter t (map Scalar (x0 call)) = Ok v /\
      v == 707 # 100.
Proof.
  apply (fit_cp_starts_at_steady_state Toy.state Toy.steady_state_y0 Toy.run
           Toy.run_D_14_C_values Toy.gp_condition (707 # 100) minimize_call
           (fun call => call) _ _ _ _ _ _ _ _ 3 5 [99; 100] 0 true 1
           annual_fitter_loaded linear_fitter_prepared).
  - repeat split; vm_compute; reflexivity.
  - discriminate.
  - reflexivity.
  - reflexivity.
Defined.

Lemma fit_cp_gp_start_witness :
  exists call,
    Demo.fit_cp Demo.gp_fitter 0 true true 1 = Ok call /\
    length (x0 call) = 5%nat.
Proof.
  destruct (fit_cp_gp_start Toy.state Toy.steady_state_y0 Toy.run
              Toy.run_D_14_C_values Toy.gp_condition (707 # 100) minimize_call
              (fun call => call) Demo.annual_fitter Demo.gp_fitter
              Toy.gp_options 0 true 1 gp_fitter_prepared)
    as (call & Hfit & Hlen & _).
  - vm_compute. reflexivity.
  - vm_compute. reflexivity.
  - exists call. split; [exact Hfit | exact Hlen].
Defined.

(** ** Which models the constructor accepts *)

Section ConstructionFacts.

Context (model state : Type)
        (load_presaved_model : string -> string -> option model)
        (equilibrate_target : model -> Q -> Q)
        (equilibrate_production : model -> Q -> state).

Local Abbreviation init :=
  (init model state load_presaved_model equilibrate_target
        equilibrate_production).

(** X25: A model given by name is accepted exactly when the name is one of the
    four presaved ones and [ticktack] loads it; every other string is
    refused.  A model object is always taken as it is.  The stored state is
    the equilibrium of the stored production rate. *)
Theorem init_accepts (units : string) (target : Q) :
  (forall name,
     (exists core, init (CbmName model name) units target = inr core)
     <-> In name presaved_models /\
         exists m, load_presaved_model name units = Some m) /\
  (forall name, ~ In name presaved_models ->
     init (CbmName model name) units target = inl InvalidCBM) /\
  (forall m, exists core,
     init (CbmModel model m) units target = inr core /\ cbm model state core = m) /\
  (forall arg core, init arg units target = inr core ->
     core_steady_state_production model state core
     = equilibrate_target (cbm model state core) target /\
     core_steady_state_y0 model state core
     = equilibrate_production (cbm model state core)
         (core_steady_state_production model state core)).
Proof.
  assert (Hin : forall name,
            existsb (String.eqb name) presaved_models = true
            <-> In name presaved_models).
  { intros name. rewrite existsb_exists. split.
    - intros (x & Hx & E). apply String.eqb_eq in E. subst x. exact Hx.
    - intros H. exists name. split; [exact H | apply String.eqb_refl]. }
  split; [|split; [|split]].
  - intros name. unfold init. split.
    + intros [core H].
      destruct (existsb (String.eqb name) presaved_models) eqn:E;
        [|discriminate].
      split; [apply Hin, E|].
      destruct (load_presaved_model name units) as [m|]; [eauto | discriminate].
    + intros (Hname & m & Hm). apply Hin in Hname. rewrite Hname, Hm. eauto.
  - intros name Hname. unfold init.
    destruct (existsb (String.eqb name) presaved_models) eqn:E; [|reflexivity].
    apply Hin in E. contradiction.
  - intros m. eexists. split; reflexivity.
  - intros arg core H. unfold init in H.
    destruct arg as [name|m].
    + destruct (existsb (String.eqb name) presaved_models); [|discriminate].
      destruct (load_presaved_model name units); [|discriminate].
      injection H as <-. split; reflexivity.
    + injection H as <-. split; reflexivity.
Qed.

End ConstructionFacts.

Lemma init_accepts_witness :
  init nat nat (fun _ _ => Some 7%nat) (fun _ q => q) (fun _ _ => 0%nat)
       (CbmName nat "MyModel") "atoms/cm^2/s" 707 = inl InvalidCBM /\
  exists core,
    init nat nat (fun _ _ => Some 7%nat) (fun _ q => q) (fun _ _ => 0%nat)
         (CbmName nat "Guttler14") "atoms/cm^2/s" 707 = inr core.
Proof.
  destruct (init_accepts nat nat (fun _ _ => Some 7%nat) (fun _ q => q)
              (fun _ _ => 0%nat) "atoms/cm^2/s" 707)
    as (Hiff & Hother & _ & _).
  split.
  - apply Hother. intros [H|[H|[H|[H|[]]]]]; discriminate.
  - apply Hiff. split; [left; reflexivity | eauto].
Defined.

(** ** Where the walkers start *)

Lemma zip_with_shifted (initial row : list Q) :
  length row = length initial ->
  Forall (fun p => 0 < p) initial ->
  Forall (fun r => 0 <= r /\ r < 1) row ->
  Forall (fun p => 0 < p)
         (Np.zip_with Qplus initial (map (Qmult (1 # 100000)) row)).
Proof.
  intros Hlen Hinit. revert row Hlen.
  induction Hinit as [|p initial Hp _ IH]; intros [|r row] Hlen Hrow;
    cbn [length] in Hlen; try discriminate; cbn [map Np.zip_with];
    [constructor|].
  inversion Hrow as [|? ? [Hr0 Hr1] Hrest]; subst.
  constructor; [nra|]. apply IH; [lia | exact Hrest].
Qed.

(** X26: Given positive initial parameters and random numbers in the half-open
    unit interval, [sampling] starts five walkers per parameter, every
    one with positive parameters and hence a finite (zero) log-prior. *)
Theorem walkers_start_with_finite_prior (initial : list Q)
    (rand : list (list Q)) :
  rand_shape initial rand ->
  Forall (fun p => 0 < p) initial ->
  exists p0,
    initial_walkers initial rand = Ok p0 /\
    length p0 = (5 * length initial)%nat /\
    Forall (fun w => length w = length initial /\
                     Forall (fun p => 0 < p) w /\
                     log_prior w = Fin 0) p0.
Proof.
  intros [Hrows Hrand] Hinit. unfold initial_walkers. rewrite <- Hrows.
  clear Hrows. induction Hrand as [|row rand [Hlen Hrow] _ IH].
  - exists []. repeat split. constructor.
  - destruct IH as (p0 & Hp0 & Hlen0 & Hall). cbn [map each_row].
    rewrite broadcast2_same_length by (rewrite length_map; lia).
    cbn [mbind result_bind]. rewrite Hp0. cbn [mbind result_bind].
    eexists. split; [reflexivity|]. split; [cbn [length]; lia|].
    constructor; [|exact Hall].
    pose proof (zip_with_shifted initial row Hlen Hinit Hrow) as Hpos.
    split; [|split].
    + rewrite zip_with_length; [reflexivity | rewrite length_map; lia].
    + exact Hpos.
    + apply fold_prior_positive, Hpos.
Qed.

Lemma walkers_start_with_finite_prior_witness :
  exists p0,
    initial_walkers [3] [[0]; [1 # 2]; [1 # 4]; [0]; [3 # 4]] = Ok p0 /\
    length p0 = 5%nat /\
    Forall (fun w => length w = 1%nat /\
                     Forall (fun p => 0 < p) w /\
                     log_prior w = Fin 0) p0.
Proof.
  apply (walkers_start_with_finite_prior [3]
           [[0]; [1 # 2]; [1 # 4]; [0]; [3 # 4]]).
  - split; [reflexivity|].
    repeat (constructor; [split; [reflexivity|];
                          repeat constructor; discriminate|]).
    constructor.
  - repeat constructor.
Defined.

(** ** The burst production functions *)

Module ProductionFacts.
Import Reals Production.
Local Open Scope R_scope.

Lemma even_power_nonneg (z : R) : 0 <= z ^ 16.
Proof.
  replace (z ^ 16) with ((z ^ 8) * (z ^ 8)) by ring. apply Rle_0_sqr.
Qed.

Lemma exp_neg_le_1 (y : R) : 0 <= y -> exp (- y) <= 1.
Proof.
  intros Hy. rewrite <- exp_0.
  destruct (Req_dec y 0) as [->|Hne].
  - rewrite Ropp_0. apply Rle_refl.
  - apply Rlt_le, exp_increasing. Lra.lra.
Qed.

Lemma super_gaussian_range (t start_time duration area : R) :
  0 < duration -> 0 <= area ->
  0 <= super_gaussian t start_time duration area <= area / duration.
Proof.
  intros Hd Ha. unfold super_gaussian. cbv zeta.
  set (z := (t - (start_time + duration / 2))
            / (1 / (193516 / 100000) * duration)).
  pose proof (even_power_nonneg z) as Hz.
  pose proof (exp_neg_le_1 (z ^ 16) Hz) as Hle.
  pose proof (exp_pos (- z ^ 16)) as Hpos.
  assert (Hh : 0 <= area / duration).
  { unfold Rdiv. apply Rmult_le_pos; [exact Ha|].
    apply Rlt_le, Rinv_0_lt_compat, Hd. }
  split.
  - apply Rmult_le_pos; [exact Hh | apply Rlt_le, Hpos].
  - rewrite <- (Rmult_1_r (area / duration)) at 2.
    apply Rmult_le_compat_l; assumption.
Qed.

(** X27: The burst profile peaks in the middle of the event at
    [area / duration], is symmetric about the middle, and lies between zero
    and its peak everywhere. *)
Theorem super_gaussian_shape (start_time duration area : R) :
  0 < duration -> 0 <= area ->
  super_gaussian (start_time + duration / 2) start_time duration area
  = area / duration /\
  (forall x,
     super_gaussian (start_time + duration / 2 + x) start_time duration area
     = super_gaussian (start_time + duration / 2 - x) start_time duration area) /\
  (forall t,
     0 <= super_gaussian t start_time duration area <= area / duration).
Proof.
  intros Hd Ha. split; [|split].
  - unfold super_gaussian. cbv zeta.
    replace (start_time + duration / 2 - (start_time + duration / 2)) with 0
      by ring.
    unfold Rdiv at 2. rewrite Rmult_0_l, pow_i by lia.
    rewrite Ropp_0, exp_0. ring.
  - intros x. unfold super_gaussian. cbv zeta. f_equal. f_equal. f_equal.
    unfold Rdiv. ring.
  - intros t. apply super_gaussian_range; assumption.
Qed.

Lemma super_gaussian_shape_witness :
  super_gaussian (774 + 1 / 2) 774 1 10 = 10 / 1 /\
  (forall t, 0 <= super_gaussian t 774 1 10 <= 10 / 1).
Proof.
  destruct (super_gaussian_shape 774 1 10) as (Hpeak & _ & Hrange);
    [Lra.lra | Lra.lra |].
  split; [exact Hpeak | exact Hrange].
Defined.

(** X28: The burst model with the fixed solar cycle is the flexible one at an
    angular frequency of [2 pi / 11] and an amplitude of 0.18.  For a
    non-negative steady-state rate, a non-negative area and an amplitude
    of at most one, the production rate never falls below
    [(1 - amplitude)] times the steady-state rate, so it is never negative,
    and never exceeds [(1 + amplitude)] times that rate plus the peak of
    the burst. *)
Theorem miyake_event_bounds (ss t start_time duration phase area : R) :
  0 <= ss -> 0 < duration -> 0 <= area ->
  miyake_event_fixed_solar ss t start_time duration phase area
  = miyake_event_flexible_solar ss t start_time duration phase area
      (2 * PI / 11) (18 / 100) /\
  (forall omega amplitude, 0 <= amplitude <= 1 ->
     (1 - amplitude) * ss
     <= miyake_event_flexible_solar ss t start_time duration phase area
          omega amplitude
     <= (1 + amplitude) * ss + area / duration) /\
  (82 / 100) * ss
  <= miyake_event_fixed_solar ss t start_time duration phase area
  <= (118 / 100) * ss + area / duration.
Proof.
  intros Hss Hd Ha.
  pose proof (super_gaussian_range t start_time duration area Hd Ha) as Hsg.
  split; [reflexivity|]. split.
  - intros omega amplitude Hamp.
    unfold miyake_event_flexible_solar. cbv zeta.
    pose proof (SIN_bound (omega * t + phase)) as [Hlo Hhi].
    set (w := sin (omega * t + phase)) in *.
    set (h := super_gaussian t start_time duration area) in *.
    clearbody w h.
    assert (H1 : 0 <= (amplitude * ss) * (w + 1))
      by (apply Rmult_le_pos; [apply Rmult_le_pos|]; Lra.lra).
    assert (H2 : 0 <= (amplitude * ss) * (1 - w))
      by (apply Rmult_le_pos; [apply Rmult_le_pos|]; Lra.lra).
    split; Lra.lra.
  - unfold miyake_event_fixed_solar. cbv zeta.
    pose proof (SIN_bound (2 * PI / 11 * t + phase)) as [Hlo Hhi].
    set (w := sin (2 * PI / 11 * t + phase)) in *.
    set (h := super_gaussian t start_time duration area) in *.
    clearbody w h. split; Lra.nra.
Qed.

Lemma miyake_event_bounds_witness :
  (82 / 100) * 2 <= miyake_event_fixed_solar 2 775 774 1 0 10
  <= (118 / 100) * 2 + 10 / 1.
Proof.
  destruct (miyake_event_bounds 2 775 774 1 0 10) as (_ & _ & Hfixed);
    [Lra.lra | Lra.lra | Lra.lra |].
  exact Hfixed.
Defined.

(** X29: Apart from the burst itself the production rate repeats: every eleven
    years with the fixed solar cycle, and every [2 pi / omega] years with a
    free angular frequency [omega]. *)
Theorem solar_cycle_period (ss t start_time duration phase area : R) :
  miyake_event_fixed_solar ss (t + 11) start_time duration phase area
  - super_gaussian (t + 11) start_time duration area
  = miyake_event_fixed_solar ss t start_time duration phase area
    - super_gaussian t start_time duration area /\
  (forall omega amplitude, omega <> 0 ->
     miyake_event_flexible_solar ss (t + 2 * PI / omega) start_time duration
       phase area omega amplitude
     - super_gaussian (t + 2 * PI / omega) start_time duration area
     = miyake_event_flexible_solar ss t start_time duration phase area
         omega amplitude
       - super_gaussian t start_time duration area).
Proof.
  split.
  - unfold miyake_event_fixed_solar. cbv zeta.
    replace (2 * PI / 11 * (t + 11) + phase)
      with (2 * PI / 11 * t + phase + 2 * INR 1 * PI) by (simpl; field).
    rewrite sin_period. ring.
  - intros omega amplitude Homega.
    unfold miyake_event_flexible_solar. cbv zeta.
    replace (omega * (t + 2 * PI / omega) + phase)
      with (omega * t + phase + 2 * INR 1 * PI) by (simpl; field; exact Homega).
    rewrite sin_period. ring.
Qed.

Lemma solar_cycle_period_witness :
  miyake_event_fixed_solar 2 (770 + 11) 774 1 0 10
  - super_gaussian (770 + 11) 774 1 10
  = miyake_event_fixed_solar 2 770 774 1 0 10 - super_gaussian 770 774 1 10 /\
  miyake_event_flexible_solar 2 (770 + 2 * PI / 3) 774 1 0 10 3 (1 / 2)
  - super_gaussian (770 + 2 * PI / 3) 774 1 10
  = miyake_event_flexible_solar 2 770 774 1 0 10 3 (1 / 2)
    - super_gaussian 770 774 1 10.
Proof.
  destruct (solar_cycle_period 2 770 774 1 0 10) as [Hfixed Hflex].
  split; [exact Hfixed|]. apply Hflex. Lra.lra.
Defined.

End ProductionFacts.
